(** * migen.build.xilinx.ise: the Xilinx ISE toolchain driver

    A shallow embedding of [migen/build/xilinx/ise.py] and the properties
    of its constraint-file builder, its script generators and its build
    entry point.

    Python strings are [string]; Python lists are [list]; a Python [int]
    is [Z]; [None] is [None]; a raised exception is the left injection of
    a sum, so a function that can raise returns [result A]. Code that
    writes files, starts processes or changes directory is a transformer
    of the process state [World], which keeps the effects in order.

    What the module imports and does not define is a parameter: the
    constructor of [Pins], the host ([sys.platform], [os.chdir],
    [subprocess.call], [common.settings]) and the platform object. A
    method of a collaborator is the outcome it has when called, a value or
    an exception; collaborators do not change the working directory nor
    the toolchain object. *)

From Stdlib Require Import String Ascii List ZArith Lia Bool DecimalString DecimalNat.
Import ListNotations.
Open Scope string_scope.

(* ================================================================== *)
(** * Python preliminaries *)
(* ================================================================== *)

(** The exceptions that the embedded code can raise or let through.
    [OtherError] is any exception that a collaborator raises and this
    module never looks at. [Unsupported] is not a Python exception: it
    marks a format string that leaves the fragment of [str.format]
    modelled below (conversions, format specifications, attribute and
    index lookups); a run that ends in it says nothing of the program. *)
Inductive exn : Type :=
| IndexError
| KeyError (key : string)
| ValueError
| UnboundLocalError (name : string)
| OSError (msg : string)
| OtherError (name : string)
| Unsupported (what : string).

Definition result (A : Type) : Type := (exn + A)%type.

Definition rbind {A B} (m : result A) (k : A -> result B) : result B :=
  match m with
  | inl e => inl e
  | inr a => k a
  end.

Declare Scope result_scope.
Delimit Scope result_scope with result.
Notation "x <- m ;; k" := (rbind m (fun x => k))
  (at level 61, m at next level, right associativity) : result_scope.

(** The double quote and the newline. *)
Definition dquote : string := String "034"%char EmptyString.
Definition nl : string := String "010"%char EmptyString.

(** [str(i)] for a Python [int], and for the index of [enumerate]. *)
Definition str_int (z : Z) : string := NilZero.string_of_int (Z.to_int z).
Definition str_nat (n : nat) : string := NilZero.string_of_uint (Nat.to_uint n).

(** [sep.join(l)] *)
Definition join (sep : string) (l : list string) : string := String.concat sep l.

(* ================================================================== *)
(** * Constraints (migen.build.generic_platform) *)
(* ================================================================== *)

(** The constraint objects that [_format_constraint] tells apart with
    [isinstance]. Python is open-world: an object of any other class
    (a [Subsignal], a [PlatformInfo], ...) can sit in a constraint list;
    [OtherObject] stands for it and carries the class name. *)
Inductive Constraint : Type :=
| Pins (identifiers : list string)
| IOStandard (name : string)
| Drive (strength : Z)
| Misc (misc : string)
| OtherObject (cls : string).

(** [resname]: [(kind, index, subsignal-or-None)]. *)
Definition ResourceName : Type := (string * Z * option string)%type.

(** One entry of [named_sc]: [(sig, pins, others, resname)]. *)
Definition NamedSC : Type :=
  (string * list string * list Constraint * ResourceName)%type.

Definition sc_pins (sc : NamedSC) : list string :=
  let '(_, pins, _, _) := sc in pins.
Definition sc_others (sc : NamedSC) : list Constraint :=
  let '(_, _, others, _) := sc in others.

(** ** [_format_constraint]

    [c.identifiers[0]] raises [IndexError] on an empty list; an object of
    no listed class falls off the end of the [if] chain and the function
    returns [None]. *)
Definition _format_constraint (c : Constraint) : result (option string) :=
  match c with
  | Pins identifiers =>
      match identifiers with
      | [] => inl IndexError
      | id0 :: _ => inr (Some ("LOC=" ++ id0))
      end
  | IOStandard name => inr (Some ("IOSTANDARD=" ++ name))
  | Drive strength => inr (Some ("DRIVE=" ++ str_int strength))
  | Misc misc => inr (Some misc)
  | OtherObject _ => inr None
  end.

(** [fmt_r] of [_format_ucf]. *)
Definition format_resname (resname : ResourceName) : string :=
  let '(kind, index, sub) := resname in
  let fmt_r := kind ++ ":" ++ str_int index in
  match sub with
  | Some s => fmt_r ++ "." ++ s
  | None => fmt_r
  end.

Section ConstraintFile.

(** The class [Pins] is declared in [migen.build.generic_platform], not
    in this module: [Pins_init pin] is the [identifiers] list that the
    object built by [Pins(pin)] holds. *)
Variable Pins_init : string -> list string.

(** The [for c in [Pins(pin)] + others] loop, [fmt_c] as accumulator. *)
Fixpoint format_loop (cs : list Constraint) (fmt_c : list string)
  : result (list string) :=
  match cs with
  | [] => inr fmt_c
  | c :: cs' =>
      match _format_constraint c with
      | inl e => inl e
      | inr (Some fc) => format_loop cs' (fmt_c ++ [fc])
      | inr None => format_loop cs' fmt_c
      end
  end.

Definition _format_ucf (signame pin : string) (others : list Constraint)
    (resname : ResourceName) : result string :=
  (fmt_c <- format_loop (Pins (Pins_init pin) :: others) [] ;;
   let fmt_r := format_resname resname in
   inr ("NET " ++ dquote ++ signame ++ dquote ++ " " ++ join " | " fmt_c
        ++ "; # " ++ fmt_r ++ nl))%result.

(** The [for i, p in enumerate(pins)] loop; [i] is the running index
    and [r] the text built so far. *)
Fixpoint enumerate_loop (sig : string) (i : nat) (pins : list string)
    (others : list Constraint) (resname : ResourceName) (r : string)
  : result string :=
  match pins with
  | [] => inr r
  | p :: pins' =>
      (line <- _format_ucf (sig ++ "(" ++ str_nat i ++ ")") p others resname ;;
       enumerate_loop sig (S i) pins' others resname (r ++ line))%result
  end.

(** The body of the [for ... in named_sc] loop. *)
Definition build_ucf_step (r : string) (sc : NamedSC) : result string :=
  let '(sig, pins, others, resname) := sc in
  if (1 <? length pins)%nat then
    enumerate_loop sig 0 pins others resname r
  else
    match pins with
    | [] => inl IndexError
    | p0 :: _ =>
        (line <- _format_ucf sig p0 others resname ;;
         inr (r ++ line))%result
    end.

Fixpoint build_ucf_loop (named_sc : list NamedSC) (r : string)
  : result string :=
  match named_sc with
  | [] => inr r
  | sc :: rest =>
      (r' <- build_ucf_step r sc ;; build_ucf_loop rest r')%result
  end.

Definition _build_ucf (named_sc : list NamedSC) (named_pc : list string)
  : result string :=
  (r <- build_ucf_loop named_sc "" ;;
   match named_pc with
   | [] => inr r
   | _ :: _ => inr (r ++ nl ++ join (nl ++ nl) named_pc)
   end)%result.

End ConstraintFile.

(** Modelled from the spec: the constructor of [Pins] is not in this
    module; the spec's placement built from one pin of a signal carries
    that pin as its only identifier. *)
Definition Pins_of_pin (pin : string) : list string := [pin].

(* ================================================================== *)
(** * [str.format] *)
(* ================================================================== *)

(** The replacement-field mini-language of [str.format], for [str]
    arguments: literal text, the escapes [{{] and [}}], and fields
    [{}], [{n}] and [{name}]. *)

Definition lbrace : ascii := "{"%char.
Definition rbrace : ascii := "}"%char.

Definition is_digit (c : ascii) : bool :=
  ((48 <=? nat_of_ascii c) && (nat_of_ascii c <=? 57))%nat.

Fixpoint all_digits (s : string) : bool :=
  match s with
  | EmptyString => true
  | String c s' => is_digit c && all_digits s'
  end.

(** The number a string of digits writes. *)
Fixpoint int_of_digits (acc : N) (s : string) : N :=
  match s with
  | EmptyString => acc
  | String c s' => int_of_digits (10 * acc + (N_of_ascii c - 48))%N s'
  end.

(** The largest index of the interpreter ([sys.maxsize] of a 64-bit
    build): a field number above it is a [ValueError]. *)
Definition PY_SSIZE_T_MAX : N := 9223372036854775807%N.

Fixpoint lookup_kw (name : string) (kwargs : list (string * string))
  : option string :=
  match kwargs with
  | [] => None
  | (k, v) :: rest => if (k =? name)%string then Some v else lookup_kw name rest
  end.

(** Automatic ([{}]) against manual ([{0}]) numbering of positional
    fields; a format string may not mix them. *)
Inductive numbering : Type :=
| NumUnset
| NumAuto (next : N)
| NumManual.

(** [args[i]] *)
Fixpoint nth_N {A} (l : list A) (i : N) : option A :=
  match l with
  | [] => None
  | x :: l' => if (i =? 0)%N then Some x else nth_N l' (N.pred i)
  end.

Definition positional (args : list string) (i : N) : result string :=
  match nth_N args i with
  | Some v => inr v
  | None => inl IndexError
  end.

(** The value a field name stands for, and the numbering state after it. *)
Definition get_field (args : list string) (kwargs : list (string * string))
    (num : numbering) (name : string) : result (string * numbering) :=
  match name with
  | EmptyString =>
      match num with
      | NumManual => inl ValueError
      | NumUnset => (v <- positional args 0 ;; inr (v, NumAuto 1))%result
      | NumAuto n => (v <- positional args n ;; inr (v, NumAuto (N.succ n)))%result
      end
  | String _ _ =>
      if all_digits name then
        match num with
        | NumAuto _ => inl ValueError
        | _ =>
            if (PY_SSIZE_T_MAX <? int_of_digits 0 name)%N then inl ValueError
            else (v <- positional args (int_of_digits 0 name) ;;
                  inr (v, NumManual))%result
        end
      else
        match lookup_kw name kwargs with
        | Some v => inr (v, num)
        | None => inl (KeyError name)
        end
  end.

Definition field_special (c : ascii) : bool :=
  (c =? "!")%char || (c =? ":")%char || (c =? ".")%char || (c =? "[")%char.

(** The scanner. [field] is [None] in literal text and [Some name] inside
    a replacement field whose name read so far is [name]. A lone brace, a
    field left open and a brace inside a field name are [ValueError]. *)
Fixpoint format_from (args : list string) (kwargs : list (string * string))
    (num : numbering) (field : option string) (s : string) : result string :=
  match s with
  | EmptyString =>
      match field with
      | None => inr EmptyString
      | Some _ => inl ValueError
      end
  | String c s' =>
      match field with
      | None =>
          if (c =? lbrace)%char then
            match s' with
            | EmptyString => inl ValueError
            | String c' s'' =>
                if (c' =? lbrace)%char then
                  (r <- format_from args kwargs num None s'' ;;
                   inr (String lbrace r))%result
                else format_from args kwargs num (Some EmptyString) s'
            end
          else if (c =? rbrace)%char then
            match s' with
            | EmptyString => inl ValueError
            | String c' s'' =>
                if (c' =? rbrace)%char then
                  (r <- format_from args kwargs num None s'' ;;
                   inr (String rbrace r))%result
                else inl ValueError
            end
          else
            (r <- format_from args kwargs num None s' ;;
             inr (String c r))%result
      | Some name =>
          if (c =? rbrace)%char then
            (vn <- get_field args kwargs num name ;;
             r <- format_from args kwargs (snd vn) None s' ;;
             inr (fst vn ++ r))%result
          else if (c =? lbrace)%char then inl ValueError
          else if field_special c then inl (Unsupported "replacement field")
          else format_from args kwargs num (Some (name ++ String c EmptyString)) s'
      end
  end.

(** [template.format] applied to positional [args] and keyword [kwargs]. *)
Definition str_format (template : string) (args : list string)
    (kwargs : list (string * string)) : result string :=
  format_from args kwargs NumUnset None template.

(* ================================================================== *)
(** * The process state: working directory, toolchain object, effects *)
(* ================================================================== *)

(** [XilinxISEToolchain]: the option fields set by [__init__]. *)
Record XilinxISEToolchain : Type := {
  xst_opt : string;
  map_opt : string;
  par_opt : string;
  ngdbuild_opt : string;
  bitgen_opt : string;
  ise_commands : string
}.

(** [XilinxISEToolchain.__init__] *)
Definition XilinxISEToolchain_init : XilinxISEToolchain := {|
  xst_opt := "-ifmt MIXED" ++ nl ++ "-use_new_parser yes" ++ nl
             ++ "-opt_mode SPEED" ++ nl ++ "-register_balancing yes";
  map_opt := "-ol high -w";
  par_opt := "-ol high -w";
  ngdbuild_opt := "";
  bitgen_opt := "-g Binary:Yes -w";
  ise_commands := ""
|}.

(** What the code does to the world outside the interpreter, in order.
    [WriteFile] is [tools.write_to_file] with its [force_unix] keyword
    ([None] when the call does not pass it); [WriteOutput] is the [write]
    method of the object returned by the design compiler; [Call] is
    [subprocess.call] with what it gave back. *)
Inductive event : Type :=
| Mkdir (d : string)
| Chdir (d : string)
| WriteFile (filename contents : string) (force_unix : option bool)
| WriteOutput (filename : string)
| Call (argv : list string) (outcome : result Z)
| Synthesize.

(** [cwd] is the working directory of the process, [self_obj] the
    toolchain object that [build] receives as [self], [trace] the
    effects so far, oldest first. *)
Record World : Type := {
  cwd : string;
  self_obj : XilinxISEToolchain;
  trace : list event
}.

Definition set_cwd (d : string) (w : World) : World :=
  {| cwd := d; self_obj := self_obj w; trace := trace w |}.

Definition log (e : event) (w : World) : World :=
  {| cwd := cwd w; self_obj := self_obj w; trace := trace w ++ [e] |}.

(** Statements: a state transformer that ends in a value or in a raised
    exception; the world at the time of the raise is kept. *)
Definition M (A : Type) : Type := World -> result A * World.

Definition ret {A} (a : A) : M A := fun w => (inr a, w).

Definition raise {A} (e : exn) : M A := fun w => (inl e, w).

Definition bind {A B} (m : M A) (k : A -> M B) : M B :=
  fun w =>
    match m w with
    | (inl e, w') => (inl e, w')
    | (inr a, w') => k a w'
    end.

(** An expression that can raise, evaluated as a statement. *)
Definition lift {A} (r : result A) : M A := fun w => (r, w).

Definition emit (e : event) : M unit := fun w => (inr tt, log e w).

(** [try: body finally: fin]. The finaliser runs on both exits; an
    exception of the finaliser replaces the one of the body. *)
Definition try_finally {A} (body : M A) (fin : M unit) : M A :=
  fun w =>
    match body w with
    | (r, w1) =>
        match fin w1 with
        | (inl e, w2) => (inl e, w2)
        | (inr _, w2) => (r, w2)
        end
    end.

Declare Scope M_scope.
Delimit Scope M_scope with M.
Notation "x <- m ;; k" := (bind m (fun x => k))
  (at level 61, m at next level, right associativity) : M_scope.
Notation "m ;;; k" := (bind m (fun _ => k))
  (at level 61, right associativity) : M_scope.

(** Modelled from the spec: [tools.write_to_file] and
    [tools.mkdir_noerror] are the generic file-write and
    directory-creation utilities, defined outside this module; a call is
    recorded with its arguments. *)
Definition write_to_file (filename contents : string)
    (force_unix : option bool) : M unit :=
  emit (WriteFile filename contents force_unix).

Definition mkdir_noerror (d : string) : M unit := emit (Mkdir d).

(** [(filename, language, library)] *)
Definition BuildSource : Type := (string * string * string)%type.

(** The interpreter and operating system under the module. *)
Record Host : Type := {
  (** [sys.platform] *)
  sys_platform : string;
  (** [os.chdir(d)] from working directory [c]: the new working
      directory, or the error. *)
  os_chdir : string -> string -> result string;
  (** [subprocess.call(argv)]: the exit status, or the error of a
      process that could not be started. *)
  host_call : list string -> World -> result Z;
  (** [common.settings(path, ver, sub)] *)
  common_settings : string -> option string -> string -> result string;
  (** the order in which a [for] loop visits the set with these elements *)
  set_order : list BuildSource -> list BuildSource;
  (** the [identifiers] of [Pins(pin)] *)
  Pins_init : string -> list string
}.

Definition getcwd : M string := fun w => (inr (cwd w), w).

Definition chdir (h : Host) (d : string) : M unit :=
  fun w =>
    match os_chdir h (cwd w) d with
    | inl e => (inl e, w)
    | inr c => (inr tt, log (Chdir d) (set_cwd c w))
    end.

Definition subprocess_call (h : Host) (argv : list string) : M Z :=
  fun w => let r := host_call h argv w in (r, log (Call argv r) w).

Definition get_self : M XilinxISEToolchain := fun w => (inr (self_obj w), w).

(* ================================================================== *)
(** * The script generators *)
(* ================================================================== *)

Local Open Scope M_scope.

(** ** [_build_xst_files] *)

Fixpoint prj_loop (sources : list BuildSource) (prj_contents : string)
  : string :=
  match sources with
  | [] => prj_contents
  | (filename, language, library) :: rest =>
      prj_loop rest
        (prj_contents ++ language ++ " " ++ library ++ " " ++ filename ++ nl)
  end.

Definition xst_template : string :=
  "run" ++ nl ++
  "-ifn {build_name}.prj" ++ nl ++
  "-top top" ++ nl ++
  "{xst_opt}" ++ nl ++
  "-ofn {build_name}.ngc" ++ nl ++
  "-p {device}" ++ nl.

Fixpoint vlgincdir_loop (vincpaths : list string) (xst_contents : string)
  : string :=
  match vincpaths with
  | [] => xst_contents
  | path :: rest =>
      vlgincdir_loop rest (xst_contents ++ "-vlgincdir " ++ path ++ nl)
  end.

Definition _build_xst_files (device : string) (sources : list BuildSource)
    (vincpaths : list string) (build_name xst_opt : string) : M unit :=
  let prj_contents := prj_loop sources "" in
  write_to_file (build_name ++ ".prj") prj_contents None ;;;
  xst_contents <- lift (str_format xst_template []
                          [("build_name", build_name); ("xst_opt", xst_opt);
                           ("device", device)]) ;;
  let xst_contents := vlgincdir_loop vincpaths xst_contents in
  write_to_file (build_name ++ ".xst") xst_contents None.

(** ** [_run_yosys] *)

Fixpoint incflags_loop (vincpaths : list string) (incflags : string)
  : string :=
  match vincpaths with
  | [] => incflags
  | path :: rest => incflags_loop rest (incflags ++ " -I" ++ path)
  end.

Fixpoint read_loop (sources : list BuildSource) (incflags ys_contents : string)
  : result string :=
  match sources with
  | [] => inr ys_contents
  | (filename, language, library) :: rest =>
      (line <- str_format ("read_{}{} {}" ++ nl)
                 [language; incflags; filename] [] ;;
       read_loop rest incflags (ys_contents ++ line))%result
  end.

Definition ys_template : string :=
  "hierarchy -check -top top" ++ nl ++
  "proc; memory; opt; fsm; opt" ++ nl ++
  "synth_xilinx -top top -edif {build_name}.edif".

Definition _run_yosys (h : Host) (device : string)
    (sources : list BuildSource) (vincpaths : list string)
    (build_name : string) : M unit :=
  let incflags := incflags_loop vincpaths "" in
  ys_contents <- lift (read_loop sources incflags "") ;;
  tail <- lift (str_format ys_template [] [("build_name", build_name)]) ;;
  let ys_contents := ys_contents ++ tail in
  let ys_name := build_name ++ ".ys" in
  write_to_file ys_name ys_contents None ;;;
  r <- subprocess_call h ["yosys"; ys_name] ;;
  if (r =? 0)%Z then ret tt else raise (OSError "Subprocess failed").

(** ** [_run_ise] *)

Definition is_windows (h : Host) : bool :=
  (sys_platform h =? "win32")%string || (sys_platform h =? "cygwin")%string.

Definition xst_stage_template : string :=
  nl ++ "xst -ifn {build_name}.xst" ++ nl.

Definition stages_template : string :=
  nl ++
  "ngdbuild {ngdbuild_opt} -uc {build_name}.ucf {build_name}.{ext} {build_name}.ngd" ++ nl ++
  "map {map_opt} -o {build_name}_map.ncd {build_name}.ngd {build_name}.pcf" ++ nl ++
  "par {par_opt} {build_name}_map.ncd {build_name}.ncd {build_name}.pcf" ++ nl ++
  "bitgen {bitgen_opt} {build_name}.ncd {build_name}.bit" ++ nl.

Definition _run_ise (h : Host) (build_name ise_path : string) (source : bool)
    (mode ngdbuild_opt bitgen_opt ise_commands map_opt par_opt : string)
    (ver : option string) : M unit :=
  let '(source_cmd, script_ext, shell, build_script_contents) :=
    if is_windows h then
      ("call ", ".bat", ["cmd"; "/c"],
       "@echo off" ++ nl ++ "rem Autogenerated by Migen" ++ nl)
    else
      ("source ", ".sh", ["bash"],
       "# Autogenerated by Migen" ++ nl ++ "set -e" ++ nl) in
  build_script_contents <-
    (if source then
       settings <- lift (common_settings h ise_path ver "ISE_DS") ;;
       ret (build_script_contents ++ source_cmd ++ settings ++ nl)
     else ret build_script_contents) ;;
  let '(ext, build_script_contents) :=
    if (mode =? "edif")%string then ("edif", build_script_contents)
    else ("ngc", build_script_contents ++ xst_stage_template) in
  let build_script_contents := build_script_contents ++ stages_template in
  build_script_contents <-
    lift (str_format build_script_contents []
            [("build_name", build_name); ("ngdbuild_opt", ngdbuild_opt);
             ("bitgen_opt", bitgen_opt); ("ext", ext);
             ("par_opt", par_opt); ("map_opt", map_opt)]) ;;
  trailer <- lift (str_format ise_commands [] [("build_name", build_name)]) ;;
  let build_script_contents := build_script_contents ++ trailer in
  let build_script_file := "build_" ++ build_name ++ script_ext in
  write_to_file build_script_file build_script_contents (Some false) ;;;
  let command := (shell ++ [build_script_file])%list in
  r <- subprocess_call h command ;;
  if (r =? 0)%Z then ret tt else raise (OSError "Subprocess failed").

(* ================================================================== *)
(** * The collaborators of [build] *)
(* ================================================================== *)

(** What [platform.get_verilog] and [platform.get_edif] return: an object
    with a name table [ns] and a [write] method. *)
Record Output (NS : Type) : Type := {
  ns : NS;
  write : string -> result unit
}.
Arguments ns {NS}.
Arguments write {NS}.

(** The platform object, as far as [build] uses it. A method is the
    outcome it has when [build] calls it. *)
Record Platform (Fragment NS IOSignals : Type) : Type := {
  device : string;
  sources : list BuildSource;
  verilog_include_paths : list string;
  finalize : Fragment -> result unit;
  get_verilog : Fragment -> result (Output NS);
  get_edif : Fragment -> result (Output NS);
  resolve_signals : NS -> result (list NamedSC * list string);
  get_io_signals : result IOSignals
}.
Arguments device {Fragment NS IOSignals}.
Arguments sources {Fragment NS IOSignals}.
Arguments verilog_include_paths {Fragment NS IOSignals}.
Arguments finalize {Fragment NS IOSignals}.
Arguments get_verilog {Fragment NS IOSignals}.
Arguments get_edif {Fragment NS IOSignals}.
Arguments resolve_signals {Fragment NS IOSignals}.
Arguments get_io_signals {Fragment NS IOSignals}.

(** The [fragment] argument: a [_Fragment], or an object with a
    [get_fragment] method. *)
Inductive Design (Fragment : Type) : Type :=
| IsFragment (f : Fragment)
| HasGetFragment (get_fragment : result Fragment).
Arguments IsFragment {Fragment}.
Arguments HasGetFragment {Fragment}.

(** The local variables of [build] that its [try] block assigns. A
    variable not yet assigned is [None]. *)
Record Locals (NS : Type) : Type := {
  vns : option NS;
  named : option (list NamedSC * list string);
  isemode : option string;
  l_ngdbuild_opt : string
}.
Arguments vns {NS}.
Arguments named {NS}.
Arguments isemode {NS}.
Arguments l_ngdbuild_opt {NS}.

Definition source_eqb (a b : BuildSource) : bool :=
  let '(f1, l1, b1) := a in
  let '(f2, l2, b2) := b in
  (f1 =? f2)%string && (l1 =? l2)%string && (b1 =? b2)%string.

(** [s | {x}] on the elements of a set. *)
Definition set_add (x : BuildSource) (s : list BuildSource)
  : list BuildSource :=
  if existsb (source_eqb x) s then s else (s ++ [x])%list.

Definition output_write {NS} (o : Output NS) (filename : string) : M unit :=
  fun w =>
    match write o filename with
    | inl e => (inl e, w)
    | inr _ => (inr tt, log (WriteOutput filename) w)
    end.

(* ================================================================== *)
(** * [XilinxISEToolchain.build] *)
(* ================================================================== *)

Section Build.

Variables Fragment NS IOSignals : Type.
Variable h : Host.

(** [from mist import synthesize]: the function, or the import error. *)
Variable mist : result (Fragment -> IOSignals -> result unit).

(** [if mode == "xst" or mode == "yosys": ...] *)
Definition verilog_step (platform : Platform Fragment NS IOSignals)
    (fragment : Fragment) (build_name mode : string) (l : Locals NS)
  : M (Locals NS) :=
  if (mode =? "xst")%string || (mode =? "yosys")%string then
    v_output <- lift (get_verilog platform fragment) ;;
    let vns' := Some (ns v_output) in
    named' <- lift (resolve_signals platform (ns v_output)) ;;
    let v_file := build_name ++ ".v" in
    output_write v_output v_file ;;;
    let sources' :=
      set_order h (set_add (v_file, "verilog", "work") (sources platform)) in
    if (mode =? "xst")%string then
      self <- get_self ;;
      _build_xst_files (device platform) sources'
        (verilog_include_paths platform) build_name (xst_opt self) ;;;
      ret {| vns := vns'; named := Some named'; isemode := Some "xst";
             l_ngdbuild_opt := l_ngdbuild_opt l |}
    else
      _run_yosys h (device platform) sources'
        (verilog_include_paths platform) build_name ;;;
      ret {| vns := vns'; named := Some named'; isemode := Some "edif";
             l_ngdbuild_opt := l_ngdbuild_opt l ++ "-p " ++ device platform |}
  else ret l.

(** [if mode == "mist": ...] *)
Definition mist_step (platform : Platform Fragment NS IOSignals)
    (fragment : Fragment) (mode : string) : M unit :=
  if (mode =? "mist")%string then
    synthesize <- lift mist ;;
    io <- lift (get_io_signals platform) ;;
    lift (synthesize fragment io) ;;;
    emit Synthesize
  else ret tt.

(** [if mode == "edif" or mode == "mist": ...] *)
Definition edif_step (platform : Platform Fragment NS IOSignals)
    (fragment : Fragment) (build_name mode : string) (l : Locals NS)
  : M (Locals NS) :=
  if (mode =? "edif")%string || (mode =? "mist")%string then
    e_output <- lift (get_edif platform fragment) ;;
    named' <- lift (resolve_signals platform (ns e_output)) ;;
    let e_file := build_name ++ ".edif" in
    output_write e_output e_file ;;;
    ret {| vns := Some (ns e_output); named := Some named';
           isemode := Some "edif"; l_ngdbuild_opt := l_ngdbuild_opt l |}
  else ret l.

(** [tools.write_to_file(build_name + ".ucf", _build_ucf(named_sc, named_pc))] *)
Definition ucf_step (build_name : string) (l : Locals NS) : M unit :=
  match named l with
  | None => raise (UnboundLocalError "named_sc")
  | Some (named_sc, named_pc) =>
      contents <- lift (_build_ucf (Pins_init h) named_sc named_pc) ;;
      write_to_file (build_name ++ ".ucf") contents None
  end.

(** [if run: _run_ise(...)] *)
Definition run_step (build_name toolchain_path : string) (source run : bool)
    (l : Locals NS) : M unit :=
  if run then
    match isemode l with
    | None => raise (UnboundLocalError "isemode")
    | Some isemode' =>
        self <- get_self ;;
        _run_ise h build_name toolchain_path source isemode'
          (l_ngdbuild_opt l) (bitgen_opt self) (ise_commands self)
          (map_opt self) (par_opt self) None
    end
  else ret tt.

(** The body of the [try] block. *)
Definition build_body (platform : Platform Fragment NS IOSignals)
    (fragment : Fragment) (build_name toolchain_path : string)
    (source run : bool) (mode : string) (l : Locals NS) : M (Locals NS) :=
  l1 <- verilog_step platform fragment build_name mode l ;;
  mist_step platform fragment mode ;;;
  l2 <- edif_step platform fragment build_name mode l1 ;;
  ucf_step build_name l2 ;;;
  run_step build_name toolchain_path source run l2 ;;;
  ret l2.

Definition build (platform : Platform Fragment NS IOSignals)
    (fragment : Design Fragment) (build_dir build_name : string)
    (toolchain_path : option string) (source : option bool) (run : bool)
    (mode : string) : M (option NS) :=
  fragment <- match fragment with
              | IsFragment f => ret f
              | HasGetFragment get_fragment => lift get_fragment
              end ;;
  let toolchain_path :=
    match toolchain_path with
    | Some p => p
    | None =>
        if (sys_platform h =? "win32")%string then "C:\Xilinx"
        else if (sys_platform h =? "cygwin")%string then "/cygdrive/c/Xilinx"
        else "/opt/Xilinx"
    end in
  let source :=
    match source with
    | Some b => b
    | None => negb (sys_platform h =? "win32")%string
    end in
  lift (finalize platform fragment) ;;;
  self <- get_self ;;
  let l := {| vns := None; named := None; isemode := None;
              l_ngdbuild_opt := ngdbuild_opt self |} in
  mkdir_noerror build_dir ;;;
  cwd0 <- getcwd ;;
  chdir h build_dir ;;;
  l' <- try_finally
          (build_body platform fragment build_name toolchain_path source run
             mode l)
          (chdir h cwd0) ;;
  ret (vns l').

End Build.

(* ================================================================== *)
(** * [add_period_constraint] and [add_false_path_constraint] *)
(* ================================================================== *)

(** Both methods make one call of [platform.add_platform_command]; they
    are modelled by the arguments of that call, the template and the
    keyword arguments that bind its fields to signals. *)

Definition add_period_constraint {Sig : Type} (clk : Sig) (period : Z)
  : string * list (string * Sig) :=
  (nl ++ "NET " ++ dquote ++ "{clk}" ++ dquote ++ " TNM_NET = "
   ++ dquote ++ "PRD{clk}" ++ dquote ++ ";" ++ nl
   ++ "TIMESPEC " ++ dquote ++ "TS{clk}" ++ dquote ++ " = PERIOD "
   ++ dquote ++ "PRD{clk}" ++ dquote ++ " "
   ++ str_int period
   ++ " ns HIGH 50%;" ++ nl,
   [("clk", clk)]).

Definition add_false_path_constraint {Sig : Type} (from_ to : Sig)
  : string * list (string * Sig) :=
  (nl ++ "NET " ++ dquote ++ "{from_}" ++ dquote ++ " TNM_NET = "
   ++ dquote ++ "TIG{from_}" ++ dquote ++ ";" ++ nl
   ++ "NET " ++ dquote ++ "{to}" ++ dquote ++ " TNM_NET = "
   ++ dquote ++ "TIG{to}" ++ dquote ++ ";" ++ nl
   ++ "TIMESPEC " ++ dquote ++ "TS{from_}TO{to}" ++ dquote ++ " = FROM "
   ++ dquote ++ "TIG{from_}" ++ dquote ++ " TO "
   ++ dquote ++ "TIG{to}" ++ dquote ++ " TIG;" ++ nl,
   [("from_", from_); ("to", to)]).

(** Modelled from the spec: the platform, outside this module, renders a
    platform command to its final text by formatting the template with
    the final name of each signal. *)
Definition render_command {Sig : Type} (name_of : Sig -> string)
    (cmd : string * list (string * Sig)) : result string :=
  str_format (fst cmd) [] (map (fun kv => (fst kv, name_of (snd kv))) (snd cmd)).

(* ================================================================== *)
(** * Vocabulary of the properties *)
(* ================================================================== *)

(** The net name of bit [i] of a multi-bit signal. *)
Definition net_name (sig : string) (i : nat) : string :=
  sig ++ "(" ++ str_nat i ++ ")".

(** Lines put one after the other. *)
Fixpoint concat_lines (lines : list string) : string :=
  match lines with
  | [] => ""
  | l :: ls => l ++ concat_lines ls
  end.

(** The platform commands after the signal lines: nothing when there is
    none, else a blank line and the commands separated by blank lines. *)
Definition platform_commands (named_pc : list string) : string :=
  match named_pc with
  | [] => ""
  | _ :: _ => nl ++ join (nl ++ nl) named_pc
  end.

(** [lines] are the constraint lines of the named signal constraint [sc]:
    as many as pins; with more than one pin, line [i] is the line of net
    [sig(i)] placed on pin [i]; with one pin, the one line is that of net
    [sig] placed on that pin. *)
Definition emitted_lines (P : string -> list string) (sc : NamedSC)
    (lines : list string) : Prop :=
  let '(sig, pins, others, resname) := sc in
  length lines = length pins /\
  ((1 < length pins /\
    forall i p, nth_error pins i = Some p ->
      exists line, nth_error lines i = Some line /\
        _format_ucf P (net_name sig i) p others resname = inr line)
   \/
   (exists p line, pins = [p] /\ lines = [line] /\
      _format_ucf P sig p others resname = inr line)).

(** The tokens of a list of constraints, in the order of the list; a
    constraint that formats to nothing gives no token. *)
Fixpoint tokens_of (cs : list Constraint) : result (list string) :=
  match cs with
  | [] => inr []
  | c :: cs' =>
      (t <- _format_constraint c ;;
       ts <- tokens_of cs' ;;
       inr (match t with Some x => x :: ts | None => ts end))%result
  end.

(** The text of a constraint line: the net between quotes, the placement
    token of the identifier [id] followed by the tokens [otoks], and the
    resource as a comment. *)
Definition ucf_line (net id : string) (otoks : list string)
    (resname : ResourceName) : string :=
  "NET " ++ dquote ++ net ++ dquote ++ " "
  ++ join " | " (("LOC=" ++ id) :: otoks)
  ++ "; # " ++ format_resname resname ++ nl.

(** [line] is the constraint line of net [net] placed on pin [p]: the
    placement built from [p] has a first identifier, the other constraints
    have their tokens, and [line] is the text made of them. *)
Definition placed_line (P : string -> list string) (net p : string)
    (others : list Constraint) (resname : ResourceName) (line : string)
  : Prop :=
  exists id rest otoks,
    P p = id :: rest /\
    tokens_of others = inr otoks /\
    line = ucf_line net id otoks resname.

(** [lines] are the texts of the constraint lines of the named signal
    constraint [sc]: as many as pins; with more than one pin, line [i]
    names the net [sig(i)], the index written in decimal, and is placed on
    pin [i]; with one pin, the one line names the net [sig] and is placed
    on that pin. *)
Definition line_texts (P : string -> list string) (sc : NamedSC)
    (lines : list string) : Prop :=
  let '(sig, pins, others, resname) := sc in
  length lines = length pins /\
  ((1 < length pins /\
    forall i p, nth_error pins i = Some p ->
      exists line, nth_error lines i = Some line /\
        placed_line P
          (sig ++ "(" ++ NilZero.string_of_uint (Nat.to_uint i) ++ ")")
          p others resname line)
   \/
   (exists p line, pins = [p] /\ lines = [line] /\
      placed_line P sig p others resname line)).

(** A placement can be formatted: it has an identifier. Every other
    constraint can. *)
Definition placement_ok (c : Constraint) : bool :=
  match c with
  | Pins [] => false
  | _ => true
  end.

Definition nonempty {A} (l : list A) : bool :=
  match l with
  | [] => false
  | _ :: _ => true
  end.

(** A named signal constraint has a pin, the placement built from each
    of its pins has an identifier, and so has every placement among its
    other constraints. *)
Definition sc_ok (P : string -> list string) (sc : NamedSC) : bool :=
  nonempty (sc_pins sc)
  && forallb (fun p => nonempty (P p)) (sc_pins sc)
  && forallb placement_ok (sc_others sc).

(** [sub] occurs in [s]. *)
Definition contains (sub s : string) : Prop :=
  exists pre post, s = pre ++ sub ++ post.

(** A newline occurs in a string; no keyword of a call holds one. *)
Definition is_nl (c : ascii) : bool := (c =? "010")%char.

Fixpoint has_nl (s : string) : bool :=
  match s with
  | EmptyString => false
  | String c s' => is_nl c || has_nl s'
  end.

Definition keys_without_nl (kwargs : list (string * string)) : bool :=
  forallb (fun kv => negb (has_nl (fst kv))) kwargs.

(** The error that marks a format string outside the modelled fragment. *)
Definition outside_model (e : exn) : bool :=
  match e with
  | Unsupported _ => true
  | _ => false
  end.

(** [sub] occurs in [s], decided. *)
Fixpoint occurs (sub s : string) : bool :=
  prefix sub s ||
  match s with
  | EmptyString => false
  | String _ s' => occurs sub s'
  end.

(** The flavour of the build script on the host. *)
Definition script_ext_of (h : Host) : string :=
  if is_windows h then ".bat" else ".sh".

Definition shell_of (h : Host) : list string :=
  if is_windows h then ["cmd"; "/c"] else ["bash"].

Definition script_banner (h : Host) : string :=
  if is_windows h then "@echo off" ++ nl ++ "rem Autogenerated by Migen" ++ nl
  else "# Autogenerated by Migen" ++ nl ++ "set -e" ++ nl.

(** The top of the build script before rendering: the banner and, when
    the settings are to be sourced, the line that sources them. *)
Definition script_header (h : Host) (ise_path : string) (source : bool)
    (ver : option string) : result string :=
  if source then
    (settings <- common_settings h ise_path ver "ISE_DS" ;;
     inr (script_banner h
          ++ (if is_windows h then "call " else "source ") ++ settings ++ nl))%result
  else inr (script_banner h).

(** The extension of the netlist that feeds the translate stage. *)
Definition netlist_ext (mode : string) : string :=
  if (mode =? "edif")%string then "edif" else "ngc".

(** The keyword arguments of the [format] call of [_run_ise]. *)
Definition ise_kwargs (build_name ngdbuild_opt bitgen_opt ext par_opt map_opt : string)
  : list (string * string) :=
  [("build_name", build_name); ("ngdbuild_opt", ngdbuild_opt);
   ("bitgen_opt", bitgen_opt); ("ext", ext);
   ("par_opt", par_opt); ("map_opt", map_opt)].

(** The stage invocations of the build script. *)
Definition synthesis_line (build_name : string) : string :=
  "xst -ifn " ++ build_name ++ ".xst" ++ nl.

Definition translate_line (build_name ngdbuild_opt ext : string) : string :=
  "ngdbuild " ++ ngdbuild_opt ++ " -uc " ++ build_name ++ ".ucf "
  ++ build_name ++ "." ++ ext ++ " " ++ build_name ++ ".ngd" ++ nl.

Definition map_line (build_name map_opt : string) : string :=
  "map " ++ map_opt ++ " -o " ++ build_name ++ "_map.ncd "
  ++ build_name ++ ".ngd " ++ build_name ++ ".pcf" ++ nl.

Definition par_line (build_name par_opt : string) : string :=
  "par " ++ par_opt ++ " " ++ build_name ++ "_map.ncd "
  ++ build_name ++ ".ncd " ++ build_name ++ ".pcf" ++ nl.

Definition bitgen_line (build_name bitgen_opt : string) : string :=
  "bitgen " ++ bitgen_opt ++ " " ++ build_name ++ ".ncd "
  ++ build_name ++ ".bit" ++ nl.

(** The build script: the rendered header, the synthesis stage unless
    the netlist is supplied ([mode] is ["edif"]), the four stages in
    their order, the rendered trailing commands. *)
Definition pipeline_script (header build_name mode ngdbuild_opt map_opt
    par_opt bitgen_opt trailer : string) : string :=
  header
  ++ (if (mode =? "edif")%string then "" else nl ++ synthesis_line build_name)
  ++ nl
  ++ translate_line build_name ngdbuild_opt (netlist_ext mode)
  ++ map_line build_name map_opt
  ++ par_line build_name par_opt
  ++ bitgen_line build_name bitgen_opt
  ++ trailer.

(** What [if r != 0: raise OSError("Subprocess failed")] makes of the
    outcome of [subprocess.call]. *)
Definition exit_check (outcome : result Z) : result unit :=
  match outcome with
  | inl e => inl e
  | inr r => if (r =? 0)%Z then inr tt else inl (OSError "Subprocess failed")
  end.

(** The script of the open synthesizer: one read directive per source,
    then the fixed passes and the synthesis directive. *)
Fixpoint ys_reads (sources : list BuildSource) (incflags : string) : string :=
  match sources with
  | [] => ""
  | (filename, language, library) :: rest =>
      "read_" ++ language ++ incflags ++ " " ++ filename ++ nl
      ++ ys_reads rest incflags
  end.

Definition ys_script (sources : list BuildSource) (vincpaths : list string)
    (build_name : string) : string :=
  ys_reads sources (incflags_loop vincpaths "")
  ++ "hierarchy -check -top top" ++ nl
  ++ "proc; memory; opt; fsm; opt" ++ nl
  ++ "synth_xilinx -top top -edif " ++ build_name ++ ".edif".

(** No process of the trace came back with a status other than 0. *)
Definition clean (new : list event) : Prop :=
  forall argv st, In (Call argv (inr st)) new -> st = 0%Z.

(** The effects [new] of a statement that ended in [r] stop at the first
    process that exits with a non-zero status, and the statement then
    raised the external-tool failure. *)
Definition failfast {A} (r : result A) (new : list event) : Prop :=
  clean new \/
  exists pre argv st,
    new = (pre ++ [Call argv (inr st)])%list /\ clean pre /\ st <> 0%Z /\
    r = inl (OSError "Subprocess failed").

(** The build script, the one file written with [force_unix=False], is
    not among the effects. *)
Definition no_script (new : list event) : Prop :=
  forall f c, ~ In (WriteFile f c (Some false)) new.

(** A statement leaves the toolchain object alone. *)
Definition keeps_self {A} (m : M A) : Prop :=
  forall w, self_obj (snd (m w)) = self_obj w.

(** A statement only adds effects, and they are fail-fast. *)
Definition ff {A} (m : M A) : Prop :=
  forall w, exists new,
    trace (snd (m w)) = (trace w ++ new)%list /\ failfast (fst (m w)) new.

(** A statement only adds effects, and writes no build script. *)
Definition quiet {A} (m : M A) : Prop :=
  forall w, exists new,
    trace (snd (m w)) = (trace w ++ new)%list /\ no_script new.

(** The effects [new] of a [build] that started in directory [cwd0] and
    ended in [r]: a process that exited with a non-zero status is followed
    by nothing but the return to [cwd0], and [build] raised; when the
    return took place, what it raised is the external-tool failure. *)
Definition build_failfast {NS : Type} (cwd0 : string) (r : result (option NS))
    (new : list event) : Prop :=
  forall pre argv st post,
    new = (pre ++ Call argv (inr st) :: post)%list -> st <> 0%Z ->
    (exists e, r = inl e) /\
    (post = [] \/ post = [Chdir cwd0]) /\
    (post = [Chdir cwd0] -> r = inl (OSError "Subprocess failed")).

(** A host, a platform and a starting state for the examples: a POSIX
    host on which the process [argv] exits with [status argv]. *)
Definition posix_host (status : list string -> Z) : Host := {|
  sys_platform := "linux";
  os_chdir := fun c d => inr (if prefix "/" d then d else c ++ "/" ++ d);
  host_call := fun argv _ => inr (status argv);
  common_settings := fun path _ sub =>
    inr (path ++ "/14.7/" ++ sub ++ "/settings64.sh");
  set_order := fun s => s;
  Pins_init := Pins_of_pin
|}.

Definition all_pass (argv : list string) : Z := 0%Z.

Definition yosys_fails (argv : list string) : Z :=
  match argv with
  | "yosys" :: _ => 1%Z
  | _ => 0%Z
  end.

Definition demo_platform : Platform unit unit unit := {|
  device := "xc7a35t";
  sources := [];
  verilog_include_paths := [];
  finalize := fun _ => inr tt;
  get_verilog := fun _ => inr {| ns := tt; write := fun _ => inr tt |};
  get_edif := fun _ => inr {| ns := tt; write := fun _ => inr tt |};
  resolve_signals := fun _ =>
    inr ([("clk", ["P17"], [IOStandard "LVCMOS33"], ("clk", 0%Z, None))], []);
  get_io_signals := inr tt
|}.

Definition no_mist : result (unit -> unit -> result unit) :=
  inl (OtherError "ModuleNotFoundError").

Definition demo_world : World := {|
  cwd := "/home/user/design";
  self_obj := XilinxISEToolchain_init;
  trace := []
|}.

(** The lines of the files of the synthesizers. *)
Definition prj_line (s : BuildSource) : string :=
  let '(filename, language, library) := s in
  language ++ " " ++ library ++ " " ++ filename ++ nl.

Definition vlgincdir_line (path : string) : string :=
  "-vlgincdir " ++ path ++ nl.

Definition xst_script (device build_name xst_opt : string) : string :=
  "run" ++ nl ++ "-ifn " ++ build_name ++ ".prj" ++ nl ++ "-top top" ++ nl
  ++ xst_opt ++ nl ++ "-ofn " ++ build_name ++ ".ngc" ++ nl
  ++ "-p " ++ device ++ nl.

Definition ys_read_line (incflags : string) (s : BuildSource) : string :=
  let '(filename, language, library) := s in
  "read_" ++ language ++ incflags ++ " " ++ filename ++ nl.

Definition ys_passes (build_name : string) : string :=
  "hierarchy -check -top top" ++ nl
  ++ "proc; memory; opt; fsm; opt" ++ nl
  ++ "synth_xilinx -top top -edif " ++ build_name ++ ".edif".

(** No brace occurs in a string. *)
Fixpoint no_brace (s : string) : bool :=
  match s with
  | EmptyString => true
  | String c s' => negb (c =? lbrace)%char && negb (c =? rbrace)%char && no_brace s'
  end.

(** The build modes, as [build] tells them apart. *)
Inductive ModeKind : Type :=
| NativeSynth
| OpenSynth
| ExternalFlow
| PrecompiledNetlist
| UnknownMode.

Definition mode_kind (mode : string) : ModeKind :=
  if (mode =? "xst")%string then NativeSynth
  else if (mode =? "yosys")%string then OpenSynth
  else if (mode =? "mist")%string then ExternalFlow
  else if (mode =? "edif")%string then PrecompiledNetlist
  else UnknownMode.

(** The design compiler of a mode: [platform.get_verilog] or
    [platform.get_edif]; none for a mode that [build] does not know. *)
Definition design_compiler {Fragment NS IOSignals : Type}
    (platform : Platform Fragment NS IOSignals) (k : ModeKind)
  : option (Fragment -> result (Output NS)) :=
  match k with
  | NativeSynth | OpenSynth => Some (get_verilog platform)
  | ExternalFlow | PrecompiledNetlist => Some (get_edif platform)
  | UnknownMode => None
  end.

(** What the [try] block hands to [_run_ise], by mode: the mode of the
    pipeline and the options of the translate stage. *)
Definition pipeline_input (k : ModeKind) (ngdbuild_opt device : string)
  : option (string * string) :=
  match k with
  | NativeSynth => Some ("xst", ngdbuild_opt)
  | OpenSynth => Some ("edif", ngdbuild_opt ++ "-p " ++ device)
  | ExternalFlow | PrecompiledNetlist => Some ("edif", ngdbuild_opt)
  | UnknownMode => None
  end.

(** The fragment of the [fragment] argument. *)
Definition fragment_of {Fragment : Type} (d : Design Fragment) : result Fragment :=
  match d with
  | IsFragment f => inr f
  | HasGetFragment get_fragment => get_fragment
  end.

(** The defaults of [toolchain_path] and [source]. *)
Definition toolchain_path_of (h : Host) (toolchain_path : option string) : string :=
  match toolchain_path with
  | Some p => p
  | None =>
      if (sys_platform h =? "win32")%string then "C:\Xilinx"
      else if (sys_platform h =? "cygwin")%string then "/cygdrive/c/Xilinx"
      else "/opt/Xilinx"
  end.

Definition source_of (h : Host) (source : option bool) : bool :=
  match source with
  | Some b => b
  | None => negb (sys_platform h =? "win32")%string
  end.

(** The local variables on entry of the [try] block. *)
Definition initial_locals (NS : Type) (self : XilinxISEToolchain) : Locals NS :=
  {| vns := None; named := None; isemode := None;
     l_ngdbuild_opt := ngdbuild_opt self |}.

(** The [try] block in two parts: up to the design compiler's output, and
    from the constraint file on. *)
Definition build_prefix (Fragment NS IOSignals : Type) (h : Host)
    (mist : result (Fragment -> IOSignals -> result unit))
    (platform : Platform Fragment NS IOSignals) (fragment : Fragment)
    (build_name mode : string) (l : Locals NS) : M (Locals NS) :=
  l1 <- verilog_step Fragment NS IOSignals h platform fragment build_name mode l ;;
  mist_step Fragment NS IOSignals mist platform fragment mode ;;;
  edif_step Fragment NS IOSignals platform fragment build_name mode l1.

Definition build_tail (NS : Type) (h : Host) (build_name toolchain_path : string)
    (source run : bool) (l : Locals NS) : M (Locals NS) :=
  ucf_step NS h build_name l ;;;
  run_step NS h build_name toolchain_path source run l ;;;
  ret l.

(** Every effect of a statement is one of [E]. *)
Definition only (E : event -> Prop) {A} (m : M A) : Prop :=
  forall w, exists new,
    trace (snd (m w)) = (trace w ++ new)%list /\ Forall E new.

(** The effects of a [build] with [run=False]: no build script, and no
    process but the open synthesizer in its mode. *)
Definition dry_effect (mode build_name : string) (e : event) : Prop :=
  match e with
  | WriteFile _ _ (Some false) => False
  | Call argv _ => mode = "yosys" /\ argv = ["yosys"; build_name ++ ".ys"]
  | _ => True
  end.

(* ================================================================== *)
(** * Strings *)
(* ================================================================== *)

Lemma str_app_assoc (a b c : string) : (a ++ b) ++ c = a ++ (b ++ c).
Proof. induction a as [|x a IH]; simpl; [reflexivity | now rewrite IH]. Qed.

Lemma str_app_nil_r (a : string) : a ++ "" = a.
Proof. induction a as [|x a IH]; simpl; [reflexivity | now rewrite IH]. Qed.

Lemma concat_lines_app (l1 l2 : list string) :
  concat_lines (l1 ++ l2) = concat_lines l1 ++ concat_lines l2.
Proof.
  induction l1 as [|x l1 IH]; simpl; [reflexivity|].
  now rewrite IH, str_app_assoc.
Qed.

(* ================================================================== *)
(** * The constraint-file builder *)
(* ================================================================== *)

Section ConstraintFileFacts.

Variable P : string -> list string.

Lemma enumerate_loop_spec sig others resname pins :
  forall i r out,
    enumerate_loop P sig i pins others resname r = inr out <->
    exists lines,
      length lines = length pins /\
      (forall k p, nth_error pins k = Some p ->
         exists line, nth_error lines k = Some line /\
           _format_ucf P (net_name sig (i + k)) p others resname = inr line) /\
      out = r ++ concat_lines lines.
Proof.
  induction pins as [|p pins' IH]; intros i r out; cbn [enumerate_loop].
  - split.
    + intros H. injection H as <-. exists []. repeat split.
      * intros [|k] q Hq; discriminate Hq.
      * simpl. now rewrite str_app_nil_r.
    + intros (lines & Hlen & _ & ->).
      destruct lines; [|discriminate Hlen]. simpl. now rewrite str_app_nil_r.
  - fold (net_name sig i).
    destruct (_format_ucf P (net_name sig i) p others resname) as [e|line] eqn:Hfmt;
      cbn [rbind].
    + split; [discriminate|].
      intros (lines & _ & Hnth & _).
      destruct (Hnth 0 p eq_refl) as (line & _ & Hl).
      rewrite Nat.add_0_r in Hl. congruence.
    + rewrite IH. split.
      * intros (lines & Hlen & Hnth & ->).
        exists (line :: lines). repeat split.
        -- simpl. now rewrite Hlen.
        -- intros [|k] q Hq; simpl in Hq.
           ++ injection Hq as <-. exists line. rewrite Nat.add_0_r. now split.
           ++ destruct (Hnth k q Hq) as (l & Hl1 & Hl2). exists l.
              rewrite Nat.add_succ_r. now split.
        -- simpl. now rewrite str_app_assoc.
      * intros (lines & Hlen & Hnth & ->).
        destruct lines as [|l0 lines]; [discriminate Hlen|].
        destruct (Hnth 0 p eq_refl) as (l & Hl1 & Hl2).
        simpl in Hl1. injection Hl1 as ->. rewrite Nat.add_0_r in Hl2.
        assert (l = line) as -> by congruence.
        exists lines. repeat split.
        -- simpl in Hlen. lia.
        -- intros k q Hq. destruct (Hnth (S k) q Hq) as (l' & Hl1' & Hl2').
           exists l'. rewrite Nat.add_succ_r in Hl2'. now split.
        -- simpl. now rewrite str_app_assoc.
Qed.

Lemma build_ucf_step_spec r sc out :
  build_ucf_step P r sc = inr out <->
  exists lines, emitted_lines P sc lines /\ out = r ++ concat_lines lines.
Proof.
  destruct sc as [[[sig pins] others] resname]. unfold build_ucf_step, emitted_lines.
  destruct (Nat.ltb_spec 1 (length pins)) as [Hlt|Hle].
  - rewrite enumerate_loop_spec. split.
    + intros (lines & Hlen & Hnth & ->). exists lines. split; [|reflexivity].
      split; [exact Hlen|]. left. split; [exact Hlt|]. exact Hnth.
    + intros (lines & (Hlen & [[_ Hnth]|(p & line & -> & _)]) & ->).
      * exists lines. now repeat split.
      * simpl in Hlt. lia.
  - destruct pins as [|p0 [|p1 rest]]; simpl in Hle; [| |lia].
    + split; [discriminate|].
      intros (lines & (_ & [[Hlt _]|(p & line & Hp & _)]) & _).
      * simpl in Hlt. lia.
      * discriminate Hp.
    + destruct (_format_ucf P sig p0 others resname) as [e|line] eqn:Hfmt; simpl.
      * split; [discriminate|].
        intros (lines & (_ & [[Hlt _]|(p & l & Hp & _ & Hl)]) & _).
        -- simpl in Hlt. lia.
        -- injection Hp as <-. congruence.
      * split.
        -- intros H. injection H as <-. exists [line]. split.
           ++ split; [reflexivity|]. right. now exists p0, line.
           ++ simpl. now rewrite str_app_nil_r.
        -- intros (lines & (_ & [[Hlt _]|(p & l & Hp & -> & Hl)]) & ->).
           ++ simpl in Hlt. lia.
           ++ injection Hp as <-. assert (l = line) as -> by congruence.
              simpl. now rewrite str_app_nil_r.
Qed.

Lemma build_ucf_loop_spec named_sc :
  forall r out,
    build_ucf_loop P named_sc r = inr out <->
    exists blocks,
      Forall2 (emitted_lines P) named_sc blocks /\
      out = r ++ concat_lines (concat blocks).
Proof.
  induction named_sc as [|sc rest IH]; intros r out; simpl.
  - split.
    + intros H. injection H as <-. exists []. split; [constructor|].
      simpl. now rewrite str_app_nil_r.
    + intros (blocks & HF & ->). inversion HF; subst. simpl.
      now rewrite str_app_nil_r.
  - destruct (build_ucf_step P r sc) as [e|r'] eqn:Hstep; simpl.
    + split; [discriminate|].
      intros (blocks & HF & _). inversion HF as [|? b ? bs Hb HF']; subst.
      assert (Hex : exists o, build_ucf_step P r sc = inr o).
      { exists (r ++ concat_lines b). apply build_ucf_step_spec. now exists b. }
      destruct Hex as [o Ho]. congruence.
    + apply build_ucf_step_spec in Hstep. destruct Hstep as (b & Hb & ->).
      rewrite IH. split.
      * intros (blocks & HF & ->). exists (b :: blocks). split.
        -- now constructor.
        -- simpl. now rewrite concat_lines_app, str_app_assoc.
      * intros (blocks & HF & ->).
        inversion HF as [|? b' ? bs Hb' HF']; subst.
        assert (Heq : r ++ concat_lines b = r ++ concat_lines b').
        { assert (H1 : build_ucf_step P r sc = inr (r ++ concat_lines b))
            by (apply build_ucf_step_spec; now exists b).
          assert (H2 : build_ucf_step P r sc = inr (r ++ concat_lines b'))
            by (apply build_ucf_step_spec; now exists b').
          congruence. }
        exists bs. split; [exact HF'|].
        simpl. rewrite concat_lines_app, <- str_app_assoc, <- Heq.
        now rewrite str_app_assoc.
Qed.

(** The builder in terms of [_format_ucf]: it succeeds with text [out]
    exactly when every named signal constraint has its lines and [out] is
    those lines in order followed by the platform commands. *)
Lemma build_ucf_blocks named_sc named_pc out :
  _build_ucf P named_sc named_pc = inr out <->
  exists blocks,
    Forall2 (emitted_lines P) named_sc blocks /\
    out = concat_lines (concat blocks) ++ platform_commands named_pc.
Proof.
  unfold _build_ucf.
  destruct (build_ucf_loop P named_sc "") as [e|r] eqn:Hloop; simpl.
  - split; [discriminate|].
    intros (blocks & HF & _).
    assert (H : build_ucf_loop P named_sc "" = inr ("" ++ concat_lines (concat blocks)))
      by (apply build_ucf_loop_spec; now exists blocks).
    congruence.
  - apply build_ucf_loop_spec in Hloop. destruct Hloop as (blocks & HF & ->).
    simpl. split.
    + intros H. exists blocks. split; [exact HF|].
      destruct named_pc; injection H as <-; simpl;
        [now rewrite str_app_nil_r | reflexivity].
    + intros (blocks' & HF' & ->).
      assert (Heq : concat_lines (concat blocks) = concat_lines (concat blocks')).
      { assert (H1 : build_ucf_loop P named_sc "" = inr ("" ++ concat_lines (concat blocks)))
          by (apply build_ucf_loop_spec; now exists blocks).
        assert (H2 : build_ucf_loop P named_sc "" = inr ("" ++ concat_lines (concat blocks')))
          by (apply build_ucf_loop_spec; now exists blocks').
        simpl in H1, H2. congruence. }
      rewrite <- Heq. destruct named_pc; simpl;
        [now rewrite str_app_nil_r | reflexivity].
Qed.

Lemma format_loop_tokens cs :
  forall acc,
    format_loop cs acc = (ts <- tokens_of cs ;; inr (acc ++ ts)%list)%result.
Proof.
  induction cs as [|c cs IH]; intros acc; simpl.
  - now rewrite app_nil_r.
  - destruct (_format_constraint c) as [e|[t|]]; simpl; [reflexivity| |].
    + rewrite IH. destruct (tokens_of cs); simpl; [reflexivity|].
      now rewrite <- app_assoc.
    + rewrite IH. now destruct (tokens_of cs).
Qed.

Lemma format_ucf_tokens signame pin others resname :
  _format_ucf P signame pin others resname =
  (ts <- tokens_of (Pins (P pin) :: others) ;;
   inr ("NET " ++ dquote ++ signame ++ dquote ++ " " ++ join " | " ts
        ++ "; # " ++ format_resname resname ++ nl))%result.
Proof.
  unfold _format_ucf. rewrite format_loop_tokens.
  now destruct (tokens_of (Pins (P pin) :: others)).
Qed.

(** [_format_ucf] returns a line exactly when the placement has a first
    identifier and the other constraints have their tokens; the line is
    then the text made of them. *)
Lemma format_ucf_placed_line net p others resname line :
  _format_ucf P net p others resname = inr line <->
  placed_line P net p others resname line.
Proof.
  rewrite format_ucf_tokens. unfold placed_line. cbn [tokens_of].
  destruct (P p) as [|id rest]; cbn [_format_constraint rbind].
  - split; [discriminate|]. intros (id & rest & otoks & H & _). discriminate H.
  - destruct (tokens_of others) as [e|otoks]; cbn [rbind].
    + split; [discriminate|]. intros (id' & rest' & otoks & _ & H & _).
      discriminate H.
    + split.
      * intros H. injection H as <-. now exists id, rest, otoks.
      * intros (id' & rest' & otoks' & Hid & Ho & ->).
        injection Hid as <- _. injection Ho as <-. reflexivity.
Qed.

Lemma emitted_lines_texts sc lines :
  emitted_lines P sc lines <-> line_texts P sc lines.
Proof.
  destruct sc as [[[sig pins] others] resname]. unfold emitted_lines, line_texts.
  split.
  - intros [Hlen [[Hlt Hnth]|(p & line & Hp & Hl & Hf)]]; (split; [exact Hlen|]).
    + left. split; [exact Hlt|]. intros i q Hq.
      destruct (Hnth i q Hq) as (line & Hline & Hf). exists line.
      split; [exact Hline|]. now apply format_ucf_placed_line in Hf.
    + right. exists p, line. repeat split; try assumption.
      now apply format_ucf_placed_line.
  - intros [Hlen [[Hlt Hnth]|(p & line & Hp & Hl & Hf)]]; (split; [exact Hlen|]).
    + left. split; [exact Hlt|]. intros i q Hq.
      destruct (Hnth i q Hq) as (line & Hline & Hf). exists line.
      split; [exact Hline|]. now apply format_ucf_placed_line.
    + right. exists p, line. repeat split; try assumption.
      now apply format_ucf_placed_line.
Qed.

Lemma Forall2_emitted_lines_texts named_sc blocks :
  Forall2 (emitted_lines P) named_sc blocks <->
  Forall2 (line_texts P) named_sc blocks.
Proof.
  split; intros HF; induction HF; constructor; try assumption;
    now apply emitted_lines_texts.
Qed.

(** C1. The constraint-file builder succeeds with text [out] exactly when
    every named signal constraint has its lines and [out] is the text of
    those lines in order followed by the platform commands. A constraint
    with N > 1 pins has exactly N lines, line i being
    [NET "<sig>(<i>)" LOC=<first identifier of pin i> | <other tokens>; # <resource>]
    with i in decimal; a constraint with one pin has exactly one line,
    [NET "<sig>" LOC=<first identifier of the pin> | <other tokens>; # <resource>]. *)
Theorem build_ucf_emits_one_line_per_pin named_sc named_pc out :
  _build_ucf P named_sc named_pc = inr out <->
  exists blocks,
    Forall2 (line_texts P) named_sc blocks /\
    out = concat_lines (concat blocks) ++ platform_commands named_pc.
Proof.
  rewrite build_ucf_blocks.
  split; intros (blocks & HF & Hout); exists blocks; (split; [|exact Hout]);
    now apply Forall2_emitted_lines_texts.
Qed.

(** C2. A constraint line is [NET "<net>" <tokens>; # <resource>] where
    the tokens are the placement token followed by the tokens of the other
    constraints in their order, joined by [" | "]; the placement token is
    [LOC=] followed by the first identifier, whatever identifiers follow. *)
Theorem format_ucf_token_order signame pin others resname id rest otoks :
  P pin = id :: rest ->
  tokens_of others = inr otoks ->
  (forall more, _format_constraint (Pins (id :: more)) = inr (Some ("LOC=" ++ id))) /\
  _format_ucf P signame pin others resname =
    inr ("NET " ++ dquote ++ signame ++ dquote ++ " "
         ++ join " | " (("LOC=" ++ id) :: otoks)
         ++ "; # " ++ format_resname resname ++ nl).
Proof.
  intros HP Hothers. split; [reflexivity|].
  rewrite format_ucf_tokens. cbn [tokens_of _format_constraint].
  rewrite HP, Hothers. reflexivity.
Qed.

Lemma tokens_of_app cs1 cs2 :
  tokens_of (cs1 ++ cs2) =
  (t1 <- tokens_of cs1 ;; t2 <- tokens_of cs2 ;; inr (t1 ++ t2)%list)%result.
Proof.
  induction cs1 as [|c cs1 IH]; simpl.
  - now destruct (tokens_of cs2).
  - destruct (_format_constraint c) as [e|t]; simpl; [reflexivity|].
    rewrite IH. destruct (tokens_of cs1); simpl; [reflexivity|].
    destruct (tokens_of cs2); simpl; [reflexivity|].
    now destruct t.
Qed.

Lemma tokens_of_skip cls o1 o2 :
  tokens_of (o1 ++ OtherObject cls :: o2) = tokens_of (o1 ++ o2).
Proof.
  rewrite !tokens_of_app. cbn [tokens_of _format_constraint rbind].
  destruct (tokens_of o1); simpl; [reflexivity|].
  now destruct (tokens_of o2).
Qed.

Lemma format_ucf_skip cls signame pin o1 o2 resname :
  _format_ucf P signame pin (o1 ++ OtherObject cls :: o2) resname =
  _format_ucf P signame pin (o1 ++ o2) resname.
Proof.
  rewrite !format_ucf_tokens.
  change (Pins (P pin) :: o1 ++ OtherObject cls :: o2)
    with ((Pins (P pin) :: o1) ++ OtherObject cls :: o2)%list.
  now rewrite tokens_of_skip.
Qed.

Lemma enumerate_loop_ext sig others others' resname pins :
  (forall n p, _format_ucf P n p others resname = _format_ucf P n p others' resname) ->
  forall i r,
    enumerate_loop P sig i pins others resname r =
    enumerate_loop P sig i pins others' resname r.
Proof.
  intros Hext. induction pins as [|p pins IH]; intros i r; cbn [enumerate_loop].
  - reflexivity.
  - rewrite Hext. destruct (_format_ucf P _ p others' resname); cbn [rbind];
      [reflexivity | apply IH].
Qed.

Lemma build_ucf_step_ext sig pins others others' resname r :
  (forall n p, _format_ucf P n p others resname = _format_ucf P n p others' resname) ->
  build_ucf_step P r (sig, pins, others, resname) =
  build_ucf_step P r (sig, pins, others', resname).
Proof.
  intros Hext. unfold build_ucf_step.
  rewrite (enumerate_loop_ext sig others others' resname pins Hext).
  destruct pins as [|p0 ?]; [reflexivity|]. now rewrite Hext.
Qed.

Lemma build_ucf_loop_ext pre sc sc' post :
  (forall r, build_ucf_step P r sc = build_ucf_step P r sc') ->
  forall r,
    build_ucf_loop P (pre ++ sc :: post) r =
    build_ucf_loop P (pre ++ sc' :: post) r.
Proof.
  intros Hext. induction pre as [|x pre IH]; intros r; simpl.
  - now rewrite Hext.
  - destruct (build_ucf_step P r x); simpl; [reflexivity | apply IH].
Qed.

(** C8. A constraint of no recognized class formats to no token and
    raises nothing; a line, and the whole constraint file, is what it is
    without that constraint; with it as the only other constraint the
    line is emitted with the placement token alone. *)
Theorem unrecognized_constraint_gives_no_token cls :
  _format_constraint (OtherObject cls) = inr None /\
  (forall signame pin o1 o2 resname,
     _format_ucf P signame pin (o1 ++ OtherObject cls :: o2) resname =
     _format_ucf P signame pin (o1 ++ o2) resname) /\
  (forall pre sig pins o1 o2 resname post named_pc,
     _build_ucf P (pre ++ (sig, pins, o1 ++ OtherObject cls :: o2, resname) :: post)%list
       named_pc =
     _build_ucf P (pre ++ (sig, pins, o1 ++ o2, resname) :: post)%list named_pc) /\
  (forall signame pin resname id rest,
     P pin = id :: rest ->
     _format_ucf P signame pin [OtherObject cls] resname =
       inr ("NET " ++ dquote ++ signame ++ dquote ++ " " ++ "LOC=" ++ id
            ++ "; # " ++ format_resname resname ++ nl)).
Proof.
  split; [reflexivity|]. split; [|split].
  - intros. apply format_ucf_skip.
  - intros. unfold _build_ucf. rewrite build_ucf_loop_ext with
      (sc' := (sig, pins, (o1 ++ o2)%list, resname)); [reflexivity|].
    intros r. apply build_ucf_step_ext. intros. apply format_ucf_skip.
  - intros signame pin resname id rest HP.
    rewrite format_ucf_tokens. cbn [tokens_of _format_constraint rbind].
    rewrite HP. reflexivity.
Qed.

Lemma tokens_of_result cs :
  (forallb placement_ok cs = true -> exists ts, tokens_of cs = inr ts) /\
  (forallb placement_ok cs = false -> tokens_of cs = inl IndexError).
Proof.
  induction cs as [|c cs [IHok IHbad]]; simpl.
  - split; [now exists [] | discriminate].
  - destruct c as [[|id ids]| | | |]; simpl;
      try (split; [discriminate | reflexivity]);
      (split; intros H;
       [ destruct (IHok H) as [ts ->]; simpl; eauto
       | now rewrite (IHbad H) ]).
Qed.

Lemma format_ucf_result signame pin others resname :
  (nonempty (P pin) && forallb placement_ok others = true ->
   exists line, _format_ucf P signame pin others resname = inr line) /\
  (nonempty (P pin) && forallb placement_ok others = false ->
   _format_ucf P signame pin others resname = inl IndexError).
Proof.
  rewrite format_ucf_tokens. cbn [tokens_of _format_constraint].
  destruct (tokens_of_result others) as [Hok Hbad].
  destruct (P pin) as [|id ids]; simpl.
  - split; [discriminate | reflexivity].
  - split; intros H.
    + destruct (Hok H) as [ts ->]. simpl. eauto.
    + now rewrite (Hbad H).
Qed.

Lemma enumerate_loop_result sig others resname pins :
  forall i r,
    (forallb (fun p => nonempty (P p)) pins && forallb placement_ok others = true ->
     exists out, enumerate_loop P sig i pins others resname r = inr out) /\
    (pins <> [] ->
     forallb (fun p => nonempty (P p)) pins && forallb placement_ok others = false ->
     enumerate_loop P sig i pins others resname r = inl IndexError).
Proof.
  induction pins as [|p pins IH]; intros i r; cbn [enumerate_loop forallb].
  - split; [eauto | congruence].
  - destruct (format_ucf_result (sig ++ "(" ++ str_nat i ++ ")") p others resname)
      as [Hok Hbad].
    destruct (nonempty (P p)) eqn:Hp; cbn [andb] in *.
    + destruct (forallb placement_ok others) eqn:Ho.
      * destruct (Hok eq_refl) as [line ->]. cbn [rbind].
        destruct (IH (S i) (r ++ line)) as [IHok IHbad]. split.
        -- exact IHok.
        -- intros _ H. apply IHbad; [|exact H].
           intros ->. simpl in H. discriminate H.
      * rewrite andb_false_r in *. rewrite (Hbad eq_refl).
        split; [discriminate | reflexivity].
    + rewrite (Hbad eq_refl). split; [discriminate | reflexivity].
Qed.

Lemma build_ucf_step_result r sc :
  (sc_ok P sc = true -> exists out, build_ucf_step P r sc = inr out) /\
  (sc_ok P sc = false -> build_ucf_step P r sc = inl IndexError).
Proof.
  destruct sc as [[[sig pins] others] resname].
  unfold sc_ok, build_ucf_step, sc_pins, sc_others.
  destruct pins as [|p0 [|p1 rest]].
  - simpl. split; [discriminate | reflexivity].
  - change ((1 <? length [p0])%nat) with false. cbv iota.
    cbn [nonempty forallb andb]. rewrite andb_true_r.
    destruct (format_ucf_result sig p0 others resname) as [Hok Hbad].
    split; intros H.
    + destruct (Hok H) as [line ->]. simpl. eauto.
    + now rewrite (Hbad H).
  - change ((1 <? length (p0 :: p1 :: rest))%nat) with true. cbv iota.
    cbn [nonempty andb].
    destruct (enumerate_loop_result sig others resname (p0 :: p1 :: rest) 0 r)
      as [Hok Hbad].
    split; [exact Hok | apply Hbad; discriminate].
Qed.

Lemma build_ucf_loop_result named_sc :
  forall r,
    (forallb (sc_ok P) named_sc = true ->
     exists out, build_ucf_loop P named_sc r = inr out) /\
    (forallb (sc_ok P) named_sc = false ->
     build_ucf_loop P named_sc r = inl IndexError).
Proof.
  induction named_sc as [|sc rest IH]; intros r; simpl.
  - split; [eauto | discriminate].
  - destruct (build_ucf_step_result r sc) as [Hok Hbad].
    destruct (sc_ok P sc); cbn [andb].
    + destruct (Hok eq_refl) as [r' ->]. simpl. apply IH.
    + rewrite (Hbad eq_refl). split; [discriminate | reflexivity].
Qed.

Lemma empty_pins_not_ok named_sc :
  (exists sc, In sc named_sc /\ sc_pins sc = []) ->
  forallb (sc_ok P) named_sc = false.
Proof.
  intros (sc & Hin & Hpins).
  destruct (forallb (sc_ok P) named_sc) eqn:Hall; [|reflexivity].
  rewrite forallb_forall in Hall. specialize (Hall sc Hin).
  unfold sc_ok in Hall. rewrite Hpins in Hall. discriminate Hall.
Qed.

(** C9, as the code has it. The builder raises [IndexError] whenever some
    named signal constraint has no pin. It returns a text when every
    named signal constraint has a pin and every placement it formats (the
    one built from each pin, and each placement among the other
    constraints) has an identifier; otherwise it raises [IndexError]. *)
Theorem build_ucf_index_error named_sc named_pc :
  ((exists sc, In sc named_sc /\ sc_pins sc = []) ->
   _build_ucf P named_sc named_pc = inl IndexError) /\
  (forallb (sc_ok P) named_sc = true ->
   exists out, _build_ucf P named_sc named_pc = inr out) /\
  (forallb (sc_ok P) named_sc = false ->
   _build_ucf P named_sc named_pc = inl IndexError).
Proof.
  unfold _build_ucf.
  destruct (build_ucf_loop_result named_sc "") as [Hok Hbad].
  split; [|split].
  - intros H. now rewrite (Hbad (empty_pins_not_ok named_sc H)).
  - intros H. destruct (Hok H) as [r ->]. simpl. destruct named_pc; eauto.
  - intros H. now rewrite (Hbad H).
Qed.

End ConstraintFileFacts.

(** The scenario of the spec: a one-bit signal and a two-bit signal. *)
Example build_ucf_scenario :
  _build_ucf Pins_of_pin
    [("clk", ["P17"], [IOStandard "LVCMOS33"], ("cmp", 0%Z, None));
     ("led", ["A1"; "A2"], [], ("cmp", 0%Z, Some "leds"))] []
  = inr ("NET " ++ dquote ++ "clk" ++ dquote
         ++ " LOC=P17 | IOSTANDARD=LVCMOS33; # cmp:0" ++ nl
         ++ "NET " ++ dquote ++ "led(0)" ++ dquote ++ " LOC=A1; # cmp:0.leds" ++ nl
         ++ "NET " ++ dquote ++ "led(1)" ++ dquote ++ " LOC=A2; # cmp:0.leds" ++ nl).
Proof. reflexivity. Qed.

(** A clock on one pin and an eleven-bit bus: the bare name for the
    clock, and [data(0)] to [data(10)] on the pins of the bus in order. *)
Lemma build_ucf_emits_one_line_per_pin_witness :
  _build_ucf Pins_of_pin
    [("clk", ["P17"], [], ("clk", 0%Z, None));
     ("data", ["P0"; "P1"; "P2"; "P3"; "P4"; "P5"; "P6"; "P7"; "P8"; "P9"; "P10"],
      [IOStandard "LVCMOS33"], ("bus", 2%Z, Some "d"))] []
  = inr (concat_lines
           ["NET " ++ dquote ++ "clk" ++ dquote ++ " LOC=P17; # clk:0" ++ nl;
            "NET " ++ dquote ++ "data(0)" ++ dquote ++ " LOC=P0 | IOSTANDARD=LVCMOS33; # bus:2.d" ++ nl;
            "NET " ++ dquote ++ "data(1)" ++ dquote ++ " LOC=P1 | IOSTANDARD=LVCMOS33; # bus:2.d" ++ nl;
            "NET " ++ dquote ++ "data(2)" ++ dquote ++ " LOC=P2 | IOSTANDARD=LVCMOS33; # bus:2.d" ++ nl;
            "NET " ++ dquote ++ "data(3)" ++ dquote ++ " LOC=P3 | IOSTANDARD=LVCMOS33; # bus:2.d" ++ nl;
            "NET " ++ dquote ++ "data(4)" ++ dquote ++ " LOC=P4 | IOSTANDARD=LVCMOS33; # bus:2.d" ++ nl;
            "NET " ++ dquote ++ "data(5)" ++ dquote ++ " LOC=P5 | IOSTANDARD=LVCMOS33; # bus:2.d" ++ nl;
            "NET " ++ dquote ++ "data(6)" ++ dquote ++ " LOC=P6 | IOSTANDARD=LVCMOS33; # bus:2.d" ++ nl;
            "NET " ++ dquote ++ "data(7)" ++ dquote ++ " LOC=P7 | IOSTANDARD=LVCMOS33; # bus:2.d" ++ nl;
            "NET " ++ dquote ++ "data(8)" ++ dquote ++ " LOC=P8 | IOSTANDARD=LVCMOS33; # bus:2.d" ++ nl;
            "NET " ++ dquote ++ "data(9)" ++ dquote ++ " LOC=P9 | IOSTANDARD=LVCMOS33; # bus:2.d" ++ nl;
            "NET " ++ dquote ++ "data(10)" ++ dquote ++ " LOC=P10 | IOSTANDARD=LVCMOS33; # bus:2.d" ++ nl]).
Proof.
  apply (proj2 (build_ucf_emits_one_line_per_pin Pins_of_pin
                  [("clk", ["P17"], [], ("clk", 0%Z, None));
                   ("data", ["P0"; "P1"; "P2"; "P3"; "P4"; "P5"; "P6"; "P7"; "P8"; "P9"; "P10"],
                    [IOStandard "LVCMOS33"], ("bus", 2%Z, Some "d"))] [] _)).
  exists [["NET " ++ dquote ++ "clk" ++ dquote ++ " LOC=P17; # clk:0" ++ nl];
          ["NET " ++ dquote ++ "data(0)" ++ dquote ++ " LOC=P0 | IOSTANDARD=LVCMOS33; # bus:2.d" ++ nl;
           "NET " ++ dquote ++ "data(1)" ++ dquote ++ " LOC=P1 | IOSTANDARD=LVCMOS33; # bus:2.d" ++ nl;
           "NET " ++ dquote ++ "data(2)" ++ dquote ++ " LOC=P2 | IOSTANDARD=LVCMOS33; # bus:2.d" ++ nl;
           "NET " ++ dquote ++ "data(3)" ++ dquote ++ " LOC=P3 | IOSTANDARD=LVCMOS33; # bus:2.d" ++ nl;
           "NET " ++ dquote ++ "data(4)" ++ dquote ++ " LOC=P4 | IOSTANDARD=LVCMOS33; # bus:2.d" ++ nl;
           "NET " ++ dquote ++ "data(5)" ++ dquote ++ " LOC=P5 | IOSTANDARD=LVCMOS33; # bus:2.d" ++ nl;
           "NET " ++ dquote ++ "data(6)" ++ dquote ++ " LOC=P6 | IOSTANDARD=LVCMOS33; # bus:2.d" ++ nl;
           "NET " ++ dquote ++ "data(7)" ++ dquote ++ " LOC=P7 | IOSTANDARD=LVCMOS33; # bus:2.d" ++ nl;
           "NET " ++ dquote ++ "data(8)" ++ dquote ++ " LOC=P8 | IOSTANDARD=LVCMOS33; # bus:2.d" ++ nl;
           "NET " ++ dquote ++ "data(9)" ++ dquote ++ " LOC=P9 | IOSTANDARD=LVCMOS33; # bus:2.d" ++ nl;
           "NET " ++ dquote ++ "data(10)" ++ dquote ++ " LOC=P10 | IOSTANDARD=LVCMOS33; # bus:2.d" ++ nl]].
  split; [|reflexivity].
  constructor; [|constructor; [|constructor]].
  - split; [reflexivity|]. right. eexists; eexists.
    split; [reflexivity|]. split; [reflexivity|].
    exists "P17", [], []. repeat split.
  - split; [reflexivity|]. left. split; [simpl; lia|].
    intros i p Hp.
    do 11 (destruct i as [|i];
           [injection Hp as <-; eexists; split; [reflexivity|];
            eexists; exists [], ["IOSTANDARD=LVCMOS33"]; repeat split|]).
    destruct i; discriminate Hp.
Defined.

Lemma format_ucf_token_order_witness :
  _format_ucf Pins_of_pin "clk" "P17" [IOStandard "LVCMOS33"; Drive 12]
    ("cmp", 0%Z, None)
  = inr ("NET " ++ dquote ++ "clk" ++ dquote ++ " "
         ++ "LOC=P17 | IOSTANDARD=LVCMOS33 | DRIVE=12"
         ++ "; # cmp:0" ++ nl).
Proof.
  apply (format_ucf_token_order Pins_of_pin "clk" "P17"
           [IOStandard "LVCMOS33"; Drive 12] ("cmp", 0%Z, None)
           "P17" [] ["IOSTANDARD=LVCMOS33"; "DRIVE=12"]); reflexivity.
Defined.

Lemma unrecognized_constraint_gives_no_token_witness :
  _format_ucf Pins_of_pin "clk" "P17" [OtherObject "PlatformInfo"]
    ("cmp", 0%Z, None)
  = inr ("NET " ++ dquote ++ "clk" ++ dquote ++ " LOC=P17; # cmp:0" ++ nl).
Proof.
  apply (proj2 (proj2 (proj2
           (unrecognized_constraint_gives_no_token Pins_of_pin "PlatformInfo")))
           "clk" "P17" ("cmp", 0%Z, None) "P17" []).
  reflexivity.
Defined.

(** Every named signal constraint has a pin, and the builder still
    raises [IndexError]: a placement without identifier sits among the
    other constraints. *)
Lemma nonempty_pins_yet_index_error :
  Forall (fun sc => sc_pins sc <> [])
    [("s", ["A1"], [Pins []], ("r", 0%Z, None))] /\
  _build_ucf Pins_of_pin [("s", ["A1"], [Pins []], ("r", 0%Z, None))] []
  = inl IndexError.
Proof.
  split; [|reflexivity].
  constructor; [|constructor]. simpl. discriminate.
Qed.

Lemma build_ucf_index_error_witness :
  _build_ucf Pins_of_pin [("s", [], [], ("r", 0%Z, None))] [] = inl IndexError /\
  (exists out,
     _build_ucf Pins_of_pin
       [("clk", ["P17"], [IOStandard "LVCMOS33"], ("cmp", 0%Z, None))] []
     = inr out) /\
  _build_ucf Pins_of_pin [("s", ["A1"], [Pins []], ("r", 0%Z, None))] []
  = inl IndexError.
Proof.
  split; [|split].
  - apply (proj1 (build_ucf_index_error Pins_of_pin
             [("s", [], [], ("r", 0%Z, None))] [])).
    exists ("s", [], [], ("r", 0%Z, None)). split; [now left | reflexivity].
  - apply (proj1 (proj2 (build_ucf_index_error Pins_of_pin
             [("clk", ["P17"], [IOStandard "LVCMOS33"], ("cmp", 0%Z, None))] []))).
    reflexivity.
  - apply (proj2 (proj2 (build_ucf_index_error Pins_of_pin
             [("s", ["A1"], [Pins []], ("r", 0%Z, None))] []))).
    reflexivity.
Defined.

(* ================================================================== *)
(** * [str.format] with keyword arguments *)
(* ================================================================== *)

(** The interpreter's answers on small format strings. *)
Example format_positional :
  str_format "read_{}{} {}" ["verilog"; " -Iinc"; "top.v"] []
  = inr "read_verilog -Iinc top.v".
Proof. reflexivity. Qed.

Example format_keyword_and_escapes :
  str_format "{{{build_name}}}.bit" [] [("build_name", "top")] = inr "{top}.bit".
Proof. reflexivity. Qed.

Example format_missing_key :
  str_format "impact {batch}" [] [("build_name", "top")] = inl (KeyError "batch").
Proof. reflexivity. Qed.

Example format_lone_brace :
  str_format "echo }" [] [("build_name", "top")] = inl ValueError.
Proof. reflexivity. Qed.

Example format_no_positional :
  str_format "echo {}" [] [("build_name", "top")] = inl IndexError.
Proof. reflexivity. Qed.

Example format_mixed_numbering :
  str_format "{}{0}" ["a"; "b"] [] = inl ValueError.
Proof. reflexivity. Qed.

Lemma positional_nil i : positional [] i = inl IndexError.
Proof. reflexivity. Qed.

Lemma get_field_nil kw num name v num' :
  get_field [] kw num name = inr (v, num') ->
  num' = num /\ lookup_kw name kw = Some v.
Proof.
  unfold get_field. destruct name as [|c name'].
  - destruct num; rewrite ?positional_nil; discriminate.
  - destruct (all_digits (String c name')).
    + destruct num; try discriminate;
        destruct (PY_SSIZE_T_MAX <? int_of_digits 0 (String c name'))%N;
        rewrite ?positional_nil; discriminate.
    + destruct (lookup_kw (String c name') kw); [|discriminate].
      intros H. injection H as -> ->. now split.
Qed.

(** A template that renders, followed by more template: the rendering
    goes on where the first one stopped. By induction on a bound of the
    length, since an escaped brace takes two characters at once. *)
Lemma format_from_app_len kw b :
  forall n a, String.length a <= n ->
  forall num f a',
    format_from [] kw num f a = inr a' ->
    format_from [] kw num f (a ++ b) =
    (b' <- format_from [] kw num None b ;; inr (a' ++ b'))%result.
Proof.
  induction n as [|n IH]; intros a Hlen num f a' Ha.
  - destruct a; [|simpl in Hlen; lia].
    destruct f; simpl in Ha; [discriminate|]. injection Ha as <-.
    simpl. now destruct (format_from [] kw num None b).
  - destruct a as [|c s'].
    { destruct f; simpl in Ha; [discriminate|]. injection Ha as <-.
      simpl. now destruct (format_from [] kw num None b). }
    simpl in Hlen.
    destruct f as [name|].
    + cbn [format_from append] in *.
      destruct (c =? rbrace)%char.
      * destruct (get_field [] kw num name) as [e|[v num']] eqn:Hg; [discriminate|].
        cbn [rbind fst snd] in *.
        destruct (get_field_nil _ _ _ _ _ Hg) as [-> _].
        destruct (format_from [] kw num None s') as [e|r] eqn:Hr; [discriminate|].
        cbn [rbind] in Ha. injection Ha as <-.
        rewrite (IH s' ltac:(lia) num None r Hr).
        destruct (format_from [] kw num None b); cbn [rbind]; [reflexivity|].
        now rewrite str_app_assoc.
      * destruct (c =? lbrace)%char; [discriminate|].
        destruct (field_special c); [discriminate|].
        apply IH; [lia | exact Ha].
    + cbn [format_from append] in *.
      destruct (c =? lbrace)%char.
      * destruct s' as [|c' s'']; [discriminate|]. cbn [append].
        destruct (c' =? lbrace)%char.
        -- destruct (format_from [] kw num None s'') as [e|r] eqn:Hr; [discriminate|].
           cbn [rbind] in Ha. injection Ha as <-.
           simpl in Hlen.
           rewrite (IH s'' ltac:(lia) num None r Hr).
           now destruct (format_from [] kw num None b).
        -- change (String c' (s'' ++ b)) with (String c' s'' ++ b).
           apply IH; [lia | exact Ha].
      * destruct (c =? rbrace)%char.
        -- destruct s' as [|c' s'']; [discriminate|]. cbn [append].
           destruct (c' =? rbrace)%char; [|discriminate].
           destruct (format_from [] kw num None s'') as [e|r] eqn:Hr; [discriminate|].
           cbn [rbind] in Ha. injection Ha as <-.
           simpl in Hlen.
           rewrite (IH s'' ltac:(lia) num None r Hr).
           now destruct (format_from [] kw num None b).
        -- destruct (format_from [] kw num None s') as [e|r] eqn:Hr; [discriminate|].
           cbn [rbind] in Ha. injection Ha as <-.
           rewrite (IH s' ltac:(lia) num None r Hr).
           now destruct (format_from [] kw num None b).
Qed.

Lemma has_nl_snoc name c : has_nl (name ++ String c "") = has_nl name || is_nl c.
Proof.
  induction name as [|x name IH]; simpl.
  - now rewrite orb_false_r.
  - now rewrite IH, orb_assoc.
Qed.

Lemma all_digits_nl name : has_nl name = true -> all_digits name = false.
Proof.
  induction name as [|c name IH]; simpl; [discriminate|].
  intros H. apply orb_true_iff in H. destruct H as [H|H].
  - unfold is_nl in H. apply Ascii.eqb_eq in H. subst c. reflexivity.
  - rewrite (IH H). apply andb_false_r.
Qed.

Lemma lookup_kw_nl kw name :
  keys_without_nl kw = true -> has_nl name = true -> lookup_kw name kw = None.
Proof.
  intros Hkw Hname. induction kw as [|[k v] kw IH]; simpl; [reflexivity|].
  simpl in Hkw. apply andb_true_iff in Hkw. destruct Hkw as [Hk Hkw].
  destruct (String.eqb_spec k name) as [->|_].
  - rewrite Hname in Hk. discriminate Hk.
  - now apply IH.
Qed.

Lemma get_field_nl kw num name :
  keys_without_nl kw = true -> has_nl name = true ->
  exists e, get_field [] kw num name = inl e.
Proof.
  intros Hkw Hname. unfold get_field.
  destruct name as [|c name']; [discriminate Hname|].
  rewrite (all_digits_nl _ Hname), (lookup_kw_nl _ _ Hkw Hname). eauto.
Qed.

Lemma field_with_nl_fails kw b :
  keys_without_nl kw = true ->
  forall num name, has_nl name = true ->
    exists e, format_from [] kw num (Some name) b = inl e.
Proof.
  intros Hkw. induction b as [|c b IH]; intros num name Hname; cbn [format_from].
  - eauto.
  - destruct (c =? rbrace)%char.
    + destruct (get_field_nl kw num name Hkw Hname) as [e ->]. cbn [rbind]. eauto.
    + destruct (c =? lbrace)%char; [eauto|].
      destruct (field_special c); [eauto|].
      apply IH. rewrite has_nl_snoc, Hname. reflexivity.
Qed.

(** The converse across a newline: no field spans it, since no keyword
    holds a newline, so if the whole renders, each part does. *)
Lemma format_from_split_len kw b :
  keys_without_nl kw = true ->
  forall n a, String.length a <= n ->
  forall num f x,
    format_from [] kw num f ((a ++ nl) ++ b) = inr x ->
    exists a' b',
      format_from [] kw num f (a ++ nl) = inr a' /\
      format_from [] kw num None b = inr b' /\
      x = a' ++ b'.
Proof.
  intros Hkw.
  assert (Hbase : forall num f x,
            format_from [] kw num f (String "010" b) = inr x ->
            exists a' b',
              format_from [] kw num f nl = inr a' /\
              format_from [] kw num None b = inr b' /\ x = a' ++ b').
  { intros num f x Hx. destruct f as [name|].
    - cbn in Hx.
      destruct (field_with_nl_fails kw b Hkw num (name ++ String "010" "")) as [e He].
      { rewrite has_nl_snoc. apply orb_true_r. }
      rewrite He in Hx. discriminate Hx.
    - cbn in Hx. destruct (format_from [] kw num None b) as [e|r]; [discriminate|].
      cbn in Hx. injection Hx as <-. exists nl, r. now repeat split. }
  induction n as [|n IH]; intros a Hlen num f x Hx.
  - destruct a; [|simpl in Hlen; lia]. apply Hbase. exact Hx.
  - destruct a as [|c s']; [apply Hbase; exact Hx|].
    simpl in Hlen.
    destruct f as [name|].
    + cbn [format_from append] in *.
      destruct (c =? rbrace)%char.
      * destruct (get_field [] kw num name) as [e|[v num']] eqn:Hg; [discriminate|].
        cbn [rbind fst snd] in *.
        destruct (get_field_nil _ _ _ _ _ Hg) as [-> _].
        destruct (format_from [] kw num None ((s' ++ nl) ++ b)) as [e|r] eqn:Hr;
          [discriminate|].
        cbn [rbind] in Hx. injection Hx as <-.
        destruct (IH s' ltac:(lia) num None r Hr) as (a' & b' & Ha & Hb & ->).
        exists (v ++ a'), b'. rewrite Ha. cbn [rbind].
        repeat split; [exact Hb | now rewrite str_app_assoc].
      * destruct (c =? lbrace)%char; [discriminate|].
        destruct (field_special c); [discriminate|].
        apply IH; [lia | exact Hx].
    + cbn [format_from append] in *.
      destruct (c =? lbrace)%char.
      * destruct s' as [|c' s'']; cbn [append] in *.
        -- cbn in Hx.
           destruct (field_with_nl_fails kw b Hkw num nl eq_refl) as [e He].
           unfold nl in He. rewrite He in Hx. discriminate Hx.
        -- destruct (c' =? lbrace)%char.
           ++ destruct (format_from [] kw num None ((s'' ++ nl) ++ b)) as [e|r] eqn:Hr;
                [discriminate|].
              cbn [rbind] in Hx. injection Hx as <-. simpl in Hlen.
              destruct (IH s'' ltac:(lia) num None r Hr) as (a' & b' & Ha & Hb & ->).
              exists (String lbrace a'), b'. rewrite Ha. now repeat split.
           ++ change (String c' ((s'' ++ nl) ++ b)) with ((String c' s'' ++ nl) ++ b) in Hx.
              change (String c' (s'' ++ nl)) with (String c' s'' ++ nl).
              apply IH; [lia | exact Hx].
      * destruct (c =? rbrace)%char.
        -- destruct s' as [|c' s'']; cbn [append] in *.
           ++ cbn in Hx. discriminate Hx.
           ++ destruct (c' =? rbrace)%char; [|discriminate].
              destruct (format_from [] kw num None ((s'' ++ nl) ++ b)) as [e|r] eqn:Hr;
                [discriminate|].
              cbn [rbind] in Hx. injection Hx as <-. simpl in Hlen.
              destruct (IH s'' ltac:(lia) num None r Hr) as (a' & b' & Ha & Hb & ->).
              exists (String rbrace a'), b'. rewrite Ha. now repeat split.
        -- destruct (format_from [] kw num None ((s' ++ nl) ++ b)) as [e|r] eqn:Hr;
             [discriminate|].
           cbn [rbind] in Hx. injection Hx as <-.
           destruct (IH s' ltac:(lia) num None r Hr) as (a' & b' & Ha & Hb & ->).
           exists (String c a'), b'. rewrite Ha. now repeat split.
Qed.

Lemma format_app a b kw a' :
  str_format a [] kw = inr a' ->
  str_format (a ++ b) [] kw = (b' <- str_format b [] kw ;; inr (a' ++ b'))%result.
Proof.
  unfold str_format. intros H.
  apply (format_from_app_len kw b (String.length a) a (le_n _) NumUnset None a' H).
Qed.

Lemma format_split a b kw x :
  keys_without_nl kw = true ->
  str_format ((a ++ nl) ++ b) [] kw = inr x ->
  exists a' b',
    str_format (a ++ nl) [] kw = inr a' /\ str_format b [] kw = inr b' /\ x = a' ++ b'.
Proof.
  unfold str_format. intros Hkw H.
  apply (format_from_split_len kw b Hkw (String.length a) a (le_n _) NumUnset None x H).
Qed.

Lemma stages_rendered bn ngd bitgen ext par map :
  str_format stages_template [] (ise_kwargs bn ngd bitgen ext par map)
  = inr (nl ++ translate_line bn ngd ext ++ map_line bn map
         ++ par_line bn par ++ bitgen_line bn bitgen).
Proof.
  unfold translate_line, map_line, par_line, bitgen_line.
  rewrite !str_app_assoc. reflexivity.
Qed.

Lemma xst_stages_rendered bn ngd bitgen ext par map :
  str_format (xst_stage_template ++ stages_template) []
    (ise_kwargs bn ngd bitgen ext par map)
  = inr (nl ++ synthesis_line bn ++ nl ++ translate_line bn ngd ext
         ++ map_line bn map ++ par_line bn par ++ bitgen_line bn bitgen).
Proof.
  unfold synthesis_line, translate_line, map_line, par_line, bitgen_line.
  rewrite !str_app_assoc. reflexivity.
Qed.

Lemma xst_rendered bn xo dev :
  str_format xst_template [] [("build_name", bn); ("xst_opt", xo); ("device", dev)]
  = inr ("run" ++ nl ++ "-ifn " ++ bn ++ ".prj" ++ nl ++ "-top top" ++ nl
         ++ xo ++ nl ++ "-ofn " ++ bn ++ ".ngc" ++ nl ++ "-p " ++ dev ++ nl).
Proof. reflexivity. Qed.

Lemma ys_rendered bn :
  str_format ys_template [] [("build_name", bn)]
  = inr ("hierarchy -check -top top" ++ nl ++ "proc; memory; opt; fsm; opt" ++ nl
         ++ "synth_xilinx -top top -edif " ++ bn ++ ".edif").
Proof. reflexivity. Qed.

Lemma read_rendered language incflags filename :
  str_format ("read_{}{} {}" ++ nl) [language; incflags; filename] []
  = inr ("read_" ++ language ++ incflags ++ " " ++ filename ++ nl).
Proof. reflexivity. Qed.

(* ================================================================== *)
(** * The script generators *)
(* ================================================================== *)

Lemma render_after_header p kw rest_t rest :
  keys_without_nl kw = true ->
  (exists a, p = a ++ nl) ->
  str_format rest_t [] kw = inr rest ->
  match str_format p [] kw with
  | inr header => str_format (p ++ rest_t) [] kw = inr (header ++ rest)
  | inl _ => exists e, str_format (p ++ rest_t) [] kw = inl e
  end.
Proof.
  intros Hkw [a ->] Hrest.
  destruct (str_format (a ++ nl) [] kw) as [e|header] eqn:Hp.
  - destruct (str_format ((a ++ nl) ++ rest_t) [] kw) as [e'|x] eqn:Hx; [eauto|].
    destruct (format_split a rest_t kw x Hkw Hx) as (a' & _ & Ha & _).
    congruence.
  - rewrite (format_app _ rest_t kw header Hp), Hrest. reflexivity.
Qed.

Lemma script_header_nl h ise_path source ver p :
  script_header h ise_path source ver = inr p -> exists a, p = a ++ nl.
Proof.
  unfold script_header, script_banner.
  destruct source.
  - destruct (common_settings h ise_path ver "ISE_DS") as [e|settings];
      [discriminate|].
    destruct (is_windows h); intros H; injection H as <-.
    + exists ("@echo off" ++ nl ++ "rem Autogenerated by Migen" ++ nl
              ++ "call " ++ settings). reflexivity.
    + exists ("# Autogenerated by Migen" ++ nl ++ "set -e" ++ nl
              ++ "source " ++ settings). reflexivity.
  - destruct (is_windows h); intros H; injection H as <-.
    + exists ("@echo off" ++ nl ++ "rem Autogenerated by Migen"). reflexivity.
    + exists ("# Autogenerated by Migen" ++ nl ++ "set -e"). reflexivity.
Qed.

Lemma call_then_check h argv w :
  (r <- subprocess_call h argv ;;
   if (r =? 0)%Z then ret tt else raise (OSError "Subprocess failed"))%M w
  = (exit_check (host_call h argv w), log (Call argv (host_call h argv w)) w).
Proof.
  unfold bind, subprocess_call, exit_check, ret, raise.
  destruct (host_call h argv w) as [e|r]; [reflexivity|].
  now destruct (r =? 0)%Z.
Qed.

(** [_run_ise], run: when the header and the trailing commands render,
    it writes the script and ends in the exit check of the process;
    otherwise it raises with the world as it found it. *)
Lemma run_ise_spec h bn ise_path source mode ngd bitgen cmds map par ver w :
  match (p <- script_header h ise_path source ver ;;
         str_format p [] (ise_kwargs bn ngd bitgen (netlist_ext mode) par map))%result,
        str_format cmds [] [("build_name", bn)] with
  | inr header, inr trailer =>
      let file := "build_" ++ bn ++ script_ext_of h in
      let w1 := log (WriteFile file
                       (pipeline_script header bn mode ngd map par bitgen trailer)
                       (Some false)) w in
      let cmd := (shell_of h ++ [file])%list in
      _run_ise h bn ise_path source mode ngd bitgen cmds map par ver w
      = (exit_check (host_call h cmd w1), log (Call cmd (host_call h cmd w1)) w1)
  | _, _ =>
      exists e, _run_ise h bn ise_path source mode ngd bitgen cmds map par ver w
                = (inl e, w)
  end.
Proof.
  assert (Hkw : keys_without_nl
                  (ise_kwargs bn ngd bitgen (netlist_ext mode) par map) = true)
    by reflexivity.
  destruct (script_header h ise_path source ver) as [e|p] eqn:Hp; cbn [rbind].
  - unfold script_header in Hp. unfold _run_ise.
    destruct source; [|discriminate Hp].
    destruct (common_settings h ise_path ver "ISE_DS") as [e'|?] eqn:Hs;
      [|discriminate Hp].
    exists e'. destruct (is_windows h); reflexivity.
  - assert (Hbody :
      _run_ise h bn ise_path source mode ngd bitgen cmds map par ver w =
      (build_script_contents <-
         lift (str_format
                 (if (mode =? "edif")%string then p ++ stages_template
                  else p ++ xst_stage_template ++ stages_template) []
                 (ise_kwargs bn ngd bitgen (netlist_ext mode) par map)) ;;
       trailer <- lift (str_format cmds [] [("build_name", bn)]) ;;
       write_to_file ("build_" ++ bn ++ script_ext_of h)
         (build_script_contents ++ trailer) (Some false) ;;;
       r <- subprocess_call h
              (shell_of h ++ [("build_" ++ bn ++ script_ext_of h)%string])%list ;;
       if (r =? 0)%Z then ret tt else raise (OSError "Subprocess failed"))%M w).
    { clear Hkw. revert Hp.
      unfold _run_ise, script_header, script_ext_of, shell_of, script_banner,
        netlist_ext, ise_kwargs.
      destruct (is_windows h); destruct source;
        try (destruct (common_settings h ise_path ver "ISE_DS") as [e'|settings];
             [discriminate|]);
        intros Hp; injection Hp as <-;
        destruct (mode =? "edif")%string; cbv [bind lift ret];
        cbn [append nl]; rewrite ?str_app_assoc; reflexivity. }
    rewrite Hbody. clear Hbody.
    pose proof (script_header_nl _ _ _ _ _ Hp) as Hnl.
    pose proof (render_after_header p _ _ _ Hkw Hnl
                  (stages_rendered bn ngd bitgen (netlist_ext mode) par map)) as Hedif.
    pose proof (render_after_header p _ _ _ Hkw Hnl
                  (xst_stages_rendered bn ngd bitgen (netlist_ext mode) par map)) as Hxst.
    unfold pipeline_script.
    destruct (mode =? "edif")%string.
    + destruct (str_format p [] _) as [e|header].
      * destruct Hedif as [e' He']. exists e'. cbv [bind lift]. now rewrite He'.
      * destruct (str_format cmds [] [("build_name", bn)]) as [e|trailer].
        -- exists e. cbv [bind lift]. now rewrite Hedif.
        -- cbv zeta.
           change (bind (lift (str_format (p ++ stages_template) []
                     (ise_kwargs bn ngd bitgen (netlist_ext mode) par map))) ?k w)
             with (bind (lift (str_format (p ++ stages_template) []
                     (ise_kwargs bn ngd bitgen (netlist_ext mode) par map))) k w).
           unfold bind at 1. unfold lift at 1. rewrite Hedif.
           unfold bind at 1. unfold lift at 1.
           unfold bind at 1. unfold write_to_file, emit.
           rewrite call_then_check.
           rewrite !str_app_assoc. reflexivity.
    + destruct (str_format p [] _) as [e|header].
      * destruct Hxst as [e' He']. exists e'. cbv [bind lift]. now rewrite He'.
      * destruct (str_format cmds [] [("build_name", bn)]) as [e|trailer].
        -- exists e. cbv [bind lift]. now rewrite Hxst.
        -- cbv zeta.
           unfold bind at 1. unfold lift at 1. rewrite Hxst.
           unfold bind at 1. unfold lift at 1.
           unfold bind at 1. unfold write_to_file, emit.
           rewrite call_then_check.
           rewrite !str_app_assoc. reflexivity.
Qed.

(** C4. [_run_ise] either stops before writing anything, or writes one
    build script and runs it. The script is the rendered header, then the
    synthesis invocation exactly when the mode is not ["edif"], then the
    translate, map, place-and-route and bitstream invocations in that
    order, each with its option string and the file names made from the
    build name, then the rendered trailing commands. Nothing is said of a
    header or of trailing commands outside the modelled format strings. *)
Theorem build_script_stages h bn ise_path source mode ngd bitgen cmds map par ver w :
  match (p <- script_header h ise_path source ver ;;
         str_format p [] (ise_kwargs bn ngd bitgen (netlist_ext mode) par map))%result,
        str_format cmds [] [("build_name", bn)] with
  | inr header, inr trailer =>
      exists outcome,
        trace (snd (_run_ise h bn ise_path source mode ngd bitgen cmds map par ver w))
        = (trace w
           ++ [WriteFile ("build_" ++ bn ++ script_ext_of h)
                 (pipeline_script header bn mode ngd map par bitgen trailer)
                 (Some false);
               Call (shell_of h ++ [("build_" ++ bn ++ script_ext_of h)%string])
                 outcome])%list
  | inl e, _ | inr _, inl e =>
      if outside_model e then True
      else
        trace (snd (_run_ise h bn ise_path source mode ngd bitgen cmds map par ver w))
        = trace w
  end /\
  forall header trailer,
    pipeline_script header bn mode ngd map par bitgen trailer =
    if (mode =? "edif")%string then
      header ++ nl
      ++ translate_line bn ngd "edif" ++ map_line bn map
      ++ par_line bn par ++ bitgen_line bn bitgen ++ trailer
    else
      header ++ nl ++ synthesis_line bn ++ nl
      ++ translate_line bn ngd "ngc" ++ map_line bn map
      ++ par_line bn par ++ bitgen_line bn bitgen ++ trailer.
Proof.
  split.
  - pose proof (run_ise_spec h bn ise_path source mode ngd bitgen cmds map par ver w)
      as Hspec.
    destruct (rbind (script_header h ise_path source ver) _) as [e|header].
    { destruct Hspec as [e' ->]. now destruct (outside_model e). }
    destruct (str_format cmds [] _) as [e|trailer].
    { destruct Hspec as [e' ->]. now destruct (outside_model e). }
    cbv zeta in Hspec. rewrite Hspec. cbn [snd trace log].
    eexists. rewrite <- app_assoc. reflexivity.
  - intros header trailer. unfold pipeline_script, netlist_ext.
    destruct (mode =? "edif")%string; [reflexivity|].
    now rewrite !str_app_assoc.
Qed.

(** On the sample host with the default options: the script of the
    native mode has the synthesis invocation before the translate
    invocation, the script of the netlist mode has none. *)
Example native_script_has_synthesis_stage :
  snd (_run_ise (posix_host all_pass) "top" "/opt/Xilinx" false "xst" ""
         "-g Binary:Yes -w" "" "-ol high -w" "-ol high -w" None demo_world)
  = log (Call ["bash"; "build_top.sh"] (inr 0%Z))
      (log (WriteFile "build_top.sh"
              ("# Autogenerated by Migen" ++ nl ++ "set -e" ++ nl
               ++ nl
               ++ "xst -ifn top.xst" ++ nl
               ++ nl
               ++ "ngdbuild  -uc top.ucf top.ngc top.ngd" ++ nl
               ++ "map -ol high -w -o top_map.ncd top.ngd top.pcf" ++ nl
               ++ "par -ol high -w top_map.ncd top.ncd top.pcf" ++ nl
               ++ "bitgen -g Binary:Yes -w top.ncd top.bit" ++ nl)
              (Some false)) demo_world).
Proof. vm_compute. reflexivity. Qed.

Example netlist_script_has_no_synthesis_stage :
  exists script,
    snd (_run_ise (posix_host all_pass) "top" "/opt/Xilinx" false "edif" ""
           "-g Binary:Yes -w" "" "-ol high -w" "-ol high -w" None demo_world)
    = log (Call ["bash"; "build_top.sh"] (inr 0%Z))
        (log (WriteFile "build_top.sh" script (Some false)) demo_world) /\
    occurs "xst" script = false /\
    occurs ("ngdbuild  -uc top.ucf top.edif top.ngd" ++ nl) script = true.
Proof. eexists. split; [vm_compute; reflexivity|]. split; vm_compute; reflexivity. Qed.

Lemma vlgincdir_loop_app vincpaths :
  forall x, vlgincdir_loop vincpaths x = x ++ vlgincdir_loop vincpaths "".
Proof.
  induction vincpaths as [|p ps IH]; intros x; simpl.
  - now rewrite str_app_nil_r.
  - rewrite IH. rewrite (IH (String _ _)). now rewrite !str_app_assoc.
Qed.

Lemma read_loop_ok sources incflags :
  forall acc, read_loop sources incflags acc = inr (acc ++ ys_reads sources incflags).
Proof.
  induction sources as [|[[filename language] library] rest IH]; intros acc;
    cbn [read_loop ys_reads].
  - now rewrite str_app_nil_r.
  - rewrite read_rendered. cbn [rbind]. rewrite IH.
    now rewrite !str_app_assoc.
Qed.

(** [_run_yosys], run: it writes the script, calls the synthesizer and
    ends in the exit check. *)
Lemma run_yosys_spec h device sources vincpaths bn w :
  let ys_name := bn ++ ".ys" in
  let w1 := log (WriteFile ys_name (ys_script sources vincpaths bn) None) w in
  let out := host_call h ["yosys"; ys_name] w1 in
  _run_yosys h device sources vincpaths bn w
  = (exit_check out, log (Call ["yosys"; ys_name] out) w1).
Proof.
  cbv zeta. unfold _run_yosys.
  unfold bind at 1. unfold lift at 1. rewrite read_loop_ok.
  unfold bind at 1. unfold lift at 1. rewrite ys_rendered.
  unfold bind at 1. unfold write_to_file, emit.
  rewrite call_then_check. unfold ys_script. cbn [append].
  rewrite ?str_app_assoc. reflexivity.
Qed.

Lemma contains_app_r sub s t : contains sub s -> contains sub (s ++ t).
Proof.
  intros (pre & post & ->). exists pre, (post ++ t).
  now rewrite !str_app_assoc.
Qed.

(** C7. For device ["xc7a35t"], the one source [("top.v", "verilog",
    "work")] and build name ["top"], the native synthesis generator writes
    the manifest [top.prj] with exactly the line [verilog work top.v], and
    a run script [top.xst] in which [-ofn top.ngc] and [-p xc7a35t] occur,
    whatever the include paths and the option block. *)
Theorem xst_files_scenario vincpaths xst_opt w :
  exists xst_contents,
    _build_xst_files "xc7a35t" [("top.v", "verilog", "work")] vincpaths "top"
      xst_opt w
    = (inr tt,
       log (WriteFile "top.xst" xst_contents None)
         (log (WriteFile "top.prj" ("verilog work top.v" ++ nl) None) w)) /\
    contains "-ofn top.ngc" xst_contents /\
    contains "-p xc7a35t" xst_contents.
Proof.
  exists (vlgincdir_loop vincpaths
            ("run" ++ nl ++ "-ifn " ++ "top" ++ ".prj" ++ nl ++ "-top top" ++ nl
             ++ xst_opt ++ nl ++ "-ofn " ++ "top" ++ ".ngc" ++ nl
             ++ "-p " ++ "xc7a35t" ++ nl)).
  split; [|split].
  - unfold _build_xst_files.
    unfold bind at 1. unfold write_to_file at 1, emit at 1.
    unfold bind at 1. unfold lift at 1. rewrite xst_rendered.
    reflexivity.
  - rewrite vlgincdir_loop_app. apply contains_app_r.
    exists ("run" ++ nl ++ "-ifn top.prj" ++ nl ++ "-top top" ++ nl ++ xst_opt ++ nl),
      (nl ++ "-p xc7a35t" ++ nl).
    rewrite !str_app_assoc. reflexivity.
  - rewrite vlgincdir_loop_app. apply contains_app_r.
    exists ("run" ++ nl ++ "-ifn top.prj" ++ nl ++ "-top top" ++ nl ++ xst_opt ++ nl
            ++ "-ofn top.ngc" ++ nl), nl.
    rewrite !str_app_assoc. reflexivity.
Qed.

(* ================================================================== *)
(** * What statements leave alone, and where their effects stop *)
(* ================================================================== *)

Lemma clean_nil : clean [].
Proof. intros argv st []. Qed.

Lemma clean_app l1 l2 : clean l1 -> clean l2 -> clean (l1 ++ l2).
Proof.
  intros H1 H2 argv st Hin. apply in_app_or in Hin.
  destruct Hin; [eapply H1 | eapply H2]; eassumption.
Qed.

Lemma clean_one e : (forall argv st, e <> Call argv (inr st)) -> clean [e].
Proof. intros He argv st [H|[]]. now apply He in H. Qed.

Lemma no_script_nil : no_script [].
Proof. intros f c []. Qed.

Lemma no_script_app l1 l2 : no_script l1 -> no_script l2 -> no_script (l1 ++ l2).
Proof.
  intros H1 H2 f c Hin. apply in_app_or in Hin.
  destruct Hin; [eapply H1 | eapply H2]; eassumption.
Qed.

Lemma no_script_one e : (forall f c, e <> WriteFile f c (Some false)) -> no_script [e].
Proof. intros He f c [H|[]]. now apply He in H. Qed.

(* ---------- keeps_self ---------- *)

Lemma keeps_self_bind {A B} (m : M A) (k : A -> M B) :
  keeps_self m -> (forall a, keeps_self (k a)) -> keeps_self (bind m k).
Proof.
  intros Hm Hk w. unfold bind. specialize (Hm w).
  destruct (m w) as [[e|a] w1]; cbn [snd] in *; [exact Hm|].
  now rewrite Hk.
Qed.

Lemma keeps_self_ret {A} (a : A) : keeps_self (ret a).
Proof. intros w. reflexivity. Qed.

Lemma keeps_self_raise {A} e : keeps_self (@raise A e).
Proof. intros w. reflexivity. Qed.

Lemma keeps_self_lift {A} (r : result A) : keeps_self (lift r).
Proof. intros w. reflexivity. Qed.

Lemma keeps_self_emit e : keeps_self (emit e).
Proof. intros w. reflexivity. Qed.

Lemma keeps_self_getcwd : keeps_self getcwd.
Proof. intros w. reflexivity. Qed.

Lemma keeps_self_get_self : keeps_self get_self.
Proof. intros w. reflexivity. Qed.

Lemma keeps_self_chdir h d : keeps_self (chdir h d).
Proof. intros w. unfold chdir. now destruct (os_chdir h (cwd w) d). Qed.

Lemma keeps_self_call h argv : keeps_self (subprocess_call h argv).
Proof. intros w. reflexivity. Qed.

Lemma keeps_self_output_write {NS} (o : Output NS) f : keeps_self (output_write o f).
Proof. intros w. unfold output_write. now destruct (write o f). Qed.

Lemma keeps_self_try_finally {A} (body : M A) fin :
  keeps_self body -> keeps_self fin -> keeps_self (try_finally body fin).
Proof.
  intros Hb Hf w. unfold try_finally. specialize (Hb w).
  destruct (body w) as [r w1]. specialize (Hf w1).
  destruct (fin w1) as [[e|u] w2]; cbn [snd] in *; congruence.
Qed.

(* ---------- quiet ---------- *)

Lemma quiet_bind {A B} (m : M A) (k : A -> M B) :
  quiet m -> (forall a, quiet (k a)) -> quiet (bind m k).
Proof.
  intros Hm Hk w. unfold bind. destruct (Hm w) as (new1 & Ht1 & Hn1).
  destruct (m w) as [[e|a] w1]; cbn [snd] in *.
  - now exists new1.
  - destruct (Hk a w1) as (new2 & Ht2 & Hn2).
    exists (new1 ++ new2)%list. split.
    + now rewrite Ht2, Ht1, app_assoc.
    + now apply no_script_app.
Qed.

Lemma quiet_silent {A} (m : M A) :
  (forall w, trace (snd (m w)) = trace w) -> quiet m.
Proof.
  intros H w. exists []. rewrite H, app_nil_r. split; [reflexivity | apply no_script_nil].
Qed.

Lemma quiet_ret {A} (a : A) : quiet (ret a).
Proof. now apply quiet_silent. Qed.

Lemma quiet_raise {A} e : quiet (@raise A e).
Proof. now apply quiet_silent. Qed.

Lemma quiet_lift {A} (r : result A) : quiet (lift r).
Proof. now apply quiet_silent. Qed.

Lemma quiet_getcwd : quiet getcwd.
Proof. now apply quiet_silent. Qed.

Lemma quiet_get_self : quiet get_self.
Proof. now apply quiet_silent. Qed.

Lemma quiet_emit e :
  (forall f c, e <> WriteFile f c (Some false)) -> quiet (emit e).
Proof.
  intros He w. exists [e]. split; [reflexivity | now apply no_script_one].
Qed.

Lemma quiet_chdir h d : quiet (chdir h d).
Proof.
  intros w. unfold chdir. destruct (os_chdir h (cwd w) d).
  - exists []. cbn. rewrite app_nil_r. split; [reflexivity | apply no_script_nil].
  - exists [Chdir d]. split; [reflexivity | now apply no_script_one].
Qed.

Lemma quiet_call h argv : quiet (subprocess_call h argv).
Proof.
  intros w. exists [Call argv (host_call h argv w)].
  split; [reflexivity | now apply no_script_one].
Qed.

Lemma quiet_output_write {NS} (o : Output NS) f : quiet (output_write o f).
Proof.
  intros w. unfold output_write. destruct (write o f).
  - exists []. cbn. rewrite app_nil_r. split; [reflexivity | apply no_script_nil].
  - exists [WriteOutput f]. split; [reflexivity | now apply no_script_one].
Qed.

(* ---------- ff ---------- *)

Lemma failfast_clean {A} (r : result A) new : clean new -> failfast r new.
Proof. now left. Qed.

Lemma failfast_inr {A} (a : A) new : failfast (inr a) new -> clean new.
Proof. intros [H|(pre & argv & st & _ & _ & _ & H)]; [exact H | discriminate H]. Qed.

Lemma ff_bind {A B} (m : M A) (k : A -> M B) :
  ff m -> (forall a, ff (k a)) -> ff (bind m k).
Proof.
  intros Hm Hk w. unfold bind. destruct (Hm w) as (new1 & Ht1 & Hf1).
  destruct (m w) as [[e|a] w1]; cbn [fst snd] in *.
  - exists new1. split; [exact Ht1|].
    destruct Hf1 as [Hc|(pre & argv & st & -> & Hpre & Hst & He)].
    + now left.
    + right. exists pre, argv, st. repeat split; try assumption.
      now injection He as ->.
  - apply failfast_inr in Hf1.
    destruct (Hk a w1) as (new2 & Ht2 & Hf2).
    exists (new1 ++ new2)%list. split; [now rewrite Ht2, Ht1, app_assoc|].
    destruct Hf2 as [Hc|(pre & argv & st & -> & Hpre & Hst & He)].
    + left. now apply clean_app.
    + right. exists (new1 ++ pre)%list, argv, st.
      rewrite app_assoc. repeat split; try assumption. now apply clean_app.
Qed.

Lemma ff_silent {A} (m : M A) :
  (forall w, trace (snd (m w)) = trace w) -> ff m.
Proof.
  intros H w. exists []. rewrite H, app_nil_r.
  split; [reflexivity | left; apply clean_nil].
Qed.

Lemma ff_ret {A} (a : A) : ff (ret a).
Proof. now apply ff_silent. Qed.

Lemma ff_raise {A} e : ff (@raise A e).
Proof. now apply ff_silent. Qed.

Lemma ff_lift {A} (r : result A) : ff (lift r).
Proof. now apply ff_silent. Qed.

Lemma ff_getcwd : ff getcwd.
Proof. now apply ff_silent. Qed.

Lemma ff_get_self : ff get_self.
Proof. now apply ff_silent. Qed.

Lemma ff_emit e : (forall argv st, e <> Call argv (inr st)) -> ff (emit e).
Proof.
  intros He w. exists [e]. split; [reflexivity | left; now apply clean_one].
Qed.

Lemma ff_chdir h d : ff (chdir h d).
Proof.
  intros w. unfold chdir. destruct (os_chdir h (cwd w) d).
  - exists []. cbn. rewrite app_nil_r. split; [reflexivity | left; apply clean_nil].
  - exists [Chdir d]. split; [reflexivity | left; now apply clean_one].
Qed.

Lemma ff_output_write {NS} (o : Output NS) f : ff (output_write o f).
Proof.
  intros w. unfold output_write. destruct (write o f).
  - exists []. cbn. rewrite app_nil_r. split; [reflexivity | left; apply clean_nil].
  - exists [WriteOutput f]. split; [reflexivity | left; now apply clean_one].
Qed.

Lemma failfast_exit_check pre argv out :
  clean pre -> failfast (exit_check out) (pre ++ [Call argv out]).
Proof.
  intros Hpre. destruct out as [e|st]; cbn [exit_check].
  - left. apply clean_app; [exact Hpre|]. apply clean_one. discriminate.
  - destruct (Z.eqb_spec st 0) as [->|Hst].
    + left. apply clean_app; [exact Hpre|].
      intros argv' st' [H|[]]. now injection H as _ <-.
    + right. now exists pre, argv, st.
Qed.

(** Proof steps for the three properties: one rule per statement form,
    a case split where the code branches. *)
Ltac split_cases :=
  match goal with
  | |- context [if ?b then _ else _] => destruct b
  | |- context [match ?x with inl _ => _ | inr _ => _ end] => destruct x
  | |- context [match ?x with Some _ => _ | None => _ end] => destruct x
  | |- context [let '(_, _) := ?x in _] => destruct x
  end.

Ltac keeps_self_step :=
  first
    [ apply keeps_self_ret | apply keeps_self_raise | apply keeps_self_lift
    | apply keeps_self_emit | apply keeps_self_getcwd | apply keeps_self_get_self
    | apply keeps_self_chdir | apply keeps_self_call
    | apply keeps_self_output_write
    | apply keeps_self_try_finally
    | apply keeps_self_bind; [|intros] ].

Ltac quiet_step :=
  first
    [ apply quiet_ret | apply quiet_raise | apply quiet_lift
    | apply quiet_emit; discriminate | apply quiet_getcwd | apply quiet_get_self
    | apply quiet_chdir | apply quiet_call | apply quiet_output_write
    | apply quiet_bind; [|intros] ].

Ltac ff_step :=
  first
    [ apply ff_ret | apply ff_raise | apply ff_lift
    | apply ff_emit; discriminate | apply ff_getcwd | apply ff_get_self
    | apply ff_chdir | apply ff_output_write
    | apply ff_bind; [|intros] ].

Lemma keeps_self_build_xst_files device sources vincpaths bn xo :
  keeps_self (_build_xst_files device sources vincpaths bn xo).
Proof. unfold _build_xst_files, write_to_file. repeat keeps_self_step. Qed.

Lemma keeps_self_run_yosys h device sources vincpaths bn :
  keeps_self (_run_yosys h device sources vincpaths bn).
Proof.
  unfold _run_yosys, write_to_file.
  repeat first [keeps_self_step | split_cases].
Qed.

Lemma keeps_self_run_ise h bn ise_path source mode ngd bitgen cmds map par ver :
  keeps_self (_run_ise h bn ise_path source mode ngd bitgen cmds map par ver).
Proof.
  unfold _run_ise, write_to_file.
  destruct (is_windows h); destruct source; destruct (mode =? "edif")%string;
    repeat first [keeps_self_step | split_cases].
Qed.

Lemma quiet_build_xst_files device sources vincpaths bn xo :
  quiet (_build_xst_files device sources vincpaths bn xo).
Proof. unfold _build_xst_files, write_to_file. repeat quiet_step. Qed.

Lemma quiet_run_yosys h device sources vincpaths bn :
  quiet (_run_yosys h device sources vincpaths bn).
Proof.
  unfold _run_yosys, write_to_file.
  repeat first [quiet_step | split_cases].
Qed.

Lemma ff_build_xst_files device sources vincpaths bn xo :
  ff (_build_xst_files device sources vincpaths bn xo).
Proof. unfold _build_xst_files, write_to_file. repeat ff_step. Qed.

Lemma ff_run_yosys h device sources vincpaths bn :
  ff (_run_yosys h device sources vincpaths bn).
Proof.
  intros w. rewrite run_yosys_spec. cbn [fst snd log trace].
  eexists. split; [rewrite <- app_assoc; reflexivity|].
  apply (failfast_exit_check [_]). apply clean_one. discriminate.
Qed.

Lemma ff_run_ise h bn ise_path source mode ngd bitgen cmds map par ver :
  ff (_run_ise h bn ise_path source mode ngd bitgen cmds map par ver).
Proof.
  intros w.
  pose proof (run_ise_spec h bn ise_path source mode ngd bitgen cmds map par ver w)
    as Hspec.
  assert (Hfail : (exists e, _run_ise h bn ise_path source mode ngd bitgen cmds
                               map par ver w = (inl e, w)) ->
                  exists new,
                    trace (snd (_run_ise h bn ise_path source mode ngd bitgen cmds
                                  map par ver w)) = (trace w ++ new)%list /\
                    failfast (fst (_run_ise h bn ise_path source mode ngd bitgen
                                     cmds map par ver w)) new).
  { intros [e ->]. exists []. cbn. rewrite app_nil_r.
    split; [reflexivity | left; apply clean_nil]. }
  destruct (rbind (script_header h ise_path source ver) _) as [e|header];
    [exact (Hfail Hspec)|].
  destruct (str_format cmds [] _) as [e|trailer]; [exact (Hfail Hspec)|].
  cbv zeta in Hspec. rewrite Hspec. cbn [fst snd log trace].
  eexists. split; [rewrite <- app_assoc; reflexivity|].
  apply (failfast_exit_check [_]). apply clean_one. discriminate.
Qed.

Section BuildFacts.

Variables Fragment NS IOSignals : Type.
Variable h : Host.
Variable mist : result (Fragment -> IOSignals -> result unit).
Variable platform : Platform Fragment NS IOSignals.

Lemma keeps_self_verilog_step fragment bn mode l :
  keeps_self (verilog_step Fragment NS IOSignals h platform fragment bn mode l).
Proof.
  unfold verilog_step.
  repeat first [ apply keeps_self_build_xst_files | apply keeps_self_run_yosys
               | keeps_self_step | split_cases ].
Qed.

Lemma keeps_self_mist_step fragment mode :
  keeps_self (mist_step Fragment NS IOSignals mist platform fragment mode).
Proof. unfold mist_step. repeat first [keeps_self_step | split_cases]. Qed.

Lemma keeps_self_edif_step fragment bn mode l :
  keeps_self (edif_step Fragment NS IOSignals platform fragment bn mode l).
Proof. unfold edif_step. repeat first [keeps_self_step | split_cases]. Qed.

Lemma keeps_self_ucf_step bn l : keeps_self (ucf_step NS h bn l).
Proof.
  unfold ucf_step, write_to_file.
  destruct (named l) as [[named_sc named_pc]|]; repeat keeps_self_step.
Qed.

Lemma keeps_self_run_step bn tp source run l :
  keeps_self (run_step NS h bn tp source run l).
Proof.
  unfold run_step.
  repeat first [apply keeps_self_run_ise | keeps_self_step | split_cases].
Qed.

Lemma keeps_self_build_body fragment bn tp source run mode l :
  keeps_self (build_body Fragment NS IOSignals h mist platform fragment bn tp
                source run mode l).
Proof.
  unfold build_body.
  repeat first [ apply keeps_self_verilog_step | apply keeps_self_mist_step
               | apply keeps_self_edif_step | apply keeps_self_ucf_step
               | apply keeps_self_run_step | keeps_self_step ].
Qed.

Lemma quiet_verilog_step fragment bn mode l :
  quiet (verilog_step Fragment NS IOSignals h platform fragment bn mode l).
Proof.
  unfold verilog_step.
  repeat first [ apply quiet_build_xst_files | apply quiet_run_yosys
               | quiet_step | split_cases ].
Qed.

Lemma quiet_mist_step fragment mode :
  quiet (mist_step Fragment NS IOSignals mist platform fragment mode).
Proof. unfold mist_step. repeat first [quiet_step | split_cases]. Qed.

Lemma quiet_edif_step fragment bn mode l :
  quiet (edif_step Fragment NS IOSignals platform fragment bn mode l).
Proof. unfold edif_step. repeat first [quiet_step | split_cases]. Qed.

Lemma quiet_ucf_step bn l : quiet (ucf_step NS h bn l).
Proof.
  unfold ucf_step, write_to_file.
  destruct (named l) as [[named_sc named_pc]|]; repeat quiet_step.
Qed.

Lemma ff_verilog_step fragment bn mode l :
  ff (verilog_step Fragment NS IOSignals h platform fragment bn mode l).
Proof.
  unfold verilog_step.
  repeat first [ apply ff_build_xst_files | apply ff_run_yosys
               | ff_step | split_cases ].
Qed.

Lemma ff_mist_step fragment mode :
  ff (mist_step Fragment NS IOSignals mist platform fragment mode).
Proof. unfold mist_step. repeat first [ff_step | split_cases]. Qed.

Lemma ff_edif_step fragment bn mode l :
  ff (edif_step Fragment NS IOSignals platform fragment bn mode l).
Proof. unfold edif_step. repeat first [ff_step | split_cases]. Qed.

Lemma ff_ucf_step bn l : ff (ucf_step NS h bn l).
Proof.
  unfold ucf_step, write_to_file.
  destruct (named l) as [[named_sc named_pc]|]; repeat ff_step.
Qed.

Lemma ff_run_step bn tp source run l : ff (run_step NS h bn tp source run l).
Proof.
  unfold run_step.
  repeat first [apply ff_run_ise | ff_step | split_cases].
Qed.

Lemma ff_build_body fragment bn tp source run mode l :
  ff (build_body Fragment NS IOSignals h mist platform fragment bn tp
        source run mode l).
Proof.
  unfold build_body.
  repeat first [ apply ff_verilog_step | apply ff_mist_step
               | apply ff_edif_step | apply ff_ucf_step
               | apply ff_run_step | ff_step ].
Qed.

End BuildFacts.

(* ================================================================== *)
(** * The build entry point *)
(* ================================================================== *)

Section BuildTheorems.

Variables Fragment NS IOSignals : Type.
Variable h : Host.
Variable mist : result (Fragment -> IOSignals -> result unit).
Variable platform : Platform Fragment NS IOSignals.

Lemma keeps_self_build fragment bd bn tp source run mode :
  keeps_self (build Fragment NS IOSignals h mist platform fragment bd bn tp
                source run mode).
Proof.
  unfold build, mkdir_noerror.
  repeat first [ apply keeps_self_build_body | keeps_self_step | split_cases ].
  destruct fragment; keeps_self_step.
Qed.

(** C10. [build] leaves the toolchain object as it found it, in every
    mode and on every exit: the synthesis, map, place-and-route,
    translate and bitstream options and the trailing command template
    keep their values. The device option of the open-synthesizer mode goes
    to the local [ngdbuild_opt] only. *)
Theorem build_keeps_toolchain_options fragment bd bn tp source run mode w :
  let self_after :=
    self_obj (snd (build Fragment NS IOSignals h mist platform fragment bd bn
                     tp source run mode w)) in
  self_after = self_obj w /\
  xst_opt self_after = xst_opt (self_obj w) /\
  map_opt self_after = map_opt (self_obj w) /\
  par_opt self_after = par_opt (self_obj w) /\
  ngdbuild_opt self_after = ngdbuild_opt (self_obj w) /\
  bitgen_opt self_after = bitgen_opt (self_obj w) /\
  ise_commands self_after = ise_commands (self_obj w).
Proof.
  cbv zeta. rewrite keeps_self_build. now repeat split.
Qed.

(** C5. When changing to the directory in which [build] was called
    succeeds and lands there, the working directory after [build] is the
    one before it, whether [build] returns or raises. *)
Theorem build_restores_cwd fragment bd bn tp source run mode w :
  (forall c, os_chdir h c (cwd w) = inr (cwd w)) ->
  cwd (snd (build Fragment NS IOSignals h mist platform fragment bd bn tp
              source run mode w)) = cwd w.
Proof.
  intros Hback. unfold build.
  unfold bind at 1.
  assert (Hfrag : exists r, (match fragment with
                             | IsFragment f => ret f
                             | HasGetFragment get_fragment => lift get_fragment
                             end) w = (r, w)).
  { destruct fragment; eexists; reflexivity. }
  destruct Hfrag as [[e|f] ->]; [reflexivity|].
  unfold bind at 1. unfold lift at 1.
  destruct (finalize platform f) as [e|u]; [reflexivity|].
  unfold bind at 1. unfold get_self at 1.
  unfold bind at 1. unfold mkdir_noerror, emit.
  unfold bind at 1. unfold getcwd at 1. cbn [cwd log].
  unfold bind at 1. unfold chdir at 1. cbn [cwd log].
  destruct (os_chdir h (cwd w) bd) as [e|c]; [reflexivity|].
  unfold bind at 1. unfold try_finally.
  match goal with |- context [build_body ?a ?b ?c ?d ?e ?f ?g ?h ?i ?j ?k ?l ?m ?w] =>
    destruct (build_body a b c d e f g h i j k l m w) as [r w3] end.
  unfold chdir. rewrite Hback.
  destruct r; reflexivity.
Qed.

End BuildTheorems.

(** A trace has at most one place for a failing call between two clean
    stretches. *)
Lemma failing_call_unique pre0 :
  forall post0 a0 s0 pre a s post,
    clean pre0 -> clean post0 ->
    (pre0 ++ Call a0 (inr s0) :: post0 = pre ++ Call a (inr s) :: post)%list ->
    s <> 0%Z ->
    pre = pre0 /\ post = post0 /\ a = a0 /\ s = s0.
Proof.
  induction pre0 as [|y pre0 IH]; intros post0 a0 s0 pre a s post Hpre Hpost Heq Hs.
  - destruct pre as [|y' pre']; cbn in Heq.
    + injection Heq as -> -> ->. now repeat split.
    + injection Heq as <- ->. exfalso. apply Hs.
      apply (Hpost a s). apply in_or_app. right. now left.
  - destruct pre as [|y' pre']; cbn in Heq.
    + injection Heq as -> _. exfalso. apply Hs. apply (Hpre a s). now left.
    + injection Heq as <- Heq.
      destruct (IH post0 a0 s0 pre' a s post) as (-> & -> & -> & ->); try assumption.
      * intros argv st Hin. apply (Hpre argv st). now right.
      * now repeat split.
Qed.

Lemma clean_no_failing_call new pre argv st post :
  clean new -> new = (pre ++ Call argv (inr st) :: post)%list -> st = 0%Z.
Proof.
  intros Hc ->. apply (Hc argv st). apply in_or_app. right. now left.
Qed.

Section BuildFailFast.

Variables Fragment NS IOSignals : Type.
Variable h : Host.
Variable mist : result (Fragment -> IOSignals -> result unit).
Variable platform : Platform Fragment NS IOSignals.

Lemma build_failfast_clean cwd0 (r : result (option NS)) new :
  clean new -> build_failfast cwd0 r new.
Proof.
  intros Hc pre argv st post Hnew Hst. exfalso. apply Hst.
  exact (clean_no_failing_call new pre argv st post Hc Hnew).
Qed.

(** The effects of the [try] block are fail-fast; around it [build] only
    creates and enters the directory, and returns from it. *)
Lemma build_is_failfast fragment bd bn tp source run mode w r w' :
  build Fragment NS IOSignals h mist platform fragment bd bn tp source run
    mode w = (r, w') ->
  exists new,
    trace w' = (trace w ++ new)%list /\ build_failfast (cwd w) r new.
Proof.
  intros Hb. unfold build in Hb.
  unfold bind at 1 in Hb.
  assert (Hfrag : exists r, (match fragment with
                             | IsFragment f => ret f
                             | HasGetFragment get_fragment => lift get_fragment
                             end) w = (r, w)).
  { destruct fragment; eexists; reflexivity. }
  assert (Hnone : forall r : result (option NS),
             exists new, trace w = (trace w ++ new)%list /\
                         build_failfast (cwd w) r new).
  { intros r0. exists []. rewrite app_nil_r. split; [reflexivity|].
    apply build_failfast_clean, clean_nil. }
  destruct Hfrag as [[e|f] Hf]; rewrite Hf in Hb; clear Hf.
  { injection Hb as <- <-. apply Hnone. }
  unfold bind at 1 in Hb. unfold lift at 1 in Hb.
  destruct (finalize platform f) as [e|u].
  { injection Hb as <- <-. apply Hnone. }
  unfold bind at 1 in Hb. unfold get_self at 1 in Hb.
  unfold bind at 1 in Hb. unfold mkdir_noerror, emit in Hb.
  unfold bind at 1 in Hb. unfold getcwd at 1 in Hb. cbn [cwd log] in Hb.
  unfold bind at 1 in Hb. unfold chdir at 1 in Hb. cbn [cwd log] in Hb.
  destruct (os_chdir h (cwd w) bd) as [e|c].
  { injection Hb as <- <-. exists [Mkdir bd]. split; [reflexivity|].
    apply build_failfast_clean, clean_one. discriminate. }
  unfold bind at 1 in Hb. unfold try_finally in Hb.
  match type of Hb with context [build_body ?a ?b ?c ?d ?e ?f ?g ?h ?i ?j ?k ?l ?m ?w] =>
    destruct (ff_build_body a b c d e f g h i j k l m w) as (newb & Htb & Hfb);
    destruct (build_body a b c d e f g h i j k l m w) as [rb w3] end.
  cbn [fst snd trace log set_cwd] in Htb, Hfb.
  unfold chdir in Hb.
  destruct (os_chdir h (cwd w3) (cwd w)) as [e|c'].
  - (* the directory could not be restored *)
    injection Hb as <- <-.
    exists ([Mkdir bd; Chdir bd] ++ newb)%list. split.
    { rewrite Htb. rewrite <- !app_assoc. reflexivity. }
    destruct Hfb as [Hc|(preb & argvb & stb & -> & Hpreb & Hstb & ->)].
    + apply build_failfast_clean. apply clean_app; [|exact Hc].
      intros argv st [H|[H|[]]]; discriminate H.
    + intros pre argv st post Hnew Hst.
      rewrite app_assoc in Hnew.
      destruct (failing_call_unique ([Mkdir bd; Chdir bd] ++ preb)%list [] argvb stb
                  pre argv st post) as (_ & -> & _ & _);
        try assumption.
      * apply clean_app; [|exact Hpreb].
        intros a s [H|[H|[]]]; discriminate H.
      * apply clean_nil.
      * split; [eauto|]. split; [now left | discriminate].
  - assert (Hr : r = match rb with inl e => inl e | inr a => inr (vns a) end /\
                 w' = log (Chdir (cwd w)) (set_cwd c' w3)).
    { destruct rb; injection Hb as <- <-; now split. }
    destruct Hr as [-> ->]. clear Hb.
    exists ([Mkdir bd; Chdir bd] ++ newb ++ [Chdir (cwd w)])%list.
    cbn [trace log set_cwd]. split.
    { rewrite Htb. rewrite <- !app_assoc. reflexivity. }
    destruct Hfb as [Hc|(preb & argvb & stb & -> & Hpreb & Hstb & ->)].
    + apply build_failfast_clean. apply clean_app; [|apply clean_app; [exact Hc|]].
      * intros argv st [H|[H|[]]]; discriminate H.
      * apply clean_one. discriminate.
    + intros pre argv st post Hnew Hst.
      rewrite <- app_assoc in Hnew. cbn [app] in Hnew.
      change (Mkdir bd :: Chdir bd :: (preb ++ Call argvb (inr stb) :: [Chdir (cwd w)]))%list
        with (([Mkdir bd; Chdir bd] ++ preb) ++ Call argvb (inr stb) :: [Chdir (cwd w)])%list
        in Hnew.
      destruct (failing_call_unique ([Mkdir bd; Chdir bd] ++ preb)%list [Chdir (cwd w)]
                  argvb stb pre argv st post)
        as (_ & -> & _ & _); try assumption.
      * apply clean_app; [|exact Hpreb].
        intros a s [H|[H|[]]]; discriminate H.
      * apply clean_one. discriminate.
      * split; [eauto|]. split; [now right | reflexivity].
Qed.

End BuildFailFast.

Section YosysMode.

Variables Fragment NS IOSignals : Type.
Variable h : Host.
Variable mist : result (Fragment -> IOSignals -> result unit).
Variable platform : Platform Fragment NS IOSignals.

Lemma verilog_step_yosys fragment bn l w l1 w1 :
  verilog_step Fragment NS IOSignals h platform fragment bn "yosys" l w
  = (inr l1, w1) ->
  isemode l1 = Some "edif" /\
  l_ngdbuild_opt l1 = l_ngdbuild_opt l ++ "-p " ++ device platform.
Proof.
  unfold verilog_step. cbn [String.eqb Ascii.eqb Bool.eqb orb].
  unfold bind at 1. unfold lift at 1.
  destruct (get_verilog platform fragment) as [e|v]; [discriminate|].
  unfold bind at 1. unfold lift at 1.
  destruct (resolve_signals platform (ns v)) as [e|nm]; [discriminate|].
  unfold bind at 1.
  destruct (output_write v (bn ++ ".v") w) as [[e|u] w2]; [discriminate|].
  unfold bind at 1.
  match goal with |- context [_run_yosys ?a ?b ?c ?d ?e ?w] =>
    destruct (_run_yosys a b c d e w) as [[e'|u'] w3] end; [discriminate|].
  unfold ret. intros H. injection H as <- _. now split.
Qed.

(** The [try] block in the open-synthesizer mode: the steps before the
    pipeline write no build script, and hand it the netlist mode
    ["edif"] and the translate options with the device appended. *)
Lemma build_body_yosys fragment bn tp source l w rb wb :
  build_body Fragment NS IOSignals h mist platform fragment bn tp source true
    "yosys" l w = (rb, wb) ->
  self_obj wb = self_obj w /\
  exists new,
    trace wb = (trace w ++ new)%list /\
    (forall f c, In (WriteFile f c (Some false)) new ->
       exists header trailer,
         f = "build_" ++ bn ++ script_ext_of h /\
         c = pipeline_script header bn "edif"
               (l_ngdbuild_opt l ++ "-p " ++ device platform)
               (map_opt (self_obj w)) (par_opt (self_obj w))
               (bitgen_opt (self_obj w)) trailer) /\
    (forall l', rb = inr l' -> exists f c, In (WriteFile f c (Some false)) new).
Proof.
  intros Hb.
  split.
  { pose proof (keeps_self_build_body Fragment NS IOSignals h mist platform
                  fragment bn tp source true "yosys" l w) as Hs.
    now rewrite Hb in Hs. }
  unfold build_body in Hb.
  (* the verilog step *)
  unfold bind at 1 in Hb.
  destruct (quiet_verilog_step Fragment NS IOSignals h platform fragment bn "yosys" l w)
    as (n1 & Ht1 & Hq1).
  pose proof (keeps_self_verilog_step Fragment NS IOSignals h platform fragment bn
                "yosys" l w) as Hs1.
  destruct (verilog_step Fragment NS IOSignals h platform fragment bn "yosys" l w)
    as [[e|l1] w1] eqn:Hv; cbn [fst snd] in Ht1, Hs1.
  { injection Hb as <- <-. exists n1. split; [exact Ht1|]. split.
    - intros f c Hin. now apply Hq1 in Hin.
    - discriminate. }
  destruct (verilog_step_yosys _ _ _ _ _ _ Hv) as [Hmode Hopt].
  (* the mist and edif steps do nothing in this mode *)
  change (mist_step Fragment NS IOSignals mist platform fragment "yosys")
    with (@ret unit tt) in Hb.
  change (edif_step Fragment NS IOSignals platform fragment bn "yosys" l1)
    with (ret l1) in Hb.
  unfold bind at 1 in Hb. unfold ret at 1 in Hb.
  unfold bind at 1 in Hb. unfold ret at 1 in Hb.
  (* the constraint file *)
  unfold bind at 1 in Hb.
  destruct (quiet_ucf_step NS h bn l1 w1) as (n2 & Ht2 & Hq2).
  pose proof (keeps_self_ucf_step NS h bn l1 w1) as Hs2.
  destruct (ucf_step NS h bn l1 w1) as [[e|u] w2]; cbn [fst snd] in Ht2, Hs2.
  { injection Hb as <- <-. exists (n1 ++ n2)%list. split.
    - now rewrite Ht2, Ht1, app_assoc.
    - split; [|discriminate].
      intros f c Hin. now apply (no_script_app _ _ Hq1 Hq2) in Hin. }
  (* the pipeline *)
  unfold bind at 1 in Hb. unfold run_step in Hb. rewrite Hmode in Hb.
  unfold bind at 1 in Hb. unfold get_self at 1 in Hb.
  pose proof (run_ise_spec h bn tp source "edif" (l_ngdbuild_opt l1)
                (bitgen_opt (self_obj w2)) (ise_commands (self_obj w2))
                (map_opt (self_obj w2)) (par_opt (self_obj w2)) None w2) as Hise.
  assert (Hfail : (exists e, _run_ise h bn tp source "edif" (l_ngdbuild_opt l1)
                     (bitgen_opt (self_obj w2)) (ise_commands (self_obj w2))
                     (map_opt (self_obj w2)) (par_opt (self_obj w2)) None w2
                   = (inl e, w2)) ->
                  exists new, trace wb = (trace w ++ new)%list /\
                    (forall f c, In (WriteFile f c (Some false)) new ->
                       exists header trailer,
                         f = "build_" ++ bn ++ script_ext_of h /\
                         c = pipeline_script header bn "edif"
                               (l_ngdbuild_opt l ++ "-p " ++ device platform)
                               (map_opt (self_obj w)) (par_opt (self_obj w))
                               (bitgen_opt (self_obj w)) trailer) /\
                    (forall l', rb = inr l' ->
                       exists f c, In (WriteFile f c (Some false)) new)).
  { intros [e He]. rewrite He in Hb. injection Hb as <- <-.
    exists (n1 ++ n2)%list. split.
    - now rewrite Ht2, Ht1, app_assoc.
    - split; [|discriminate].
      intros f c Hin. now apply (no_script_app _ _ Hq1 Hq2) in Hin. }
  destruct (rbind (script_header h tp source None) _) as [e|header];
    [exact (Hfail Hise)|].
  destruct (str_format (ise_commands (self_obj w2)) [] _) as [e|trailer];
    [exact (Hfail Hise)|].
  clear Hfail. cbv zeta in Hise. rewrite Hise in Hb. clear Hise.
  set (file := "build_" ++ bn ++ script_ext_of h) in *.
  set (script := pipeline_script header bn "edif" (l_ngdbuild_opt l1)
                   (map_opt (self_obj w2)) (par_opt (self_obj w2))
                   (bitgen_opt (self_obj w2)) trailer) in *.
  set (out := host_call h (shell_of h ++ [file])%list _) in *.
  exists (n1 ++ n2 ++ [WriteFile file script (Some false);
                        Call (shell_of h ++ [file])%list out])%list.
  assert (Hwb : wb = log (Call (shell_of h ++ [file])%list out)
                       (log (WriteFile file script (Some false)) w2)).
  { destruct (exit_check out); now injection Hb as _ <-. }
  split; [|split].
  - rewrite Hwb. cbn [trace log]. rewrite Ht2, Ht1.
    rewrite <- !app_assoc. reflexivity.
  - intros f c Hin.
    apply in_app_or in Hin. destruct Hin as [Hin|Hin]; [now apply Hq1 in Hin|].
    apply in_app_or in Hin. destruct Hin as [Hin|Hin]; [now apply Hq2 in Hin|].
    destruct Hin as [Hin|[Hin|[]]]; [|discriminate Hin].
    injection Hin as <- <-. exists header, trailer. unfold script.
    split; [reflexivity|]. now rewrite Hopt, Hs2, Hs1.
  - intros _ _. exists file, script.
    apply in_or_app. right. apply in_or_app. right. now left.
Qed.

(** C6. In the open-synthesizer mode with [run] set, whatever else
    happens, the build script that [build] writes (the one file written
    with [force_unix=False]) comes after the header with the translate
    invocation, which reads the [edif] netlist and gets the configured
    translate options with [-p <device>] appended; and [build] does not
    return normally without having written it. *)
Theorem open_synthesizer_feeds_edif fragment bd bn tp source w r w' :
  build Fragment NS IOSignals h mist platform fragment bd bn tp source true
    "yosys" w = (r, w') ->
  exists new,
    trace w' = (trace w ++ new)%list /\
    (forall f c, In (WriteFile f c (Some false)) new ->
       exists header trailer,
         f = "build_" ++ bn ++ script_ext_of h /\
         c = header ++ nl
             ++ translate_line bn
                  (ngdbuild_opt (self_obj w) ++ "-p " ++ device platform) "edif"
             ++ map_line bn (map_opt (self_obj w))
             ++ par_line bn (par_opt (self_obj w))
             ++ bitgen_line bn (bitgen_opt (self_obj w))
             ++ trailer) /\
    (forall v, r = inr v -> exists f c, In (WriteFile f c (Some false)) new).
Proof.
  intros Hb. unfold build in Hb.
  unfold bind at 1 in Hb.
  assert (Hfrag : exists r, (match fragment with
                             | IsFragment f => ret f
                             | HasGetFragment get_fragment => lift get_fragment
                             end) w = (r, w)).
  { destruct fragment; eexists; reflexivity. }
  assert (Hnone : forall (new : list event) (e : exn),
             no_script new ->
             (forall f c, In (WriteFile f c (Some false)) new ->
                exists header trailer,
                  f = "build_" ++ bn ++ script_ext_of h /\
                  c = header ++ nl
                      ++ translate_line bn
                           (ngdbuild_opt (self_obj w) ++ "-p " ++ device platform) "edif"
                      ++ map_line bn (map_opt (self_obj w))
                      ++ par_line bn (par_opt (self_obj w))
                      ++ bitgen_line bn (bitgen_opt (self_obj w))
                      ++ trailer) /\
             (forall v : option NS, inl e = inr v ->
                exists f c, In (WriteFile f c (Some false)) new)).
  { intros new e Hq. split; [|discriminate].
    intros f c Hin. now apply Hq in Hin. }
  destruct Hfrag as [[e|f] Hf]; rewrite Hf in Hb; clear Hf.
  { injection Hb as <- <-. exists []. rewrite app_nil_r.
    split; [reflexivity | apply Hnone, no_script_nil]. }
  unfold bind at 1 in Hb. unfold lift at 1 in Hb.
  destruct (finalize platform f) as [e|u].
  { injection Hb as <- <-. exists []. rewrite app_nil_r.
    split; [reflexivity | apply Hnone, no_script_nil]. }
  unfold bind at 1 in Hb. unfold get_self at 1 in Hb.
  unfold bind at 1 in Hb. unfold mkdir_noerror, emit in Hb.
  unfold bind at 1 in Hb. unfold getcwd at 1 in Hb. cbn [cwd log] in Hb.
  unfold bind at 1 in Hb. unfold chdir at 1 in Hb. cbn [cwd log] in Hb.
  destruct (os_chdir h (cwd w) bd) as [e|c].
  { injection Hb as <- <-. exists [Mkdir bd]. split; [reflexivity|].
    apply Hnone, no_script_one. discriminate. }
  unfold bind at 1 in Hb. unfold try_finally in Hb.
  match type of Hb with context [build_body ?a ?b ?c ?d ?e ?f ?g ?h ?i ?j ?k ?l ?m ?w] =>
    destruct (build_body a b c d e f g h i j k l m w) as [rb w3] eqn:Hbody end.
  apply build_body_yosys in Hbody.
  destruct Hbody as (Hself & newb & Htb & Hscript & Hdone).
  cbn [trace log set_cwd self_obj l_ngdbuild_opt] in Htb, Hscript.
  assert (Hpre : no_script [Mkdir bd; Chdir bd]).
  { intros f' c' [H|[H|[]]]; discriminate H. }
  assert (Hshape : forall tail, no_script tail ->
            forall f' c', In (WriteFile f' c' (Some false))
                            ([Mkdir bd; Chdir bd] ++ newb ++ tail)%list ->
              exists header trailer,
                f' = "build_" ++ bn ++ script_ext_of h /\
                c' = header ++ nl
                     ++ translate_line bn
                          (ngdbuild_opt (self_obj w) ++ "-p " ++ device platform) "edif"
                     ++ map_line bn (map_opt (self_obj w))
                     ++ par_line bn (par_opt (self_obj w))
                     ++ bitgen_line bn (bitgen_opt (self_obj w))
                     ++ trailer).
  { intros tail Htail f' c' Hin.
    apply in_app_or in Hin. destruct Hin as [Hin|Hin]; [now apply Hpre in Hin|].
    apply in_app_or in Hin. destruct Hin as [Hin|Hin]; [|now apply Htail in Hin].
    exact (Hscript f' c' Hin). }
  unfold chdir in Hb.
  destruct (os_chdir h (cwd w3) (cwd w)) as [e|c'].
  - injection Hb as <- <-.
    exists ([Mkdir bd; Chdir bd] ++ newb ++ [])%list. split.
    { rewrite Htb, app_nil_r, <- !app_assoc. reflexivity. }
    split; [apply Hshape, no_script_nil | discriminate].
  - assert (Hr : r = match rb with inl e => inl e | inr a => inr (vns a) end /\
                 w' = log (Chdir (cwd w)) (set_cwd c' w3)).
    { destruct rb; injection Hb as <- <-; now split. }
    destruct Hr as [-> ->]. clear Hb.
    exists ([Mkdir bd; Chdir bd] ++ newb ++ [Chdir (cwd w)])%list.
    cbn [trace log set_cwd]. split.
    { rewrite Htb, <- !app_assoc. reflexivity. }
    split.
    + apply Hshape, no_script_one. discriminate.
    + intros v Hv. destruct rb as [e|l']; [discriminate Hv|].
      destruct (Hdone l' eq_refl) as (f' & c'' & Hin).
      exists f', c''. apply in_or_app. right. apply in_or_app. now left.
Qed.

End YosysMode.

(** C3. Both external runs check the exit status right after the process
    comes back: [_run_yosys] and [_run_ise] end in what [exit_check] makes
    of the outcome, the call being their last effect; [exit_check] lets
    status 0 through and turns every other status into the external-tool
    failure. In [build], a process that exits with a non-zero status is
    followed by no further stage: only the return to the starting
    directory comes after it, and [build] raises the failure. *)
Theorem external_tool_failure_aborts_build :
  (forall h device sources vincpaths bn w,
     exists contents,
       let ys_name := bn ++ ".ys" in
       let w1 := log (WriteFile ys_name contents None) w in
       let out := host_call h ["yosys"; ys_name] w1 in
       _run_yosys h device sources vincpaths bn w
       = (exit_check out, log (Call ["yosys"; ys_name] out) w1)) /\
  (forall h bn ise_path source mode ngd bitgen cmds map par ver w,
     (exists e, _run_ise h bn ise_path source mode ngd bitgen cmds map par ver w
                = (inl e, w)) \/
     (exists script,
        let file := "build_" ++ bn ++ script_ext_of h in
        let w1 := log (WriteFile file script (Some false)) w in
        let cmd := (shell_of h ++ [file])%list in
        let out := host_call h cmd w1 in
        _run_ise h bn ise_path source mode ngd bitgen cmds map par ver w
        = (exit_check out, log (Call cmd out) w1))) /\
  (exit_check (inr 0%Z) = inr tt /\
   forall st, st <> 0%Z ->
     exit_check (inr st) = inl (OSError "Subprocess failed")) /\
  (forall Fragment NS IOSignals h mist
          (platform : Platform Fragment NS IOSignals)
          fragment bd bn tp source run mode w,
     exists new,
       trace (snd (build Fragment NS IOSignals h mist platform fragment bd bn tp
                     source run mode w)) = (trace w ++ new)%list /\
       build_failfast (cwd w)
         (fst (build Fragment NS IOSignals h mist platform fragment bd bn tp
                 source run mode w)) new).
Proof.
  split; [|split; [|split]].
  - intros. eexists. apply run_yosys_spec.
  - intros.
    pose proof (run_ise_spec h bn ise_path source mode ngd bitgen cmds map par ver w)
      as Hspec.
    destruct (rbind (script_header h ise_path source ver) _) as [e|header];
      [now left|].
    destruct (str_format cmds [] _) as [e|trailer]; [now left|].
    right. eexists. exact Hspec.
  - split; [reflexivity|].
    intros st Hst. cbn [exit_check].
    now destruct (Z.eqb_spec st 0).
  - intros.
    apply (build_is_failfast Fragment NS IOSignals h mist platform fragment bd bn
             tp source run mode w).
    apply surjective_pairing.
Qed.

(* ================================================================== *)
(** * Runs on the sample host *)
(* ================================================================== *)

(** The open-synthesizer mode when every process exits with 0: the
    effects, in order. *)
Example yosys_mode_run :
  build unit unit unit (posix_host all_pass) no_mist demo_platform
    (IsFragment tt) "build" "top" None None true "yosys" demo_world
  = (inr (Some tt),
     {| cwd := "/home/user/design";
        self_obj := XilinxISEToolchain_init;
        trace :=
          [Mkdir "build"; Chdir "build"; WriteOutput "top.v";
           WriteFile "top.ys"
             ("read_verilog top.v" ++ nl
              ++ "hierarchy -check -top top" ++ nl
              ++ "proc; memory; opt; fsm; opt" ++ nl
              ++ "synth_xilinx -top top -edif top.edif") None;
           Call ["yosys"; "top.ys"] (inr 0%Z);
           WriteFile "top.ucf"
             ("NET " ++ dquote ++ "clk" ++ dquote
              ++ " LOC=P17 | IOSTANDARD=LVCMOS33; # clk:0" ++ nl) None;
           WriteFile "build_top.sh"
             ("# Autogenerated by Migen" ++ nl ++ "set -e" ++ nl
              ++ "source /opt/Xilinx/14.7/ISE_DS/settings64.sh" ++ nl
              ++ nl
              ++ "ngdbuild -p xc7a35t -uc top.ucf top.edif top.ngd" ++ nl
              ++ "map -ol high -w -o top_map.ncd top.ngd top.pcf" ++ nl
              ++ "par -ol high -w top_map.ncd top.ncd top.pcf" ++ nl
              ++ "bitgen -g Binary:Yes -w top.ncd top.bit" ++ nl)
             (Some false);
           Call ["bash"; "build_top.sh"] (inr 0%Z);
           Chdir "/home/user/design"] |}).
Proof. vm_compute. reflexivity. Qed.

(** The same build when the open synthesizer exits with 1. *)
Example yosys_failure_run :
  build unit unit unit (posix_host yosys_fails) no_mist demo_platform
    (IsFragment tt) "build" "top" None None true "yosys" demo_world
  = (inl (OSError "Subprocess failed"),
     {| cwd := "/home/user/design";
        self_obj := XilinxISEToolchain_init;
        trace :=
          [Mkdir "build"; Chdir "build"; WriteOutput "top.v";
           WriteFile "top.ys"
             (ys_script [("top.v", "verilog", "work")] [] "top") None;
           Call ["yosys"; "top.ys"] (inr 1%Z);
           Chdir "/home/user/design"] |}).
Proof. vm_compute. reflexivity. Qed.

(** The native mode: the build script has the synthesis invocation and
    feeds the translate stage the [ngc] netlist. *)
Example native_mode_script :
  In (WriteFile "build_top.sh"
        ("# Autogenerated by Migen" ++ nl ++ "set -e" ++ nl
         ++ "source /opt/Xilinx/14.7/ISE_DS/settings64.sh" ++ nl
         ++ nl
         ++ "xst -ifn top.xst" ++ nl
         ++ nl
         ++ "ngdbuild  -uc top.ucf top.ngc top.ngd" ++ nl
         ++ "map -ol high -w -o top_map.ncd top.ngd top.pcf" ++ nl
         ++ "par -ol high -w top_map.ncd top.ncd top.pcf" ++ nl
         ++ "bitgen -g Binary:Yes -w top.ncd top.bit" ++ nl)
        (Some false))
     (trace (snd (build unit unit unit (posix_host all_pass) no_mist demo_platform
                    (IsFragment tt) "build" "top" None None true "xst"
                    demo_world))).
Proof. vm_compute. tauto. Qed.

Lemma external_tool_failure_aborts_build_witness :
  fst (build unit unit unit (posix_host yosys_fails) no_mist demo_platform
         (IsFragment tt) "build" "top" None None true "yosys" demo_world)
  = inl (OSError "Subprocess failed").
Proof.
  destruct (proj2 (proj2 (proj2 external_tool_failure_aborts_build))
              unit unit unit (posix_host yosys_fails) no_mist demo_platform
              (IsFragment tt) "build" "top" None None true "yosys" demo_world)
    as (new & Ht & Hff).
  refine (proj2 (proj2 (Hff
            [Mkdir "build"; Chdir "build"; WriteOutput "top.v";
             WriteFile "top.ys"
               (ys_script [("top.v", "verilog", "work")] [] "top") None]
            ["yosys"; "top.ys"] 1%Z [Chdir "/home/user/design"] _ _)) eq_refl).
  - apply (app_inv_head (trace demo_world)). rewrite <- Ht. vm_compute. reflexivity.
  - discriminate.
Defined.

Lemma build_restores_cwd_witness :
  cwd (snd (build unit unit unit (posix_host yosys_fails) no_mist demo_platform
              (IsFragment tt) "build" "top" None None true "yosys" demo_world))
  = cwd demo_world.
Proof.
  apply (build_restores_cwd unit unit unit (posix_host yosys_fails) no_mist
           demo_platform (IsFragment tt) "build" "top" None None true "yosys"
           demo_world).
  intros c. reflexivity.
Defined.

Lemma open_synthesizer_feeds_edif_witness :
  exists new,
    trace (snd (build unit unit unit (posix_host all_pass) no_mist demo_platform
                  (IsFragment tt) "build" "top" None None true "yosys"
                  demo_world)) = (trace demo_world ++ new)%list /\
    (forall f c, In (WriteFile f c (Some false)) new ->
       exists header trailer,
         f = "build_top.sh" /\
         c = header ++ nl
             ++ translate_line "top"
                  (ngdbuild_opt (self_obj demo_world) ++ "-p "
                   ++ device demo_platform) "edif"
             ++ map_line "top" (map_opt (self_obj demo_world))
             ++ par_line "top" (par_opt (self_obj demo_world))
             ++ bitgen_line "top" (bitgen_opt (self_obj demo_world))
             ++ trailer) /\
    (forall v : option unit, @inr exn (option unit) (Some tt) = inr v ->
       exists f c, In (WriteFile f c (Some false)) new).
Proof.
  apply (open_synthesizer_feeds_edif unit unit unit (posix_host all_pass) no_mist
           demo_platform (IsFragment tt) "build" "top" None None demo_world
           (inr (Some tt))).
  vm_compute. reflexivity.
Defined.

(* ================================================================== *)
(** * More on the constraint file *)
(* ================================================================== *)

Section UcfCompose.
Variable P : string -> list string.

Lemma enumerate_loop_acc sig others resname pins :
  forall i r,
    enumerate_loop P sig i pins others resname r =
    (x <- enumerate_loop P sig i pins others resname "" ;; inr (r ++ x))%result.
Proof.
  induction pins as [|p pins IH]; intros i r; cbn [enumerate_loop].
  - cbn [rbind]. now rewrite str_app_nil_r.
  - destruct (_format_ucf P _ p others resname) as [e|line]; cbn [rbind];
      [reflexivity|].
    rewrite IH. rewrite (IH (S i) ("" ++ line)).
    destruct (enumerate_loop P sig (S i) pins others resname ""); cbn [rbind];
      [reflexivity|].
    cbn [append]. now rewrite str_app_assoc.
Qed.

Lemma build_ucf_step_acc r sc :
  build_ucf_step P r sc =
  (x <- build_ucf_step P "" sc ;; inr (r ++ x))%result.
Proof.
  destruct sc as [[[sig pins] others] resname]. unfold build_ucf_step.
  destruct (1 <? length pins)%nat.
  - apply enumerate_loop_acc.
  - destruct pins as [|p0 ?]; [reflexivity|].
    now destruct (_format_ucf P sig p0 others resname).
Qed.

Lemma build_ucf_loop_acc named_sc :
  forall r,
    build_ucf_loop P named_sc r =
    (x <- build_ucf_loop P named_sc "" ;; inr (r ++ x))%result.
Proof.
  induction named_sc as [|sc rest IH]; intros r; cbn [build_ucf_loop].
  - cbn [rbind]. now rewrite str_app_nil_r.
  - rewrite build_ucf_step_acc.
    destruct (build_ucf_step P "" sc) as [e|x]; cbn [rbind]; [reflexivity|].
    rewrite IH. rewrite (IH x).
    destruct (build_ucf_loop P rest ""); cbn [rbind]; [reflexivity|].
    now rewrite str_app_assoc.
Qed.

Lemma build_ucf_loop_app a b :
  forall r,
    build_ucf_loop P (a ++ b) r =
    (x <- build_ucf_loop P a r ;; build_ucf_loop P b x)%result.
Proof.
  induction a as [|sc a IH]; intros r; cbn [build_ucf_loop app].
  - reflexivity.
  - destruct (build_ucf_step P r sc); cbn [rbind]; [reflexivity | apply IH].
Qed.

(** X1. The constraint file of a list of named signal constraints in two
    parts is the constraint file of the first part without platform
    commands, followed by the constraint file of the second part with
    the platform commands; an error of the first part comes first. *)
Theorem build_ucf_app a b named_pc :
  _build_ucf P (a ++ b) named_pc =
  (ra <- _build_ucf P a [] ;;
   rb <- _build_ucf P b named_pc ;;
   inr (ra ++ rb))%result.
Proof.
  unfold _build_ucf. rewrite build_ucf_loop_app.
  destruct (build_ucf_loop P a "") as [e|ra]; cbn [rbind]; [reflexivity|].
  rewrite build_ucf_loop_acc.
  destruct (build_ucf_loop P b "") as [e|rb]; cbn [rbind]; [reflexivity|].
  destruct named_pc; [reflexivity|]. now rewrite str_app_assoc.
Qed.

End UcfCompose.

Lemma str_app_inv_head (a x y : string) : a ++ x = a ++ y -> x = y.
Proof.
  induction a as [|c a IH]; cbn [append]; intros H; [exact H|].
  injection H as H. now apply IH.
Qed.

Lemma str_app_inv_tail_char (x y : string) (c : ascii) :
  x ++ String c "" = y ++ String c "" -> x = y.
Proof.
  revert y. induction x as [|a x IH]; intros [|b y] H; cbn [append] in H.
  - reflexivity.
  - injection H as _ H. destruct y; discriminate H.
  - injection H as _ H. destruct x; discriminate H.
  - injection H as -> H. f_equal. now apply IH.
Qed.

Lemma to_uint_nonnil n : Nat.to_uint n <> Decimal.Nil.
Proof.
  intros H. pose proof (Unsigned.of_to n) as Hn.
  pose proof (Unsigned.to_of (Nat.to_uint n)) as Hu.
  rewrite Hn in Hu. rewrite H in Hu at 2. cbn in Hu. rewrite H in Hu. discriminate Hu.
Qed.

Lemma str_nat_injective i j : str_nat i = str_nat j -> i = j.
Proof.
  unfold str_nat. intros H.
  pose proof (NilZero.usu (Nat.to_uint i) (to_uint_nonnil i)) as Hi.
  pose proof (NilZero.usu (Nat.to_uint j) (to_uint_nonnil j)) as Hj.
  rewrite H in Hi. rewrite Hi in Hj. injection Hj as Hj.
  rewrite <- (Unsigned.of_to i), <- (Unsigned.of_to j). now rewrite Hj.
Qed.

(** X2. The nets of two bits of a signal have the same name only when
    the bits are the same: the decimal index between the parentheses
    tells them apart. *)
Theorem net_name_distinguishes_bits sig i j :
  (net_name sig i =? net_name sig j)%string = (i =? j)%nat.
Proof.
  destruct (Nat.eqb_spec i j) as [->|Hne].
  - apply String.eqb_refl.
  - apply String.eqb_neq. intros H. apply Hne. unfold net_name in H.
    apply str_app_inv_head in H. apply (str_app_inv_head "(") in H.
    apply str_app_inv_tail_char in H. now apply str_nat_injective.
Qed.

(* ================================================================== *)
(** * More on the script generators *)
(* ================================================================== *)

Lemma prj_loop_map sources :
  forall acc, prj_loop sources acc = acc ++ concat_lines (map prj_line sources).
Proof.
  induction sources as [|[[filename language] library] rest IH]; intros acc;
    cbn [prj_loop map concat_lines].
  - now rewrite str_app_nil_r.
  - rewrite IH. unfold prj_line. now rewrite !str_app_assoc.
Qed.

Lemma vlgincdir_loop_map vincpaths :
  forall acc,
    vlgincdir_loop vincpaths acc
    = acc ++ concat_lines (map vlgincdir_line vincpaths).
Proof.
  induction vincpaths as [|p ps IH]; intros acc;
    cbn [vlgincdir_loop map concat_lines].
  - now rewrite str_app_nil_r.
  - rewrite IH. unfold vlgincdir_line. now rewrite !str_app_assoc.
Qed.

(** X3. [_build_xst_files] never raises and writes two files, in this
    order: the manifest [<name>.prj] with one line [language library
    filename] per source, in the order of the sources, and the run script
    [<name>.xst] with the options block, the output [<name>.ngc] and the
    device, then one [-vlgincdir] line per include path. Braces in the
    arguments are kept as they are. *)
Theorem build_xst_files_writes device sources vincpaths bn xo w :
  _build_xst_files device sources vincpaths bn xo w
  = (inr tt,
     log (WriteFile (bn ++ ".xst")
            (xst_script device bn xo
             ++ concat_lines (map vlgincdir_line vincpaths)) None)
       (log (WriteFile (bn ++ ".prj")
               (concat_lines (map prj_line sources)) None) w)).
Proof.
  unfold _build_xst_files.
  unfold bind at 1. unfold write_to_file at 1, emit at 1.
  unfold bind at 1. unfold lift at 1. rewrite xst_rendered.
  rewrite prj_loop_map, vlgincdir_loop_map. reflexivity.
Qed.

Lemma incflags_loop_map vincpaths :
  forall acc,
    incflags_loop vincpaths acc
    = acc ++ concat_lines (map (fun p => " -I" ++ p) vincpaths).
Proof.
  induction vincpaths as [|p ps IH]; intros acc;
    cbn [incflags_loop map concat_lines].
  - now rewrite str_app_nil_r.
  - rewrite IH. now rewrite !str_app_assoc.
Qed.

Lemma ys_reads_map sources incflags :
  ys_reads sources incflags = concat_lines (map (ys_read_line incflags) sources).
Proof.
  induction sources as [|[[filename language] library] rest IH];
    cbn [ys_reads map concat_lines]; [reflexivity|].
  rewrite IH. unfold ys_read_line. now rewrite !str_app_assoc.
Qed.

(** X4. [_run_yosys] writes [<name>.ys], made of one read directive per
    source, each with a [-I] flag for every include path, and of the three
    fixed passes; it then starts [yosys <name>.ys] and ends in the exit
    check of that process. It raises nothing before the process. *)
Theorem run_yosys_script h device sources vincpaths bn w :
  let incflags := concat_lines (map (fun p => " -I" ++ p) vincpaths) in
  let script :=
    concat_lines (map (ys_read_line incflags) sources) ++ ys_passes bn in
  let w1 := log (WriteFile (bn ++ ".ys") script None) w in
  let out := host_call h ["yosys"; bn ++ ".ys"] w1 in
  _run_yosys h device sources vincpaths bn w
  = (exit_check out, log (Call ["yosys"; bn ++ ".ys"] out) w1).
Proof.
  cbv zeta. rewrite run_yosys_spec. unfold ys_script, ys_passes.
  rewrite ys_reads_map, incflags_loop_map. cbn [append].
  now rewrite ?str_app_assoc.
Qed.

Lemma format_from_literal args kw num s :
  no_brace s = true -> format_from args kw num None s = inr s.
Proof.
  induction s as [|c s IH]; cbn [no_brace format_from]; [reflexivity|].
  intros H. apply andb_true_iff in H. destruct H as [H Hs].
  apply andb_true_iff in H. destruct H as [Hl Hr].
  apply negb_true_iff in Hl, Hr. rewrite Hl, Hr, (IH Hs). reflexivity.
Qed.

Lemma no_brace_app a b : no_brace (a ++ b) = no_brace a && no_brace b.
Proof.
  induction a as [|c a IH]; cbn [append no_brace]; [reflexivity|].
  now rewrite IH, andb_assoc.
Qed.

Lemma no_brace_uint d : no_brace (NilEmpty.string_of_uint d) = true.
Proof. induction d; cbn; assumption || reflexivity. Qed.

Lemma no_brace_str_int z : no_brace (str_int z) = true.
Proof.
  unfold str_int. destruct (Z.to_int z) as [d|d]; cbn [NilZero.string_of_int].
  - unfold NilZero.string_of_uint. destruct d; solve [reflexivity | apply no_brace_uint].
  - cbn [no_brace]. unfold NilZero.string_of_uint.
    destruct d; solve [reflexivity | apply no_brace_uint].
Qed.

(** X5. When the top of the script (the banner and the settings line)
    and the trailing commands hold no brace, [_run_ise] raises nothing
    before the process: it writes the build script, which is that top, the
    stage invocations with the option strings as given, and the trailing
    commands unchanged, then starts the shell on it and ends in the exit
    check. *)
Theorem run_ise_plain_text h bn ise_path source mode ngd bitgen cmds map par ver w
    header :
  script_header h ise_path source ver = inr header ->
  no_brace header = true ->
  no_brace cmds = true ->
  let file := "build_" ++ bn ++ script_ext_of h in
  let w1 := log (WriteFile file
                   (pipeline_script header bn mode ngd map par bitgen cmds)
                   (Some false)) w in
  let cmd := (shell_of h ++ [file])%list in
  _run_ise h bn ise_path source mode ngd bitgen cmds map par ver w
  = (exit_check (host_call h cmd w1), log (Call cmd (host_call h cmd w1)) w1).
Proof.
  intros Hh Hbrace Hcmds.
  pose proof (run_ise_spec h bn ise_path source mode ngd bitgen cmds map par ver w)
    as Hspec.
  rewrite Hh in Hspec. cbn [rbind] in Hspec.
  unfold str_format in Hspec at 1 2.
  rewrite (format_from_literal _ _ _ _ Hbrace) in Hspec.
  rewrite (format_from_literal _ _ _ _ Hcmds) in Hspec.
  exact Hspec.
Qed.

(* ================================================================== *)
(** * The timing constraints *)
(* ================================================================== *)

(** X6. The platform command of [add_period_constraint], rendered with
    the name of the clock, binds the timing group [PRD<name>] to the net
    and gives it the period in decimal, whatever the name (braces in it
    are not read again) and whatever the integer period. *)
Theorem period_constraint_renders {Sig : Type} (name_of : Sig -> string)
    (clk : Sig) (period : Z) :
  render_command name_of (add_period_constraint clk period)
  = inr (nl ++ "NET " ++ dquote ++ name_of clk ++ dquote ++ " TNM_NET = "
         ++ dquote ++ "PRD" ++ name_of clk ++ dquote ++ ";" ++ nl
         ++ "TIMESPEC " ++ dquote ++ "TS" ++ name_of clk ++ dquote
         ++ " = PERIOD " ++ dquote ++ "PRD" ++ name_of clk ++ dquote ++ " "
         ++ str_int period ++ " ns HIGH 50%;" ++ nl).
Proof.
  unfold render_command, add_period_constraint. cbn [fst snd map].
  set (head := nl ++ "NET " ++ dquote ++ "{clk}" ++ dquote ++ " TNM_NET = "
               ++ dquote ++ "PRD{clk}" ++ dquote ++ ";" ++ nl
               ++ "TIMESPEC " ++ dquote ++ "TS{clk}" ++ dquote ++ " = PERIOD "
               ++ dquote ++ "PRD{clk}" ++ dquote ++ " ").
  assert (Hhead : str_format head [] [("clk", name_of clk)]
                  = inr (nl ++ "NET " ++ dquote ++ name_of clk ++ dquote
                         ++ " TNM_NET = " ++ dquote ++ "PRD" ++ name_of clk
                         ++ dquote ++ ";" ++ nl
                         ++ "TIMESPEC " ++ dquote ++ "TS" ++ name_of clk ++ dquote
                         ++ " = PERIOD " ++ dquote ++ "PRD" ++ name_of clk
                         ++ dquote ++ " ")).
  { unfold head. reflexivity. }
  assert (Htail : str_format (str_int period ++ " ns HIGH 50%;" ++ nl) []
                    [("clk", name_of clk)]
                  = inr (str_int period ++ " ns HIGH 50%;" ++ nl)).
  { apply format_from_literal. rewrite no_brace_app, no_brace_str_int. reflexivity. }
  replace (nl ++ "NET " ++ dquote ++ "{clk}" ++ dquote ++ " TNM_NET = "
           ++ dquote ++ "PRD{clk}" ++ dquote ++ ";" ++ nl
           ++ "TIMESPEC " ++ dquote ++ "TS{clk}" ++ dquote ++ " = PERIOD "
           ++ dquote ++ "PRD{clk}" ++ dquote ++ " "
           ++ str_int period ++ " ns HIGH 50%;" ++ nl)
    with (head ++ (str_int period ++ " ns HIGH 50%;" ++ nl))
    by (unfold head; rewrite ?str_app_assoc; reflexivity).
  rewrite (format_app _ _ _ _ Hhead), Htail. cbn [rbind].
  rewrite ?str_app_assoc. reflexivity.
Qed.

(** The scenario of the specification. *)
Example period_constraint_scenario :
  exists before between after,
    render_command (fun s : string => s) (add_period_constraint "sys_clk" 10)
    = inr (before ++ "TNM_NET = " ++ dquote ++ "PRDsys_clk" ++ dquote
           ++ between
           ++ "PERIOD " ++ dquote ++ "PRDsys_clk" ++ dquote ++ " 10 ns HIGH 50%"
           ++ after).
Proof.
  exists (nl ++ "NET " ++ dquote ++ "sys_clk" ++ dquote ++ " "),
         (";" ++ nl ++ "TIMESPEC " ++ dquote ++ "TSsys_clk" ++ dquote ++ " = "),
         (";" ++ nl).
  vm_compute. reflexivity.
Qed.

(** X7. The platform command of [add_false_path_constraint], rendered
    with the names of the two nets, gives each net its own timing group
    [TIG<name>] and ignores the paths from the group of [from_] to the
    group of [to], in that direction. *)
Theorem false_path_constraint_renders {Sig : Type} (name_of : Sig -> string)
    (from_ to : Sig) :
  render_command name_of (add_false_path_constraint from_ to)
  = inr (nl ++ "NET " ++ dquote ++ name_of from_ ++ dquote ++ " TNM_NET = "
         ++ dquote ++ "TIG" ++ name_of from_ ++ dquote ++ ";" ++ nl
         ++ "NET " ++ dquote ++ name_of to ++ dquote ++ " TNM_NET = "
         ++ dquote ++ "TIG" ++ name_of to ++ dquote ++ ";" ++ nl
         ++ "TIMESPEC " ++ dquote ++ "TS" ++ name_of from_ ++ "TO" ++ name_of to
         ++ dquote ++ " = FROM " ++ dquote ++ "TIG" ++ name_of from_ ++ dquote
         ++ " TO " ++ dquote ++ "TIG" ++ name_of to ++ dquote ++ " TIG;" ++ nl).
Proof.
  unfold render_command, add_false_path_constraint. cbn [fst snd map].
  reflexivity.
Qed.

(* ================================================================== *)
(** * More on [build] *)
(* ================================================================== *)

(** ** Effects of one kind *)

Section Only.
Variable E : event -> Prop.

Lemma only_bind {A B} (m : M A) (k : A -> M B) :
  only E m -> (forall a, only E (k a)) -> only E (bind m k).
Proof.
  intros Hm Hk w. unfold bind. destruct (Hm w) as (new1 & Ht1 & Hn1).
  destruct (m w) as [[e|a] w1]; cbn [snd] in *.
  - now exists new1.
  - destruct (Hk a w1) as (new2 & Ht2 & Hn2).
    exists (new1 ++ new2)%list. split.
    + now rewrite Ht2, Ht1, app_assoc.
    + apply Forall_app. now split.
Qed.

Lemma only_silent {A} (m : M A) :
  (forall w, trace (snd (m w)) = trace w) -> only E m.
Proof.
  intros H w. exists []. rewrite H, app_nil_r. split; [reflexivity | constructor].
Qed.

Lemma only_ret {A} (a : A) : only E (ret a).
Proof. now apply only_silent. Qed.

Lemma only_raise {A} e : only E (@raise A e).
Proof. now apply only_silent. Qed.

Lemma only_lift {A} (r : result A) : only E (lift r).
Proof. now apply only_silent. Qed.

Lemma only_getcwd : only E getcwd.
Proof. now apply only_silent. Qed.

Lemma only_get_self : only E get_self.
Proof. now apply only_silent. Qed.

Lemma only_emit e : E e -> only E (emit e).
Proof.
  intros He w. exists [e]. split; [reflexivity | now repeat constructor].
Qed.

Lemma only_chdir h d : E (Chdir d) -> only E (chdir h d).
Proof.
  intros He w. unfold chdir. destruct (os_chdir h (cwd w) d).
  - exists []. cbn. rewrite app_nil_r. split; [reflexivity | constructor].
  - exists [Chdir d]. split; [reflexivity | now repeat constructor].
Qed.

Lemma only_output_write {NS} (o : Output NS) f :
  E (WriteOutput f) -> only E (output_write o f).
Proof.
  intros He w. unfold output_write. destruct (write o f).
  - exists []. cbn. rewrite app_nil_r. split; [reflexivity | constructor].
  - exists [WriteOutput f]. split; [reflexivity | now repeat constructor].
Qed.

End Only.

Lemma only_try_finally E {A} (body : M A) fin :
  only E body -> only E fin -> only E (try_finally body fin).
Proof.
  intros Hb Hf w. unfold try_finally.
  destruct (Hb w) as (n1 & Ht1 & Hn1).
  destruct (body w) as [r w1]; cbn [snd] in Ht1.
  destruct (Hf w1) as (n2 & Ht2 & Hn2).
  destruct (fin w1) as [[e|u] w2]; cbn [snd] in *;
    (exists (n1 ++ n2)%list; split;
     [now rewrite Ht2, Ht1, app_assoc | apply Forall_app; now split]).
Qed.

Lemma only_call E h argv :
  (forall out, E (Call argv out)) -> only E (subprocess_call h argv).
Proof.
  intros He w. exists [Call argv (host_call h argv w)].
  split; [reflexivity | repeat constructor; apply He].
Qed.

Ltac only_step :=
  first
    [ apply only_ret | apply only_raise | apply only_lift
    | apply only_getcwd | apply only_get_self
    | apply only_emit | apply only_chdir | apply only_output_write
    | apply only_call; intros
    | apply only_try_finally
    | apply only_bind; [|intros] ].

(** ** Taking statements and [build] apart *)

Lemma bind_inr {A B} (m : M A) (k : A -> M B) w b w' :
  bind m k w = (inr b, w') ->
  exists a w1, m w = (inr a, w1) /\ k a w1 = (inr b, w').
Proof.
  unfold bind. destruct (m w) as [[e|a] w1]; [discriminate|].
  intros H. now exists a, w1.
Qed.

Lemma lift_inr {A} (r : result A) w a w' :
  lift r w = (inr a, w') -> r = inr a /\ w' = w.
Proof. unfold lift. destruct r; [discriminate|]. intros H. now injection H as -> ->. Qed.

Lemma ret_inr {A} (a b : A) w w' :
  ret a w = (inr b, w') -> b = a /\ w' = w.
Proof. unfold ret. intros H. now injection H as -> ->. Qed.

Lemma mode_kind_cases mode :
  (mode = "xst" /\ mode_kind mode = NativeSynth) \/
  (mode = "yosys" /\ mode_kind mode = OpenSynth) \/
  (mode = "mist" /\ mode_kind mode = ExternalFlow) \/
  (mode = "edif" /\ mode_kind mode = PrecompiledNetlist) \/
  ((mode =? "xst")%string = false /\ (mode =? "yosys")%string = false /\
   (mode =? "mist")%string = false /\ (mode =? "edif")%string = false /\
   mode_kind mode = UnknownMode).
Proof.
  unfold mode_kind.
  destruct (String.eqb_spec mode "xst") as [->|_]; [now left|].
  destruct (String.eqb_spec mode "yosys") as [->|_]; [now right; left|].
  destruct (String.eqb_spec mode "mist") as [->|_]; [now right; right; left|].
  destruct (String.eqb_spec mode "edif") as [->|_]; [now right; right; right; left|].
  right; right; right; right. now repeat split.
Qed.

Ltac eval_tests H :=
  repeat match type of H with
         | context [(?a =? ?b)%string] =>
             let v := eval vm_compute in (a =? b)%string in
             change ((a =? b)%string) with v in H
         end;
  cbn [orb] in H.

Ltac inv_bind H a w H1 :=
  apply bind_inr in H; destruct H as (a & w & H1 & H).

Section BuildStructure.

Variables Fragment NS IOSignals : Type.
Variable h : Host.
Variable mist : result (Fragment -> IOSignals -> result unit).
Variable platform : Platform Fragment NS IOSignals.

Lemma build_body_split fragment bn tp source run mode l w :
  build_body Fragment NS IOSignals h mist platform fragment bn tp source run mode l w
  = bind (build_prefix Fragment NS IOSignals h mist platform fragment bn mode l)
      (build_tail NS h bn tp source run) w.
Proof.
  unfold build_body, build_prefix, build_tail, bind.
  destruct (verilog_step _ _ _ _ _ _ _ _ _ w) as [[e|l1] w1]; [reflexivity|].
  destruct (mist_step _ _ _ _ _ _ _ w1) as [[e|u] w2]; [reflexivity|].
  destruct (edif_step _ _ _ _ _ _ _ _ w2) as [[e|l2] w3]; reflexivity.
Qed.

(** [build], taken apart: it stops before the [try] block, or runs the
    block and then returns to the starting directory. *)
Lemma build_inv fragment bd bn tp source run mode w r w' :
  build Fragment NS IOSignals h mist platform fragment bd bn tp source run mode w
  = (r, w') ->
  (exists e, r = inl e /\
     (w' = w \/ w' = log (Mkdir bd) w)) \/
  (exists f c rb wb,
     fragment_of fragment = inr f /\
     finalize platform f = inr tt /\
     os_chdir h (cwd w) bd = inr c /\
     build_body Fragment NS IOSignals h mist platform f bn
       (toolchain_path_of h tp) (source_of h source) run mode
       (initial_locals NS (self_obj w))
       (log (Chdir bd) (set_cwd c (log (Mkdir bd) w))) = (rb, wb) /\
     ((exists e, os_chdir h (cwd wb) (cwd w) = inl e /\ r = inl e /\ w' = wb) \/
      (exists c', os_chdir h (cwd wb) (cwd w) = inr c' /\
         r = match rb with inl e => inl e | inr l' => inr (vns l') end /\
         w' = log (Chdir (cwd w)) (set_cwd c' wb)))).
Proof.
  intros Hb. unfold build in Hb.
  unfold bind at 1 in Hb.
  assert (Hfrag : (match fragment with
                   | IsFragment f => ret f
                   | HasGetFragment get_fragment => lift get_fragment
                   end) w = (fragment_of fragment, w)).
  { destruct fragment; reflexivity. }
  rewrite Hfrag in Hb. clear Hfrag.
  destruct (fragment_of fragment) as [e|f] eqn:Hf.
  { injection Hb as <- <-. left. exists e. split; [reflexivity | now left]. }
  unfold bind at 1 in Hb. unfold lift at 1 in Hb.
  destruct (finalize platform f) as [e|[]] eqn:Hfin.
  { injection Hb as <- <-. left. exists e. split; [reflexivity | now left]. }
  unfold bind at 1 in Hb. unfold get_self at 1 in Hb.
  unfold bind at 1 in Hb. unfold mkdir_noerror, emit in Hb.
  unfold bind at 1 in Hb. unfold getcwd at 1 in Hb. cbn [cwd log] in Hb.
  unfold bind at 1 in Hb. unfold chdir at 1 in Hb. cbn [cwd log] in Hb.
  destruct (os_chdir h (cwd w) bd) as [e|c] eqn:Hcd.
  { injection Hb as <- <-. left. exists e. split; [reflexivity | now right]. }
  right. exists f, c.
  unfold bind at 1 in Hb. unfold try_finally in Hb.
  fold (toolchain_path_of h tp) in Hb. fold (source_of h source) in Hb.
  change {| vns := None; named := None; isemode := None;
            l_ngdbuild_opt := ngdbuild_opt (self_obj w) |}
    with (initial_locals NS (self_obj w)) in Hb.
  destruct (build_body Fragment NS IOSignals h mist platform f bn
              (toolchain_path_of h tp) (source_of h source) run mode
              (initial_locals NS (self_obj w))
              (log (Chdir bd) (set_cwd c (log (Mkdir bd) w))))
    as [rb wb] eqn:Hbody.
  exists rb, wb. split; [reflexivity|]. split; [exact Hfin|].
  split; [reflexivity|]. split; [reflexivity|].
  unfold chdir in Hb.
  destruct (os_chdir h (cwd wb) (cwd w)) as [e|c'].
  - injection Hb as <- <-. left. now exists e.
  - right. exists c'. split; [reflexivity|].
    destruct rb; injection Hb as <- <-; now split.
Qed.

End BuildStructure.

Section BuildModes.

Variables Fragment NS IOSignals : Type.
Variable h : Host.
Variable mist : result (Fragment -> IOSignals -> result unit).
Variable platform : Platform Fragment NS IOSignals.

Lemma keeps_self_build_prefix fragment bn mode l :
  keeps_self (build_prefix Fragment NS IOSignals h mist platform fragment bn mode l).
Proof.
  unfold build_prefix.
  apply keeps_self_bind; [apply keeps_self_verilog_step | intros].
  apply keeps_self_bind; [apply keeps_self_mist_step | intros].
  apply keeps_self_edif_step.
Qed.

Lemma quiet_build_prefix fragment bn mode l :
  quiet (build_prefix Fragment NS IOSignals h mist platform fragment bn mode l).
Proof.
  unfold build_prefix.
  apply quiet_bind; [apply quiet_verilog_step | intros].
  apply quiet_bind; [apply quiet_mist_step | intros].
  apply quiet_edif_step.
Qed.

(** The local variables after the design compiler's part of the [try]
    block, by mode. *)
Lemma build_prefix_locals fragment bn mode l w l2 w1 :
  build_prefix Fragment NS IOSignals h mist platform fragment bn mode l w
  = (inr l2, w1) ->
  match design_compiler platform (mode_kind mode),
        pipeline_input (mode_kind mode) (l_ngdbuild_opt l) (device platform) with
  | Some compile, Some (isemode', opt) =>
      exists o nm,
        compile fragment = inr o /\
        resolve_signals platform (ns o) = inr nm /\
        l2 = {| vns := Some (ns o); named := Some nm;
                isemode := Some isemode'; l_ngdbuild_opt := opt |}
  | _, _ => l2 = l /\ w1 = w
  end.
Proof.
  intros H. unfold build_prefix, verilog_step, mist_step, edif_step in H.
  destruct (mode_kind_cases mode)
    as [[-> ->]|[[-> ->]|[[-> ->]|[[-> ->]|(H1 & H2 & H3 & H4 & ->)]]]];
    cbn [design_compiler pipeline_input].
  - eval_tests H.
    inv_bind H l1 w2 Hv. inv_bind H u w3 Hm. apply ret_inr in Hm as [_ ->].
    apply ret_inr in H as [-> ->].
    inv_bind Hv o w3 Ho. apply lift_inr in Ho as [Ho ->].
    inv_bind Hv nm w3 Hn. apply lift_inr in Hn as [Hn ->].
    inv_bind Hv u1 w3 Hw. inv_bind Hv self w4 Hs. inv_bind Hv u2 w5 Hx.
    apply ret_inr in Hv as [-> _]. now exists o, nm.
  - eval_tests H.
    inv_bind H l1 w2 Hv. inv_bind H u w3 Hm. apply ret_inr in Hm as [_ ->].
    apply ret_inr in H as [-> ->].
    inv_bind Hv o w3 Ho. apply lift_inr in Ho as [Ho ->].
    inv_bind Hv nm w3 Hn. apply lift_inr in Hn as [Hn ->].
    inv_bind Hv u1 w3 Hw. inv_bind Hv u2 w5 Hx.
    apply ret_inr in Hv as [-> _]. now exists o, nm.
  - eval_tests H.
    inv_bind H l1 w2 Hv. apply ret_inr in Hv as [-> ->].
    inv_bind H u w3 Hm.
    inv_bind H o w4 Ho. apply lift_inr in Ho as [Ho ->].
    inv_bind H nm w4 Hn. apply lift_inr in Hn as [Hn ->].
    inv_bind H u1 w4 Hw.
    apply ret_inr in H as [-> _]. now exists o, nm.
  - eval_tests H.
    inv_bind H l1 w2 Hv. apply ret_inr in Hv as [-> ->].
    inv_bind H u w3 Hm. apply ret_inr in Hm as [_ ->].
    inv_bind H o w4 Ho. apply lift_inr in Ho as [Ho ->].
    inv_bind H nm w4 Hn. apply lift_inr in Hn as [Hn ->].
    inv_bind H u1 w4 Hw.
    apply ret_inr in H as [-> _]. now exists o, nm.
  - rewrite H1, H2, H3, H4 in H. cbn [orb] in H.
    inv_bind H l1 w2 Hv. apply ret_inr in Hv as [-> ->].
    inv_bind H u w3 Hm. apply ret_inr in Hm as [_ ->].
    now apply ret_inr in H as [-> ->].
Qed.

End BuildModes.

Section BuildDry.

Variables Fragment NS IOSignals : Type.
Variable h : Host.
Variable mist : result (Fragment -> IOSignals -> result unit).
Variable platform : Platform Fragment NS IOSignals.

Lemma only_dry_build_body fragment bn tp source mode l :
  only (dry_effect mode bn)
    (build_body Fragment NS IOSignals h mist platform fragment bn tp source
       false mode l).
Proof.
  unfold build_body, verilog_step, mist_step, edif_step, ucf_step, run_step,
    _build_xst_files, _run_yosys, write_to_file.
  destruct (String.eqb_spec mode "yosys") as [->|Hy].
  - cbn [String.eqb Ascii.eqb Bool.eqb orb andb].
    repeat first [only_step | split_cases | exact I | now split].
  - rewrite orb_false_r.
    destruct (mode =? "xst")%string;
      repeat first [only_step | split_cases | exact I].
Qed.

End BuildDry.

Section BuildExtras.

Variables Fragment NS IOSignals : Type.
Variable h : Host.
Variable mist : result (Fragment -> IOSignals -> result unit).
Variable platform : Platform Fragment NS IOSignals.

(** X8. With [run=False], [build] writes no build script, and starts no
    process except the open synthesizer on [<name>.ys] in mode
    ["yosys"]; this holds in every mode and on every exit. *)
Theorem build_without_run fragment bd bn tp source mode w :
  exists new,
    trace (snd (build Fragment NS IOSignals h mist platform fragment bd bn tp source false mode w))
    = (trace w ++ new)%list /\
    Forall (dry_effect mode bn) new.
Proof.
  revert w. change (only (dry_effect mode bn) (build Fragment NS IOSignals h mist platform fragment bd bn tp source false mode)).
  unfold build, mkdir_noerror.
  repeat first [ apply only_dry_build_body | only_step | exact I
               | match goal with |- only _ (match ?d with IsFragment _ => _ | HasGetFragment _ => _ end) => destruct d end ].
Qed.

(** ** The unknown mode *)

Lemma build_tail_unbound bn tp source run (l : Locals NS) w :
  named l = None ->
  build_tail NS h bn tp source run l w = (inl (UnboundLocalError "named_sc"), w).
Proof. intros Hn. unfold build_tail, ucf_step, bind. now rewrite Hn. Qed.

Lemma build_prefix_unknown fragment bn mode l w :
  mode_kind mode = UnknownMode ->
  build_prefix Fragment NS IOSignals h mist platform fragment bn mode l w = (inr l, w).
Proof.
  intros Hk.
  destruct (mode_kind_cases mode)
    as [[_ H]|[[_ H]|[[_ H]|[[_ H]|(H1 & H2 & H3 & H4 & _)]]]];
    try (rewrite Hk in H; discriminate H).
  unfold build_prefix, verilog_step, mist_step, edif_step.
  rewrite H1, H2, H3, H4. reflexivity.
Qed.

(** X9. In a mode other than ["xst"], ["yosys"], ["mist"] and ["edif"],
    [build] always raises. It writes no file and starts no process: its
    effects are at most the creation of the build directory, the change
    into it and the change back. When it came back to the starting
    directory, what it raises is the unbound local variable [named_sc]. *)
Theorem build_unknown_mode fragment bd bn tp source run mode w r w' :
  mode_kind mode = UnknownMode ->
  build Fragment NS IOSignals h mist platform fragment bd bn tp source run mode w = (r, w') ->
  exists e,
    r = inl e /\
    (trace w' = trace w \/
     trace w' = (trace w ++ [Mkdir bd])%list \/
     trace w' = (trace w ++ [Mkdir bd; Chdir bd])%list \/
     (trace w' = (trace w ++ [Mkdir bd; Chdir bd; Chdir (cwd w)])%list /\
      e = UnboundLocalError "named_sc")).
Proof.
  intros Hk Hb. apply build_inv in Hb.
  destruct Hb as [(e & -> & [-> | ->]) | (f & c & rb & wb & _ & _ & _ & Hbody & Hb)].
  { exists e. split; [reflexivity | now left]. }
  { exists e. split; [reflexivity | right; now left]. }
  rewrite build_body_split in Hbody. unfold bind in Hbody.
  rewrite (build_prefix_unknown _ _ _ _ _ Hk) in Hbody.
  rewrite build_tail_unbound in Hbody by reflexivity.
  injection Hbody as <- <-.
  destruct Hb as [(e & _ & -> & ->) | (c' & _ & -> & ->)].
  - exists e. split; [reflexivity|]. right; right; left.
    cbn [trace log set_cwd]. now rewrite <- app_assoc.
  - exists (UnboundLocalError "named_sc"). split; [reflexivity|].
    right; right; right. split; [|reflexivity].
    cbn [trace log set_cwd]. now rewrite <- !app_assoc.
Qed.

(** ** The pipeline by mode *)

Lemma run_step_script bn tp source (l : Locals NS) im w r w' :
  isemode l = Some im ->
  run_step NS h bn tp source true l w = (r, w') ->
  exists new,
    trace w' = (trace w ++ new)%list /\
    (forall f c, In (WriteFile f c (Some false)) new ->
       exists header trailer,
         f = "build_" ++ bn ++ script_ext_of h /\
         c = pipeline_script header bn im (l_ngdbuild_opt l)
               (map_opt (self_obj w)) (par_opt (self_obj w))
               (bitgen_opt (self_obj w)) trailer) /\
    (forall u, r = inr u -> exists f c, In (WriteFile f c (Some false)) new).
Proof.
  intros Him Hb. unfold run_step in Hb. rewrite Him in Hb.
  unfold bind at 1 in Hb. unfold get_self at 1 in Hb.
  pose proof (run_ise_spec h bn tp source im (l_ngdbuild_opt l)
                (bitgen_opt (self_obj w)) (ise_commands (self_obj w))
                (map_opt (self_obj w)) (par_opt (self_obj w)) None w) as Hise.
  assert (Hfail : (exists e, _run_ise h bn tp source im (l_ngdbuild_opt l)
                     (bitgen_opt (self_obj w)) (ise_commands (self_obj w))
                     (map_opt (self_obj w)) (par_opt (self_obj w)) None w
                   = (inl e, w)) ->
                  exists new, trace w' = (trace w ++ new)%list /\
                    (forall f c, In (WriteFile f c (Some false)) new ->
                       exists header trailer,
                         f = "build_" ++ bn ++ script_ext_of h /\
                         c = pipeline_script header bn im (l_ngdbuild_opt l)
                               (map_opt (self_obj w)) (par_opt (self_obj w))
                               (bitgen_opt (self_obj w)) trailer) /\
                    (forall u, r = inr u ->
                       exists f c, In (WriteFile f c (Some false)) new)).
  { intros [e He]. rewrite He in Hb. injection Hb as <- <-.
    exists []. rewrite app_nil_r. split; [reflexivity|].
    split; [intros f c []|discriminate]. }
  destruct (rbind (script_header h tp source None) _) as [e|header];
    [exact (Hfail Hise)|].
  destruct (str_format (ise_commands (self_obj w)) [] _) as [e|trailer];
    [exact (Hfail Hise)|].
  clear Hfail. cbv zeta in Hise. rewrite Hise in Hb. clear Hise.
  set (file := "build_" ++ bn ++ script_ext_of h) in *.
  set (script := pipeline_script header bn im (l_ngdbuild_opt l)
                   (map_opt (self_obj w)) (par_opt (self_obj w))
                   (bitgen_opt (self_obj w)) trailer) in *.
  set (out := host_call h (shell_of h ++ [file])%list _) in *.
  exists [WriteFile file script (Some false); Call (shell_of h ++ [file])%list out].
  injection Hb as _ <-.
  split; [|split].
  - cbn [trace log]. now rewrite <- app_assoc.
  - intros f c [Hin|[Hin|[]]]; [|discriminate Hin].
    injection Hin as <- <-. now exists header, trailer.
  - intros _ _. exists file, script. now left.
Qed.

Lemma build_tail_script bn tp source (l : Locals NS) im w r w' :
  isemode l = Some im ->
  build_tail NS h bn tp source true l w = (r, w') ->
  exists new,
    trace w' = (trace w ++ new)%list /\
    (forall f c, In (WriteFile f c (Some false)) new ->
       exists header trailer,
         f = "build_" ++ bn ++ script_ext_of h /\
         c = pipeline_script header bn im (l_ngdbuild_opt l)
               (map_opt (self_obj w)) (par_opt (self_obj w))
               (bitgen_opt (self_obj w)) trailer) /\
    (forall l', r = inr l' -> exists f c, In (WriteFile f c (Some false)) new).
Proof.
  intros Him Hb. unfold build_tail in Hb.
  unfold bind at 1 in Hb.
  destruct (quiet_ucf_step NS h bn l w) as (n1 & Ht1 & Hq1).
  pose proof (keeps_self_ucf_step NS h bn l w) as Hs1.
  destruct (ucf_step NS h bn l w) as [[e|u] w1]; cbn [fst snd] in Ht1, Hs1.
  { injection Hb as <- <-. exists n1. split; [exact Ht1|].
    split; [|discriminate]. intros f c Hin. now apply Hq1 in Hin. }
  unfold bind at 1 in Hb.
  destruct (run_step NS h bn tp source true l w1) as [rr w2] eqn:Hrun.
  destruct (run_step_script _ _ _ _ _ _ _ _ Him Hrun) as (n2 & Ht2 & Hshape & Hdone).
  exists (n1 ++ n2)%list.
  assert (Hw : w' = w2 /\ (forall l', r = inr l' -> exists u', rr = inr u')).
  { destruct rr as [e|u']; injection Hb as <- <-; split; try reflexivity.
    - discriminate.
    - intros _ _. now exists u'. }
  destruct Hw as [-> Hrr].
  split; [now rewrite Ht2, Ht1, app_assoc|]. split.
  - intros f c Hin. apply in_app_or in Hin.
    destruct Hin as [Hin|Hin]; [now apply Hq1 in Hin|].
    rewrite <- Hs1. now apply Hshape.
  - intros l' Hl. destruct (Hrr _ Hl) as (u' & Hu).
    destruct (Hdone _ Hu) as (f & c & Hin).
    exists f, c. apply in_or_app. now right.
Qed.

Lemma build_body_script fragment bn tp source mode self w rb wb :
  self_obj w = self ->
  build_body Fragment NS IOSignals h mist platform fragment bn tp source true mode (initial_locals NS self) w = (rb, wb) ->
  exists new,
    trace wb = (trace w ++ new)%list /\
    (forall f c, In (WriteFile f c (Some false)) new ->
       exists im opt header trailer,
         pipeline_input (mode_kind mode) (ngdbuild_opt self) (device platform)
         = Some (im, opt) /\
         f = "build_" ++ bn ++ script_ext_of h /\
         c = pipeline_script header bn im opt (map_opt self) (par_opt self)
               (bitgen_opt self) trailer) /\
    (forall l', rb = inr l' -> exists f c, In (WriteFile f c (Some false)) new).
Proof.
  intros Hself Hb. rewrite build_body_split in Hb. unfold bind in Hb.
  destruct (quiet_build_prefix Fragment NS IOSignals h mist platform fragment bn mode
              (initial_locals NS self) w) as (n1 & Ht1 & Hq1).
  pose proof (keeps_self_build_prefix Fragment NS IOSignals h mist platform fragment
                bn mode (initial_locals NS self) w) as Hs1.
  destruct (build_prefix Fragment NS IOSignals h mist platform fragment bn mode (initial_locals NS self) w)
    as [[e|l2] w1] eqn:Hp; cbn [fst snd] in Ht1, Hs1.
  { injection Hb as <- <-. exists n1. split; [exact Ht1|].
    split; [|discriminate]. intros f c Hin. now apply Hq1 in Hin. }
  apply build_prefix_locals in Hp. cbn [initial_locals l_ngdbuild_opt] in Hp.
  destruct (design_compiler platform (mode_kind mode)) as [compile|];
    [destruct (pipeline_input (mode_kind mode) (ngdbuild_opt self) (device platform))
       as [[im opt]|] eqn:Hin|].
  - destruct Hp as (o & nm & _ & _ & ->).
    eapply build_tail_script in Hb; [|reflexivity].
    destruct Hb as (n2 & Ht2 & Hshape & Hdone).
    exists (n1 ++ n2)%list. split; [now rewrite Ht2, Ht1, app_assoc|]. split.
    + intros f c Hi. apply in_app_or in Hi.
      destruct Hi as [Hi|Hi]; [now apply Hq1 in Hi|].
      destruct (Hshape _ _ Hi) as (header & trailer & -> & ->).
      exists im, opt, header, trailer. cbn [l_ngdbuild_opt].
      rewrite Hs1, Hself. now repeat split.
    + intros l' Hl. destruct (Hdone _ Hl) as (f & c & Hi).
      exists f, c. apply in_or_app. now right.
  - destruct Hp as [-> ->].
    rewrite build_tail_unbound in Hb by reflexivity. injection Hb as <- <-.
    exists []. rewrite app_nil_r. split; [reflexivity|].
    split; [intros f c []|discriminate].
  - destruct Hp as [-> ->].
    rewrite build_tail_unbound in Hb by reflexivity. injection Hb as <- <-.
    exists []. rewrite app_nil_r. split; [reflexivity|].
    split; [intros f c []|discriminate].
Qed.

(** X10. With [run=True], the build script that [build] writes is the
    pipeline script of its mode: mode ["xst"] runs the pipeline in mode
    ["xst"] with the translate options of the toolchain object, modes
    ["mist"] and ["edif"] in mode ["edif"] with the same options, mode
    ["yosys"] in mode ["edif"] with the device option appended; the map,
    place-and-route and bitstream options are those of the toolchain
    object. An unknown mode writes no script, and a normal return means
    the script was written. *)
Theorem build_script_by_mode fragment bd bn tp source mode w :
  exists new,
    trace (snd (build Fragment NS IOSignals h mist platform fragment bd bn tp source true mode w))
    = (trace w ++ new)%list /\
    (forall f c, In (WriteFile f c (Some false)) new ->
       exists im opt header trailer,
         pipeline_input (mode_kind mode) (ngdbuild_opt (self_obj w))
           (device platform) = Some (im, opt) /\
         f = "build_" ++ bn ++ script_ext_of h /\
         c = pipeline_script header bn im opt (map_opt (self_obj w))
               (par_opt (self_obj w)) (bitgen_opt (self_obj w)) trailer) /\
    (forall v, fst (build Fragment NS IOSignals h mist platform fragment bd bn tp source true mode w) = inr v ->
       exists f c, In (WriteFile f c (Some false)) new).
Proof.
  destruct (build Fragment NS IOSignals h mist platform fragment bd bn tp source true mode w) as [r w'] eqn:Hb.
  cbn [fst snd]. apply build_inv in Hb.
  destruct Hb as [(e & -> & [-> | ->]) | (f0 & c0 & rb & wb & _ & _ & _ & Hbody & Hb)].
  { exists []. rewrite app_nil_r. split; [reflexivity|].
    split; [intros f c []|discriminate]. }
  { exists [Mkdir bd]. split; [reflexivity|].
    split; [intros f c [H|[]]; discriminate H|discriminate]. }
  apply build_body_script in Hbody; [|reflexivity].
  destruct Hbody as (nb & Htb & Hshape & Hdone).
  cbn [trace log set_cwd] in Htb.
  assert (Hgen : forall tail, no_script tail ->
            (forall f c, In (WriteFile f c (Some false))
                           ([Mkdir bd; Chdir bd] ++ nb ++ tail)%list ->
               In (WriteFile f c (Some false)) nb)).
  { intros tail Ht f c Hin. cbn [app In] in Hin.
    destruct Hin as [H|[H|Hin]]; [discriminate H|discriminate H|].
    apply in_app_or in Hin. destruct Hin as [Hin|Hin]; [exact Hin|].
    now apply Ht in Hin. }
  destruct Hb as [(e & _ & -> & ->) | (c' & _ & -> & ->)].
  - exists ([Mkdir bd; Chdir bd] ++ nb ++ [])%list. split.
    { rewrite Htb, app_nil_r, <- !app_assoc. reflexivity. }
    split; [|discriminate].
    intros f c Hin. apply Hshape. now apply (Hgen [] no_script_nil).
  - exists ([Mkdir bd; Chdir bd] ++ nb ++ [Chdir (cwd w)])%list.
    cbn [trace log set_cwd]. split.
    { rewrite Htb, <- !app_assoc. reflexivity. }
    split.
    + intros f c Hin. apply Hshape.
      apply (Hgen [Chdir (cwd w)]); [|exact Hin].
      apply no_script_one. discriminate.
    + intros v Hv. destruct rb as [e|l']; [discriminate Hv|].
      destruct (Hdone l' eq_refl) as (f & c & Hin).
      exists f, c. right. right. apply in_or_app. right.
      apply in_or_app. now left.
Qed.

(** ** The normal return *)

Lemma build_tail_ok bn tp source run (l l' : Locals NS) w w' :
  build_tail NS h bn tp source run l w = (inr l', w') ->
  l' = l /\
  exists sc pc contents new,
    named l = Some (sc, pc) /\
    _build_ucf (Pins_init h) sc pc = inr contents /\
    trace w' = (trace w ++ WriteFile (bn ++ ".ucf") contents None :: new)%list.
Proof.
  intros Hb. unfold build_tail in Hb.
  inv_bind Hb u w1 Hu. inv_bind Hb u' w2 Hr. apply ret_inr in Hb as [-> ->].
  split; [reflexivity|].
  unfold ucf_step in Hu. destruct (named l) as [[sc pc]|]; [|discriminate Hu].
  inv_bind Hu contents w0 Hc. apply lift_inr in Hc as [Hc ->].
  unfold write_to_file, emit in Hu. injection Hu as _ <-.
  destruct (ff_run_step NS h bn tp source run l
              (log (WriteFile (bn ++ ".ucf") contents None) w)) as (new & Ht & _).
  rewrite Hr in Ht. cbn [snd trace log] in Ht.
  exists sc, pc, contents, new. split; [reflexivity|]. split; [exact Hc|].
  rewrite Ht. now rewrite <- app_assoc.
Qed.

(** X11. When [build] returns normally, what it returns is never [None]:
    it is the name table of the output of the design compiler of the mode
    ([get_verilog] in modes ["xst"] and ["yosys"], [get_edif] in modes
    ["mist"] and ["edif"]), and the constraint file [<name>.ucf] was
    written with the text that [_build_ucf] makes of the constraints the
    platform resolved with that name table. *)
Theorem build_returns_design_names fragment bd bn tp source run mode w v w' :
  build Fragment NS IOSignals h mist platform fragment bd bn tp source run mode w = (inr v, w') ->
  exists f compile o sc pc contents,
    fragment_of fragment = inr f /\
    design_compiler platform (mode_kind mode) = Some compile /\
    compile f = inr o /\
    v = Some (ns o) /\
    resolve_signals platform (ns o) = inr (sc, pc) /\
    _build_ucf (Pins_init h) sc pc = inr contents /\
    exists pre post,
      trace w' = (trace w ++ pre ++ WriteFile (bn ++ ".ucf") contents None :: post)%list.
Proof.
  intros Hb. apply build_inv in Hb.
  destruct Hb as [(e & He & _) | (f & c & rb & wb & Hf & _ & _ & Hbody & Hb)];
    [discriminate He|].
  destruct Hb as [(e & _ & He & _) | (c' & _ & Hr & ->)]; [discriminate He|].
  destruct rb as [e|l']; [discriminate Hr|]. injection Hr as ->.
  rewrite build_body_split in Hbody.
  inv_bind Hbody l2 w1 Hp.
  destruct (quiet_build_prefix Fragment NS IOSignals h mist platform f bn mode
              (initial_locals NS (self_obj w))
              (log (Chdir bd) (set_cwd c (log (Mkdir bd) w)))) as (n1 & Ht1 & _).
  rewrite Hp in Ht1. cbn [snd trace log set_cwd] in Ht1.
  apply build_prefix_locals in Hp.
  apply build_tail_ok in Hbody.
  destruct Hbody as (-> & sc & pc & contents & n2 & Hnamed & Hucf & Ht2).
  destruct (design_compiler platform (mode_kind mode)) as [compile|];
    [destruct (pipeline_input (mode_kind mode) _ _) as [[im opt]|]|].
  - destruct Hp as (o & nm & Ho & Hres & ->). cbn [named vns] in *.
    injection Hnamed as ->.
    exists f, compile, o, sc, pc, contents. repeat (split; [assumption || reflexivity|]).
    exists ([Mkdir bd; Chdir bd] ++ n1)%list, (n2 ++ [Chdir (cwd w)])%list.
    cbn [trace log set_cwd]. rewrite Ht2, Ht1. rewrite <- !app_assoc. reflexivity.
  - destruct Hp as [-> _]. discriminate Hnamed.
  - destruct Hp as [-> _]. discriminate Hnamed.
Qed.

End BuildExtras.

(** ** Runs *)

Lemma run_ise_plain_text_witness :
  _run_ise (posix_host all_pass) "top" "/opt/Xilinx" true "xst" ""
    "-g Binary:Yes -w" "" "-ol high -w" "-ol high -w" None demo_world
  = (inr tt,
     log (Call ["bash"; "build_top.sh"] (inr 0%Z))
       (log (WriteFile "build_top.sh"
               (pipeline_script
                  ("# Autogenerated by Migen" ++ nl ++ "set -e" ++ nl
                   ++ "source /opt/Xilinx/14.7/ISE_DS/settings64.sh" ++ nl)
                  "top" "xst" "" "-ol high -w" "-ol high -w" "-g Binary:Yes -w" "")
               (Some false)) demo_world)).
Proof.
  exact (run_ise_plain_text (posix_host all_pass) "top" "/opt/Xilinx" true "xst" ""
           "-g Binary:Yes -w" "" "-ol high -w" "-ol high -w" None demo_world
           ("# Autogenerated by Migen" ++ nl ++ "set -e" ++ nl
            ++ "source /opt/Xilinx/14.7/ISE_DS/settings64.sh" ++ nl)
           eq_refl eq_refl eq_refl).
Defined.

Lemma build_unknown_mode_witness :
  exists e,
    fst (build unit unit unit (posix_host all_pass) no_mist demo_platform
           (IsFragment tt) "build" "top" None None true "vivado" demo_world)
    = inl e /\
    (trace (snd (build unit unit unit (posix_host all_pass) no_mist demo_platform
                   (IsFragment tt) "build" "top" None None true "vivado"
                   demo_world)) = trace demo_world \/
     trace (snd (build unit unit unit (posix_host all_pass) no_mist demo_platform
                   (IsFragment tt) "build" "top" None None true "vivado"
                   demo_world)) = (trace demo_world ++ [Mkdir "build"])%list \/
     trace (snd (build unit unit unit (posix_host all_pass) no_mist demo_platform
                   (IsFragment tt) "build" "top" None None true "vivado"
                   demo_world))
     = (trace demo_world ++ [Mkdir "build"; Chdir "build"])%list \/
     (trace (snd (build unit unit unit (posix_host all_pass) no_mist demo_platform
                    (IsFragment tt) "build" "top" None None true "vivado"
                    demo_world))
      = (trace demo_world
         ++ [Mkdir "build"; Chdir "build"; Chdir (cwd demo_world)])%list /\
      e = UnboundLocalError "named_sc")).
Proof.
  apply (build_unknown_mode unit unit unit (posix_host all_pass) no_mist
           demo_platform (IsFragment tt) "build" "top" None None true "vivado"
           demo_world).
  - reflexivity.
  - apply surjective_pairing.
Defined.

Lemma build_returns_design_names_witness :
  exists f compile o sc pc contents,
    fragment_of (IsFragment tt) = inr f /\
    design_compiler demo_platform (mode_kind "edif") = Some compile /\
    compile f = inr o /\
    Some tt = Some (ns o) /\
    resolve_signals demo_platform (ns o) = inr (sc, pc) /\
    _build_ucf (Pins_init (posix_host all_pass)) sc pc = inr contents /\
    exists pre post,
      trace (snd (build unit unit unit (posix_host all_pass) no_mist demo_platform
                    (IsFragment tt) "build" "top" None None false "edif"
                    demo_world))
      = (trace demo_world ++ pre
         ++ WriteFile "top.ucf" contents None :: post)%list.
Proof.
  apply (build_returns_design_names unit unit unit (posix_host all_pass) no_mist
           demo_platform (IsFragment tt) "build" "top" None None false "edif"
           demo_world (Some tt)).
  vm_compute. reflexivity.
Defined.
